(** * Process supervision core of the Minecraft server manager

    A shallow embedding of [src/services/minecraft/minecraft.js]: the
    registry of running servers ([runningServers]), the start / stop /
    command operations, the bounded in-memory log array, the log queries
    and the reader of [logs/latest.log].

    Conventions of the embedding.
    - A JavaScript string is a [string]: a sequence of 8-bit code units
      (Latin-1).  Code units above 255 are outside the model.
    - A JavaScript number that is an integer is a [Z]; a number that may
      be [undefined] is an [option Z].  Above 2^53 not every integer is a
      number: a [Z] stands for a number only when it is one.  Where the
      program prints a number or hands it to a timer, what JavaScript does
      with large values is written out ([Number_toString], [timer_delay]).
    - An [async] function is cut at its [await]s into atomic segments;
      the event loop runs one segment at a time.  The sequential version
      of an operation runs its segments back to back.
    - [Date.now()] reads the field [now] of the world.
    - Calls to [logger] have no effect on the modelled state and are
      left out. *)

From stdpp Require Import gmap strings list pretty.
From Stdlib Require Import Ascii ZArith Lia.

Open Scope Z_scope.

(** ** JavaScript primitives used by the service *)

Module JS.

(** [x || d] for a number [x] that may be [undefined]: [undefined] and [0]
    are falsy. *)
Definition or_default (x : option Z) (d : Z) : Z :=
  match x with
  | Some n => if n =? 0 then d else n
  | None => d
  end.

(** Truthiness of an optional string: [undefined] and the empty string are
    falsy. *)
Definition truthy (x : option string) : option string :=
  match x with
  | Some "" => None
  | other => other
  end.

(** [a > b] where [b] may be [undefined]: a comparison with [undefined] is
    false. *)
Definition gt_maybe (a : Z) (b : option Z) : bool :=
  match b with
  | Some n => n <? a
  | None => false
  end.

(** White space of [String.prototype.trim] among the 8-bit code units:
    TAB, LF, VT, FF, CR, SPACE and NBSP. *)
Definition is_space (c : ascii) : bool :=
  let n := nat_of_ascii c in
  ((9 <=? n) && (n <=? 13) || (n =? 32) || (n =? 160))%nat.

Fixpoint trimStart (s : string) : string :=
  match s with
  | EmptyString => EmptyString
  | String c r => if is_space c then trimStart r else s
  end.

Fixpoint trimEnd (s : string) : string :=
  match s with
  | EmptyString => EmptyString
  | String c r =>
      match trimEnd r with
      | EmptyString => if is_space c then EmptyString else String c EmptyString
      | r' => String c r'
      end
  end.

Definition trim (s : string) : string := trimEnd (trimStart s).

(** [hay.startsWith(needle)] *)
Fixpoint startsWith (needle hay : string) : bool :=
  match needle, hay with
  | EmptyString, _ => true
  | String a n', String b h' => if decide (a = b) then startsWith n' h' else false
  | String _ _, EmptyString => false
  end.

(** [hay.includes(needle)] *)
Fixpoint includes (needle hay : string) : bool :=
  if startsWith needle hay then true
  else match hay with
       | EmptyString => false
       | String _ r => includes needle r
       end.

(** [String.prototype.toLowerCase] on 8-bit code units: A-Z and the
    Latin-1 capitals U+00C0..U+00DE except the multiplication sign. *)
Definition lower_char (c : ascii) : ascii :=
  let n := nat_of_ascii c in
  if ((65 <=? n) && (n <=? 90) ||
      (192 <=? n) && (n <=? 222) && negb (n =? 215))%nat
  then ascii_of_nat (n + 32) else c.

Fixpoint toLowerCase (s : string) : string :=
  match s with
  | EmptyString => EmptyString
  | String c r => String (lower_char c) (toLowerCase r)
  end.

(** [l.slice(start)] for an integer [start]: a negative [start] counts
    from the end. *)
Definition slice_from {A} (start : Z) (l : list A) : list A :=
  let len := Z.of_nat (length l) in
  if start <? 0 then drop (Z.to_nat (Z.max (len + start) 0)) l
  else drop (Z.to_nat (Z.min start len)) l.

(** [l.push(x)] and [l.shift()], as the new contents of the array. *)
Definition push {A} (l : list A) (x : A) : list A := l ++ [x].
Definition shift {A} (l : list A) : list A := drop 1 l.

(** [s.split(sep)] for a one-character separator. *)
Fixpoint split (sep : ascii) (s : string) : list string :=
  match s with
  | EmptyString => [EmptyString]
  | String c r =>
      if decide (c = sep) then EmptyString :: split sep r
      else match split sep r with
           | [] => [String c EmptyString]
           | w :: ws => String c w :: ws
           end
  end.

(** [Number(s)] for a string of decimal digits ([Number("")] is [0]).
    Other strings do not reach it in this program. *)
Definition digit_value (c : ascii) : Z := Z.of_nat (nat_of_ascii c) - 48.

Fixpoint Number_acc (acc : Z) (s : string) : Z :=
  match s with
  | EmptyString => acc
  | String c r => Number_acc (10 * acc + digit_value c) r
  end.

Definition Number (s : string) : Z := Number_acc 0 s.

(** The delay that Node gives to a timer: a delay below 1 or above
    2^31 - 1 is set to 1. *)
Definition timer_delay (after : Z) : Z :=
  if (1 <=? after) && (after <=? 2147483647) then after else 1.

(** The keys of an object that are array indices: the decimal numerals,
    without leading zeros, of the integers from 0 to 2^32 - 2. *)
Definition is_decimal (c : ascii) : bool :=
  let n := nat_of_ascii c in ((48 <=? n) && (n <=? 57))%nat.

Fixpoint all_decimal (s : string) : bool :=
  match s with
  | EmptyString => true
  | String c r => is_decimal c && all_decimal r
  end.

Definition array_index (k : string) : option Z :=
  match k with
  | EmptyString => None
  | String c r =>
      if all_decimal k && (negb (bool_decide (c = "0"%char)) || bool_decide (r = EmptyString))
      then if Number k <? 4294967295 then Some (Number k) else None
      else None
  end.

(** The order in which an object lists its own keys: the array indices
    first, in ascending order, then the other keys in the order of their
    creation.  [key_before a b]: of the two keys [a] is listed first,
    whichever was created first. *)
Definition key_before (a b : string) : bool :=
  match array_index a, array_index b with
  | Some i, Some j => i <? j
  | Some _, None => true
  | None, _ => false
  end.

(** The number nearest to a non-negative integer: 53 significant bits,
    a tie going to the even neighbour. *)
Definition to_number (z : Z) : Z :=
  let b := Z.log2 z in
  if b <=? 52 then z
  else
    let sh := b - 52 in
    let q := Z.shiftr z sh in
    let r := z - Z.shiftl q sh in
    let half := Z.shiftl 1 (sh - 1) in
    let q := if (half <? r) || ((r =? half) && Z.odd q) then q + 1 else q in
    Z.shiftl q sh.

(** The number of digits of a positive integer. *)
Definition digits (z : Z) : Z := Z.of_nat (String.length (pretty z)).

(** [s * 10^(n-k)] with [k] digits in [s] reads back as the number [x]. *)
Definition reads_as (x k n s : Z) : bool :=
  (10 ^ (k - 1) <=? s) && (s <? 10 ^ k) && (to_number (s * 10 ^ (n - k)) =? x).

(** The candidates with [k] digits, with their distance to [x]. *)
Definition candidates (x k : Z) : list (Z * Z * Z) :=
  n ← [digits x; digits x + 1];
  if n <? k then []
  else
    s ← [x / 10 ^ (n - k); x / 10 ^ (n - k) + 1];
    if reads_as x k n s then [(Z.abs (s * 10 ^ (n - k) - x), s, n)] else [].

(** The nearest candidate; of two equally near, the even one. *)
Definition nearest (cs : list (Z * Z * Z)) : option (Z * Z * Z) :=
  foldr (λ c best,
           match best with
           | None => Some c
           | Some b =>
               if (c.1.1 <? b.1.1) || ((c.1.1 =? b.1.1) && Z.even c.1.2)
               then Some c else Some b
           end) None cs.

(** The shortest digits that read back as [x]: [(s, k, n)]. *)
Fixpoint shortest (x : Z) (k : Z) (fuel : nat) : option (Z * Z * Z) :=
  match fuel with
  | O => None
  | S fuel =>
      match nearest (candidates x k) with
      | Some (_, s, n) => Some (s, k, n)
      | None => shortest x (k + 1) fuel
      end
  end.

Fixpoint zeros (n : nat) : string :=
  match n with O => EmptyString | S n => String "0" (zeros n) end.

(** The text of a number above 2^53, from its shortest digits. *)
Definition text_of (s k n : Z) : string :=
  if n <=? 21 then pretty s +:+ zeros (Z.to_nat (n - k))
  else
    match pretty s with
    | String d EmptyString => String d EmptyString +:+ "e+" +:+ pretty (n - 1)
    | String d more => String d ("." +:+ more) +:+ "e+" +:+ pretty (n - 1)
    | EmptyString => EmptyString
    end.

(** Up to 2^53 a number prints with all its digits; from 2^1024 on (after
    rounding) it is [Infinity]. *)
Definition positive_text (z : Z) : string :=
  let x := to_number z in
  if x <=? 2 ^ 53 then pretty x
  else if 2 ^ 1024 <=? x then "Infinity"
  else match shortest x 1 17 with
       | Some (s, k, n) => text_of s k n
       | None => pretty x
       end.

(** [String(n)], [n.toString()] and [`${n}`] for a number that is an
    integer. *)
Definition Number_toString (z : Z) : string :=
  if z <? 0 then "-" +:+ positive_text (- z) else positive_text z.

End JS.

(** ** Log entries and the log array of a running server *)

Inductive LogType := stdout | stderr | system | command.

Definition type_name (t : LogType) : string :=
  match t with
  | stdout => "stdout"
  | stderr => "stderr"
  | system => "system"
  | command => "command"
  end.

Record LogEntry := mkLog {
  timestamp : Z;
  message : string;
  type : LogType
}.

(** [config.minecraft], of the configuration module (not part of the
    service file): both settings may be left undefined. *)
Record MinecraftConfig := mkConfig {
  maxLogLines : option Z;
  stopTimeout : option Z
}.

Module LogBuffer.

(** [const MAX_LOGS = config.minecraft.maxLogLines || 1000] *)
Definition MAX_LOGS (cfg : MinecraftConfig) : Z :=
  JS.or_default (maxLogLines cfg) 1000.

(** The entry built by the stdout and stderr handlers; no entry for a
    chunk that is blank after [trim]. *)
Definition stream_entry (ty : LogType) (now : Z) (data : string) : option LogEntry :=
  let message := JS.trim data in
  if decide (message = EmptyString) then None
  else Some (mkLog now message ty).

(** [logs.push(logEntry); if (logs.length > MAX_LOGS) logs.shift();] *)
Definition push_bounded (cfg : MinecraftConfig) (logs : list LogEntry) (e : LogEntry)
  : list LogEntry :=
  let logs := JS.push logs e in
  if MAX_LOGS cfg <? Z.of_nat (length logs) then JS.shift logs else logs.

(** The close handler: [logs.push(logEntry)] and nothing more. *)
Definition exit_entry (now : Z) (code : option Z) : LogEntry :=
  mkLog now
    ("Server process exited with code " +:+
       match code with Some c => pretty c | None => "null" end)
    system.

Definition push_exit (logs : list LogEntry) (now : Z) (code : option Z) : list LogEntry :=
  JS.push logs (exit_entry now code).

(** [sendCommand]: the bound is [config.minecraft.maxLogLines] itself,
    without the default. *)
Definition command_entry (now : Z) (cmd : string) : LogEntry :=
  mkLog now ("Command executed: " +:+ cmd) command.

Definition push_command (cfg : MinecraftConfig) (logs : list LogEntry) (e : LogEntry)
  : list LogEntry :=
  let logs := JS.push logs e in
  if JS.gt_maybe (Z.of_nat (length logs)) (maxLogLines cfg) then JS.shift logs else logs.

End LogBuffer.

(** ** The filters shared by the two log queries

    [getServerLogs] and [getServerLogsFromFile] end with the same three
    steps: the type filter, the text search and the limit. *)

Record LogOptions := mkOptions {
  opt_type : option string;
  opt_search : option string;
  opt_limit : option Z
}.

Module LogQuery.

Definition has_type (t : string) (log : LogEntry) : Prop :=
  type_name (type log) = t.

Definition mentions (searchLower : string) (log : LogEntry) : Prop :=
  JS.includes searchLower (JS.toLowerCase (message log)) = true.

#[global] Instance has_type_dec t log : Decision (has_type t log).
Proof. unfold has_type. apply _. Defined.

#[global] Instance mentions_dec s log : Decision (mentions s log).
Proof. unfold mentions. apply _. Defined.

Definition apply_filters (options : LogOptions) (logs : list LogEntry) : list LogEntry :=
  let logs :=
    match JS.truthy (opt_type options) with
    | Some t => filter (has_type t) logs
    | None => logs
    end in
  let logs :=
    match JS.truthy (opt_search options) with
    | Some search =>
        let searchLower := JS.toLowerCase search in
        filter (mentions searchLower) logs
    | None => logs
    end in
  let limit := JS.or_default (opt_limit options) 100 in
  JS.slice_from (- Z.min limit (Z.of_nat (length logs))) logs.

(** What the query is meant to compute, in the words of its contract: the
    entries of the wanted type that mention the search text in any case,
    cut down to the [limit] most recent ones. *)
Definition last_n {A} (n : nat) (l : list A) : list A :=
  drop (length l - n) l.

Definition effective_limit (limit : option Z) : nat :=
  match limit with
  | None | Some 0 => 100
  | Some n => Z.to_nat n
  end.

(** [Selected P l kept]: [kept] holds the entries of [l] that satisfy
    [P], in the order of [l]. *)
Inductive Selected {A} (P : A → Prop) : list A → list A → Prop :=
| Selected_nil : Selected P [] []
| Selected_keep x l kept : P x → Selected P l kept → Selected P (x :: l) (x :: kept)
| Selected_skip x l kept : ¬ P x → Selected P l kept → Selected P (x :: l) kept.

Definition wanted (ty search : option string) (log : LogEntry) : Prop :=
  (∀ t, ty = Some t → t ≠ EmptyString → type_name (type log) = t) ∧
  (∀ s, search = Some s → s ≠ EmptyString →
     ∃ before after,
       JS.toLowerCase (message log) = before +:+ JS.toLowerCase s +:+ after).

End LogQuery.

(** ** Reader of the persisted log file *)

Module LogFile.

Definition is_digit (c : ascii) : bool :=
  let n := nat_of_ascii c in ((48 <=? n) && (n <=? 57))%nat.

(** [.] of a regular expression matches any code unit but a line
    terminator (LF and CR among the 8-bit ones). *)
Definition is_dot (c : ascii) : bool :=
  let n := nat_of_ascii c in negb ((n =? 10) || (n =? 13))%nat.

Definition not_rbracket (c : ascii) : bool :=
  if decide (c = "]"%char) then false else true.

(** The longest prefix whose code units satisfy [p], and the rest: a
    greedy [c+] or [c*] followed by something [c] excludes. *)
Fixpoint span (p : ascii → bool) (s : string) : string * string :=
  match s with
  | EmptyString => (EmptyString, EmptyString)
  | String c r =>
      if p c then let '(a, b) := span p r in (String c a, b)
      else (EmptyString, s)
  end.

Definition expect (c : ascii) (s : string) : option string :=
  match s with
  | String d r => if decide (d = c) then Some r else None
  | EmptyString => None
  end.

Definition digit (s : string) : option (ascii * string) :=
  match s with
  | String d r => if is_digit d then Some (d, r) else None
  | EmptyString => None
  end.

(** [\d{2}:\d{2}:\d{2}], returning the text matched and the rest. *)
Definition time_of_day (s : string) : option (string * string) :=
  '(h1, s) ← digit s; '(h2, s) ← digit s; s ← expect ":" s;
  '(m1, s) ← digit s; '(m2, s) ← digit s; s ← expect ":" s;
  '(s1, s) ← digit s; '(s2, s) ← digit s;
  Some (String h1 (String h2 (String ":" (String m1 (String m2
         (String ":" (String s1 (String s2 EmptyString))))))), s).

(** [/\[(\d{2}:\d{2}:\d{2})\] \[([^\]]+)\]: (.+)/] tried at the head of
    [s]: the three captures. *)
Definition match_here (s : string) : option (string * string * string) :=
  s ← expect "[" s;
  '(timeStr, s) ← time_of_day s;
  s ← expect "]" s; s ← expect " " s; s ← expect "[" s;
  let '(level, s) := span not_rbracket s in
  if decide (level = EmptyString) then None else
  s ← expect "]" s; s ← expect ":" s; s ← expect " " s;
  let '(text, _) := span is_dot s in
  if decide (text = EmptyString) then None else
  Some (timeStr, level, text).

(** [line.match(re)]: the pattern is not anchored, the leftmost position
    where it matches wins. *)
Fixpoint regex_match (s : string) : option (string * string * string) :=
  match match_here s with
  | Some m => Some m
  | None =>
      match s with
      | EmptyString => None
      | String _ r => regex_match r
      end
  end.

(** [localTime now h m s] stands for
    [new Date(now.getFullYear(), now.getMonth(), now.getDate(), h, m, s).getTime()]
    where [now] is the instant of [new Date()]. *)
Definition field (i : nat) (l : list Z) : Z := default 0 (l !! i).

Definition parse_line (localTime : Z → Z → Z → Z → Z) (now : Z) (line : string)
  : LogEntry :=
  match regex_match line with
  | Some (timeStr, level, _) =>
      let parts := JS.Number <$> JS.split ":" timeStr in
      let hours := field 0 parts in
      let minutes := field 1 parts in
      let seconds := field 2 parts in
      mkLog (localTime now hours minutes seconds) line
            (if JS.includes "ERROR" level then stderr else stdout)
  | None => mkLog now line stdout
  end.

Definition kept (line : string) : Prop := JS.trim line ≠ EmptyString.

#[global] Instance kept_dec line : Decision (kept line).
Proof. unfold kept. apply _. Defined.

(** The entry of one line of the file, if the line is kept. *)
Definition read_line (localTime : Z → Z → Z → Z → Z) (now : Z) (line : string)
  : option LogEntry :=
  if decide (kept line) then Some (parse_line localTime now line) else None.

(** [content.split('\n').filter(line => line.trim()).map(...)]; the
    [i]-th kept line reads the clock at [clock i]. *)
Definition parse_content (localTime : Z → Z → Z → Z → Z) (clock : nat → Z)
    (content : string) : list LogEntry :=
  imap (λ i line, parse_line localTime (clock i) line)
       (filter kept (JS.split "010" content)).

(** A calendar for the examples: local time is UTC without daylight
    saving. *)
Definition utc_time (now hours minutes seconds : Z) : Z :=
  now - now `mod` 86400000 + ((hours * 60 + minutes) * 60 + seconds) * 1000.

(** The pattern, said declaratively.  [Time h m s t]: [t] is the text
    [HH:MM:SS] of the two-digit numbers [h], [m], [s]. *)
Definition two_digits (a b : ascii) : Z := 10 * JS.digit_value a + JS.digit_value b.

Inductive Time : Z → Z → Z → string → Prop :=
| Time_intro h1 h2 m1 m2 s1 s2 :
    is_digit h1 = true → is_digit h2 = true →
    is_digit m1 = true → is_digit m2 = true →
    is_digit s1 = true → is_digit s2 = true →
    Time (two_digits h1 h2) (two_digits m1 m2) (two_digits s1 s2)
         (String h1 (String h2 (String ":" (String m1 (String m2
           (String ":" (String s1 (String s2 EmptyString)))))))).

Fixpoint all_chars (p : ascii → bool) (s : string) : Prop :=
  match s with
  | EmptyString => True
  | String c r => p c = true ∧ all_chars p r
  end.

(** [Shape h m s level s0]: [s0] begins with a bracketed time, a
    bracketed level without a closing bracket in it, a colon, a space and
    at least one code unit of text on the same line. *)
Inductive Shape : Z → Z → Z → string → string → Prop :=
| Shape_intro h m s t level c rest :
    Time h m s t →
    level ≠ EmptyString → all_chars not_rbracket level →
    is_dot c = true →
    Shape h m s level
      ("[" +:+ t +:+ "] [" +:+ level +:+ "]: " +:+ String c rest).

Definition shaped (s0 : string) : Prop := ∃ h m s level, Shape h m s level s0.

(** The pattern occurs in [line] after [before], and nowhere earlier. *)
Definition Leftmost (h m s : Z) (level before line : string) : Prop :=
  ∃ s0, line = before +:+ s0 ∧ Shape h m s level s0 ∧
    ∀ b1 b2, before = b1 +:+ b2 → b2 ≠ EmptyString → ¬ shaped (b2 +:+ s0).

Definition Unmatched (line : string) : Prop :=
  ∀ before s0, line = before +:+ s0 → ¬ shaped s0.

End LogFile.

(** ** The registry of running servers and its world

    The service keeps one module-level [Map], [runningServers], and talks
    to the record store, the file system, the child processes, the timers
    and the socket server.  The world gathers them. *)

Module Registry.

(** A [MinecraftServer] document, as far as the service reads or writes
    it.  [properties] is an ordered key/value object. *)
Record ServerDoc := mkServer {
  name : string;
  path : string;
  jarFile : string;
  memory_min : string;
  memory_max : string;
  jvmFlags : list string;
  properties : list (string * string);
  lastStarted : option Z;
  lastStopped : option Z
}.

Definition with_properties (p : list (string * string)) (s : ServerDoc) : ServerDoc :=
  mkServer (name s) (path s) (jarFile s) (memory_min s) (memory_max s)
           (jvmFlags s) p (lastStarted s) (lastStopped s).

Definition with_lastStarted (t : Z) (s : ServerDoc) : ServerDoc :=
  mkServer (name s) (path s) (jarFile s) (memory_min s) (memory_max s)
           (jvmFlags s) (properties s) (Some t) (lastStopped s).

Definition with_lastStopped (t : Z) (s : ServerDoc) : ServerDoc :=
  mkServer (name s) (path s) (jarFile s) (memory_min s) (memory_max s)
           (jvmFlags s) (properties s) (lastStarted s) (Some t).

(** A spawned child process together with what the closures of
    [startServer] hold for it: the [serverId], the [io] argument, the
    [server] document and the [logs] array.  The handle stored in the map
    refers to the same process, document and array, so it names the child
    and reads them here. *)
Record ChildProcess := mkChild {
  serverId : string;
  io : bool;
  server : ServerDoc;
  spawnargs : list string;
  cwd : string;
  logs : list LogEntry;
  stdin : list string;              (* chunks written to stdin *)
  stdin_error : option string;      (* [Some e]: [stdin.write] throws [e]; a
                                       write after the exit does not throw *)
  signals : list string;            (* signals sent with [kill] *)
  exitCode : option (option Z);     (* [Some code] once 'close' was emitted *)
  closing : bool;                   (* the close handler awaits [save] *)
  once_close : list nat;            (* [once('close')] listeners of [stopServer] *)
  spawn_error : option string       (* [Some e]: no process was created; the
                                       child will emit 'error' with [e] *)
}.

Definition with_logs (f : list LogEntry → list LogEntry) (c : ChildProcess) : ChildProcess :=
  mkChild (serverId c) (io c) (server c) (spawnargs c) (cwd c) (f (logs c)) (stdin c)
          (stdin_error c) (signals c) (exitCode c) (closing c) (once_close c)
          (spawn_error c).

Definition with_server (f : ServerDoc → ServerDoc) (c : ChildProcess) : ChildProcess :=
  mkChild (serverId c) (io c) (f (server c)) (spawnargs c) (cwd c) (logs c) (stdin c)
          (stdin_error c) (signals c) (exitCode c) (closing c) (once_close c)
          (spawn_error c).

Definition with_stdin (f : list string → list string) (c : ChildProcess) : ChildProcess :=
  mkChild (serverId c) (io c) (server c) (spawnargs c) (cwd c) (logs c) (f (stdin c))
          (stdin_error c) (signals c) (exitCode c) (closing c) (once_close c)
          (spawn_error c).

Definition with_signals (f : list string → list string) (c : ChildProcess) : ChildProcess :=
  mkChild (serverId c) (io c) (server c) (spawnargs c) (cwd c) (logs c) (stdin c)
          (stdin_error c) (f (signals c)) (exitCode c) (closing c) (once_close c)
          (spawn_error c).

Definition with_exit (code : option Z) (c : ChildProcess) : ChildProcess :=
  mkChild (serverId c) (io c) (server c) (spawnargs c) (cwd c) (logs c) (stdin c)
          (stdin_error c) (signals c) (Some code) true [] (spawn_error c).

Definition with_closing (b : bool) (c : ChildProcess) : ChildProcess :=
  mkChild (serverId c) (io c) (server c) (spawnargs c) (cwd c) (logs c) (stdin c)
          (stdin_error c) (signals c) (exitCode c) b (once_close c) (spawn_error c).

Definition with_once_close (f : list nat → list nat) (c : ChildProcess) : ChildProcess :=
  mkChild (serverId c) (io c) (server c) (spawnargs c) (cwd c) (logs c) (stdin c)
          (stdin_error c) (signals c) (exitCode c) (closing c) (f (once_close c))
          (spawn_error c).

(** The value stored in [runningServers]: [{process, logs, startTime, server}]. *)
Record Handle := mkHandle {
  process : nat;
  startTime : Z
}.

Inductive FsNode := Dir | File (content : string).

Record Timer := mkTimer {
  deadline : Z;
  target : string
}.

(** The result objects [{status, message}]. *)
Inductive Result := Success (msg : string) | Error (msg : string).

Inductive Payload := LogPayload (e : LogEntry) | StatusPayload (status : string).

Record IoEvent := mkEmit {
  room : string;
  event : string;
  payload : Payload
}.

(** Failures of the collaborators that the service does not control.
    [spawn] fails in two ways.  It throws when its arguments are refused
    or the system gives an error such as ENOMEM.  When the system cannot
    create the process for want of the program, of the permission or of
    resources (ENOENT, EACCES, EAGAIN), it returns a child all the same,
    and the child emits 'error' on a later turn of the event loop. *)
Record Faults := mkFaults {
  ensureDir_rejects : option string;
  spawn_throws : option string;
  spawn_reports : option string;
  save_rejects : option string;
  writeFile_rejects : option string
}.

Definition no_faults : Faults := mkFaults None None None None None.

Record World := mkWorld {
  config : MinecraftConfig;
  now : Z;
  runningServers : gmap string Handle;
  children : list ChildProcess;
  db : gmap string ServerDoc;
  fs : gmap string FsNode;
  timers : gmap nat Timer;
  next_timer : nat;
  settled : list (nat * Result);    (* promises of [stopServer] resolved so far *)
  emitted : list IoEvent;
  faults : Faults
}.

Definition set_now (t : Z) (w : World) : World :=
  mkWorld (config w) t (runningServers w) (children w) (db w) (fs w) (timers w)
          (next_timer w) (settled w) (emitted w) (faults w).

Definition set_runningServers (f : gmap string Handle → gmap string Handle) (w : World) : World :=
  mkWorld (config w) (now w) (f (runningServers w)) (children w) (db w) (fs w) (timers w)
          (next_timer w) (settled w) (emitted w) (faults w).

Definition set_children (f : list ChildProcess → list ChildProcess) (w : World) : World :=
  mkWorld (config w) (now w) (runningServers w) (f (children w)) (db w) (fs w) (timers w)
          (next_timer w) (settled w) (emitted w) (faults w).

Definition set_db (f : gmap string ServerDoc → gmap string ServerDoc) (w : World) : World :=
  mkWorld (config w) (now w) (runningServers w) (children w) (f (db w)) (fs w) (timers w)
          (next_timer w) (settled w) (emitted w) (faults w).

Definition set_fs (f : gmap string FsNode → gmap string FsNode) (w : World) : World :=
  mkWorld (config w) (now w) (runningServers w) (children w) (db w) (f (fs w)) (timers w)
          (next_timer w) (settled w) (emitted w) (faults w).

Definition set_timers (f : gmap nat Timer → gmap nat Timer) (w : World) : World :=
  mkWorld (config w) (now w) (runningServers w) (children w) (db w) (fs w) (f (timers w))
          (next_timer w) (settled w) (emitted w) (faults w).

Definition set_next_timer (n : nat) (w : World) : World :=
  mkWorld (config w) (now w) (runningServers w) (children w) (db w) (fs w) (timers w)
          n (settled w) (emitted w) (faults w).

Definition set_settled (f : list (nat * Result) → list (nat * Result)) (w : World) : World :=
  mkWorld (config w) (now w) (runningServers w) (children w) (db w) (fs w) (timers w)
          (next_timer w) (f (settled w)) (emitted w) (faults w).

Definition set_emitted (f : list IoEvent → list IoEvent) (w : World) : World :=
  mkWorld (config w) (now w) (runningServers w) (children w) (db w) (fs w) (timers w)
          (next_timer w) (settled w) (f (emitted w)) (faults w).

Definition set_faults (fl : Faults) (w : World) : World :=
  mkWorld (config w) (now w) (runningServers w) (children w) (db w) (fs w) (timers w)
          (next_timer w) (settled w) (emitted w) fl.

(** *** Collaborators *)

(** [path.join] of segments that are already normalised. *)
Definition path_join (dir file : string) : string := dir +:+ "/" +:+ file.

Definition LF : string := String "010" EmptyString.

Definition existsSync (w : World) (p : string) : bool :=
  bool_decide (is_Some (fs w !! p)).

(** [io.to(room).emit(event, payload)], when [io] was given. *)
Definition emit (given : bool) (e : IoEvent) (w : World) : World :=
  if given then set_emitted (λ l, l ++ [e]) w else w.

Definition update_child (pid : nat) (f : ChildProcess → ChildProcess) (w : World) : World :=
  set_children (alter f pid) w.

(** [child.kill(signal)]: nothing is sent to a child that has exited. *)
Definition kill (pid : nat) (signal : string) (w : World) : World :=
  update_child pid (λ c, match exitCode c with
                         | Some _ => c
                         | None => with_signals (λ l, l ++ [signal]) c
                         end) w.

(** [child.stdin.write(chunk)]: the new world, or the error thrown. *)
Definition stdin_write (pid : nat) (chunk : string) (w : World) : World + string :=
  match children w !! pid with
  | Some c =>
      match stdin_error c with
      | Some e => inr e
      | None => inl (update_child pid (with_stdin (λ l, l ++ [chunk])) w)
      end
  | None => inr "Cannot read properties of undefined"
  end.

(** [setTimeout(callback, delay)]: the timer is due once the delay that
    Node gives it has passed. *)
Definition setTimeout (delay : Z) (serverId : string) (w : World) : World :=
  let id := next_timer w in
  set_next_timer (S id)
    (set_timers (insert id (mkTimer (now w + JS.timer_delay delay) serverId)) w).

Definition clearTimeout (id : nat) (w : World) : World :=
  set_timers (delete id) w.

Definition resolve (ticket : nat) (r : Result) (w : World) : World :=
  set_settled (λ l, l ++ [(ticket, r)]) w.

(** *** startServer

    The function is cut at its three [await]s: [findById], [ensureDir]
    (only when the directory is missing) and [save]. *)

Inductive StartFailure :=
| AlreadyRunning
| ServerNotFound
| EnsureDirRejected (msg : string)
| JarNotFound (jarPath : string)
| SpawnThrew (msg : string)
| SaveRejected (msg : string).

(** [error.message], or the message of the early return. *)
Definition failure_message (f : StartFailure) : string :=
  match f with
  | AlreadyRunning => "Server is already running"
  | ServerNotFound => "Server not found"
  | EnsureDirRejected msg => msg
  | JarNotFound jarPath => "Server JAR file not found at " +:+ jarPath
  | SpawnThrew msg => msg
  | SaveRejected msg => msg
  end.

Inductive StartResult :=
| Started (serverId : string)
| StartFailed (f : StartFailure).

(** The two failures that the launch itself reports: the jar is missing,
    or [spawn] threw. *)
Definition artifact_or_spawn (f : StartFailure) : Prop :=
  (∃ jarPath, f = JarNotFound jarPath) ∨ (∃ msg, f = SpawnThrew msg).

Definition start_result (r : StartResult) : Result :=
  match r with
  | Started _ => Success "Server started successfully"
  | StartFailed f => Error (failure_message f)
  end.

Inductive StartTask :=
| start_entry (serverId : string) (io : bool)
| start_after_findById (serverId : string) (io : bool)
| start_after_ensureDir (serverId : string) (io : bool) (server : ServerDoc)
| start_after_save (serverId : string) (io : bool) (pid : nat)
| start_returned (r : StartResult).

Definition javaArgs (server : ServerDoc) : list string :=
  jvmFlags server ++
  ["-Xms" +:+ memory_min server; "-Xmx" +:+ memory_max server;
   "-jar"; jarFile server; "nogui"].

(** What [spawn] returns, with the closure of the handlers: the child
    has empty logs, and [server.lastStarted] is set just before [save] is
    called.  The service puts no 'error' listener on the child: a process
    that the system did not create shows in the child only. *)
Definition new_child (w : World) (serverId : string) (io : bool) (server : ServerDoc)
  : ChildProcess :=
  mkChild serverId io (with_lastStarted (now w) server)
          (javaArgs server) (path server)
          [] [] None [] None false [] (spawn_reports (faults w)).

(** [spawn(...)], the handlers, and [runningServers.set(serverId, {...})]. *)
Definition register_child (w : World) (serverId : string) (io : bool) (server : ServerDoc)
  : World :=
  let pid := length (children w) in
  let child := new_child w serverId io server in
  set_runningServers (insert serverId (mkHandle pid (now w)))
    (set_children (λ cs, cs ++ [child]) w).

(** From the jar check to the call of [server.save()]: one segment. *)
Definition launch (w : World) (serverId : string) (io : bool) (server : ServerDoc)
  : World * StartTask :=
  let jarPath := path_join (path server) (jarFile server) in
  if existsSync w jarPath then
    match spawn_throws (faults w) with
    | Some msg => (w, start_returned (StartFailed (SpawnThrew msg)))
    | None =>
        (register_child w serverId io server,
         start_after_save serverId io (length (children w)))
    end
  else (w, start_returned (StartFailed (JarNotFound jarPath))).

Definition start_step (w : World) (t : StartTask) : World * StartTask :=
  match t with
  | start_entry serverId io =>
      match runningServers w !! serverId with
      | Some _ => (w, start_returned (StartFailed AlreadyRunning))
      | None => (w, start_after_findById serverId io)
      end
  | start_after_findById serverId io =>
      match db w !! serverId with
      | None => (w, start_returned (StartFailed ServerNotFound))
      | Some server =>
          if existsSync w (path server) then launch w serverId io server
          else (w, start_after_ensureDir serverId io server)
      end
  | start_after_ensureDir serverId io server =>
      match ensureDir_rejects (faults w) with
      | Some msg => (w, start_returned (StartFailed (EnsureDirRejected msg)))
      | None =>
          let w := set_fs (λ m, match m !! path server with
                                | Some _ => m
                                | None => <[path server := Dir]> m
                                end) w in
          launch w serverId io server
      end
  | start_after_save serverId io pid =>
      match save_rejects (faults w) with
      | Some msg => (w, start_returned (StartFailed (SaveRejected msg)))
      | None =>
          let w := match children w !! pid with
                   | Some c => set_db (insert serverId (server c)) w
                   | None => w
                   end in
          let w := emit io (mkEmit ("server:" +:+ serverId) "serverStatus"
                                   (StatusPayload "running")) w in
          (w, start_returned (Started serverId))
      end
  | start_returned r => (w, t)
  end.

Fixpoint start_steps (n : nat) (w : World) (t : StartTask) : World * StartTask :=
  match n with
  | O => (w, t)
  | S n => let '(w, t) := start_step w t in start_steps n w t
  end.

(** A call that no other task interleaves with: its segments back to
    back.  Four steps reach the return on every path. *)
Definition startServer (w : World) (serverId : string) (io : bool) : World * StartTask :=
  start_steps 4 w (start_entry serverId io).

(** Several calls in flight: [schedule] names, turn by turn, the task
    whose next segment runs. *)
Fixpoint interleave (schedule : list nat) (w : World) (tasks : list StartTask)
  : World * list StartTask :=
  match schedule with
  | [] => (w, tasks)
  | i :: schedule =>
      match tasks !! i with
      | Some t =>
          let '(w, t) := start_step w t in
          interleave schedule w (<[i := t]> tasks)
      | None => interleave schedule w tasks
      end
  end.

(** The children that have not exited. *)
Definition live (w : World) : list ChildProcess :=
  filter (λ c, exitCode c = None) (children w).

(** *** Events delivered by the event loop *)

Definition on_data (ty : LogType) (pid : nat) (data : string) (w : World) : World :=
  match children w !! pid with
  | Some c =>
      match LogBuffer.stream_entry ty (now w) data with
      | Some logEntry =>
          let w := update_child pid
                     (with_logs (λ l, LogBuffer.push_bounded (config w) l logEntry)) w in
          emit (io c) (mkEmit ("server:" +:+ serverId c +:+ ":logs") "serverLog"
                              (LogPayload logEntry)) w
      | None => w
      end
  | None => w
  end.

(** The [once('close')] listeners of pending [stopServer] calls, in the
    order of their registration: each clears its timer and resolves its
    promise. *)
Definition notify (w : World) (listeners : list nat) : World :=
  foldl (λ w killTimeout,
           resolve killTimeout (Success "Server stopped gracefully")
                   (clearTimeout killTimeout w))
        w listeners.

(** 'close' is emitted once per child.  The handler of [startServer]
    runs up to its [await server.save()], then the [once('close')]
    listeners of pending [stopServer] calls run. *)
Definition on_close (pid : nat) (code : option Z) (w : World) : World :=
  match children w !! pid with
  | Some c =>
      match exitCode c with
      | Some _ => w
      | None =>
          let logEntry := LogBuffer.exit_entry (now w) code in
          let t := now w in
          let w := update_child pid
                     (λ c, with_exit code
                             (with_server (with_lastStopped t)
                                (with_logs (λ l, JS.push l logEntry) c))) w in
          let w := emit (io c) (mkEmit ("server:" +:+ serverId c +:+ ":logs") "serverLog"
                                       (LogPayload logEntry)) w in
          let w := emit (io c) (mkEmit ("server:" +:+ serverId c) "serverStatus"
                                       (StatusPayload "stopped")) w in
          notify w (once_close c)
      end
  | None => w
  end.

(** The rest of the close handler, once [save] has settled: the entry of
    [serverId] leaves the map.  A rejected [save] ends the handler. *)
Definition on_close_saved (pid : nat) (w : World) : World :=
  match children w !! pid with
  | Some c =>
      if closing c then
        let w := update_child pid (with_closing false) w in
        match save_rejects (faults w) with
        | Some _ => w
        | None =>
            set_runningServers (delete (serverId c))
              (set_db (insert (serverId c) (server c)) w)
        end
      else w
  | None => w
  end.

(** The callback of the timer set by [stopServer], when it is due. *)
Definition fire_timer (id : nat) (w : World) : World :=
  match timers w !! id with
  | Some t =>
      if deadline t <=? now w then
        let w := set_timers (delete id) w in
        match runningServers w !! target t with
        | Some instance => kill (process instance) "SIGKILL" w
        | None => w
        end
      else w
  | None => w
  end.

Inductive Event :=
| Tick (ms : N)
| StdoutData (pid : nat) (data : string)
| StderrData (pid : nat) (data : string)
| Close (pid : nat) (code : option Z)
| CloseSaved (pid : nat)
| FireTimer (id : nat).

Definition step (w : World) (e : Event) : World :=
  match e with
  | Tick ms => set_now (now w + Z.of_N ms) w
  | StdoutData pid data => on_data stdout pid data w
  | StderrData pid data => on_data stderr pid data w
  | Close pid code => on_close pid code w
  | CloseSaved pid => on_close_saved pid w
  | FireTimer id => fire_timer id w
  end.

Definition run (w : World) (evs : list Event) : World := foldl step w evs.

(** The time that passes during a trace. *)
Definition elapsed (evs : list Event) : Z :=
  foldr (λ e acc, match e with Tick ms => Z.of_N ms + acc | _ => acc end) 0 evs.

(** Events that neither end a child nor fire a timer: time passing and
    output arriving. *)
Definition quiet (e : Event) : Prop :=
  match e with
  | Tick _ | StdoutData _ _ | StderrData _ _ => True
  | _ => False
  end.


Definition duration (e : Event) : Z :=
  match e with Tick ms => Z.of_N ms | _ => 0 end.

(** Two children that differ at most in their log arrays. *)
Definition same_but_logs (c c' : ChildProcess) : Prop :=
  with_logs (λ _, []) c = with_logs (λ _, []) c'.

(** What a pending stop relies on while it waits: the map, its timer, the
    faults of the store, and its child up to the log array. *)
Record Waiting (w0 : World) (tid pid : nat) (c1 : ChildProcess) (w : World) : Prop := {
  waiting_map : runningServers w = runningServers w0;
  waiting_timer : timers w !! tid = timers w0 !! tid;
  waiting_faults : faults w = faults w0;
  waiting_child : ∃ c, children w !! pid = Some c ∧ same_but_logs c c1
}.

(** *** stopServer *)

Inductive StopOutcome :=
| stop_returned (r : Result)
| stop_pending (killTimeout : nat).

(** The time after which the timer of a stop is due:
    [config.minecraft.stopTimeout || 30000], as Node takes it. *)
Definition stop_delay (cfg : MinecraftConfig) : Z :=
  JS.timer_delay (JS.or_default (stopTimeout cfg) 30000).

Definition stopServer (w : World) (serverId : string) (force : bool)
  : World * StopOutcome :=
  match runningServers w !! serverId with
  | None => (w, stop_returned (Error "Server is not running"))
  | Some serverInstance =>
      if force then
        (kill (process serverInstance) "SIGKILL" w,
         stop_returned (Success "Server forcefully stopped"))
      else
        match stdin_write (process serverInstance) ("stop" +:+ LF) w with
        | inr msg => (w, stop_returned (Error msg))
        | inl w =>
            let killTimeout := next_timer w in
            let w := setTimeout (JS.or_default (stopTimeout (config w)) 30000) serverId w in
            let w := update_child (process serverInstance)
                       (with_once_close (λ l, l ++ [killTimeout])) w in
            (w, stop_pending killTimeout)
        end
  end.

(** *** sendCommand *)

Definition sendCommand (w : World) (serverId : string) (command : string)
  : World * Result :=
  match runningServers w !! serverId with
  | None => (w, Error "Server is not running")
  | Some serverInstance =>
      let logEntry := LogBuffer.command_entry (now w) command in
      let w := update_child (process serverInstance)
                 (with_logs (λ l, LogBuffer.push_command (config w) l logEntry)) w in
      match stdin_write (process serverInstance) (command +:+ LF) w with
      | inr msg => (w, Error msg)
      | inl w => (w, Success ("Command sent: " +:+ command))
      end
  end.

(** *** getServerLogs and getServerLogsFromFile

    The result is the list of entries, or the message of the error
    thrown. *)

Definition getServerLogsFromFile (localTime : Z → Z → Z → Z → Z) (clock : nat → Z)
    (w : World) (serverId : string) (options : LogOptions) : string + list LogEntry :=
  match db w !! serverId with
  | None => inl "Server not found"
  | Some server =>
      let logPath := path_join (path_join (path server) "logs") "latest.log" in
      match fs w !! logPath with
      | None => inr []
      | Some Dir => inl "EISDIR: illegal operation on a directory, read"
      | Some (File content) =>
          inr (LogQuery.apply_filters options
                 (LogFile.parse_content localTime clock content))
      end
  end.

(** The log array that the handle of [serverId] holds. *)
Definition buffer (w : World) (serverId : string) : option (list LogEntry) :=
  h ← runningServers w !! serverId;
  c ← children w !! process h;
  Some (logs c).

Definition getServerLogs (localTime : Z → Z → Z → Z → Z) (clock : nat → Z)
    (w : World) (serverId : string) (options : LogOptions) : string + list LogEntry :=
  match runningServers w !! serverId with
  | None => getServerLogsFromFile localTime clock w serverId options
  | Some serverInstance =>
      match children w !! process serverInstance with
      | Some c => inr (LogQuery.apply_filters options (logs c))
      | None => inl "Cannot read properties of undefined"
      end
  end.

(** *** updateServerProperties *)

(** An object is the list of its own enumerable entries, in the order in
    which JavaScript lists them ([JS.key_before]).

    Setting the key [k]: a key that is there keeps its place and takes the
    new value; a new array index goes before the first key that it
    precedes, another new key goes to the end. *)
Fixpoint assign (base : list (string * string)) (k v : string) : list (string * string) :=
  match base with
  | [] => [(k, v)]
  | (k', v') :: rest =>
      if decide (k' = k) then (k, v) :: rest
      else if JS.key_before k k' then (k, v) :: base
      else (k', v') :: assign rest k v
  end.

(** [{...base, ...extra}] *)
Definition spread (base extra : list (string * string)) : list (string * string) :=
  foldl (λ acc kv, assign acc kv.1 kv.2) base extra.

(** The entries are in the order in which JavaScript lists them: no entry
    comes after one that it precedes. *)
Fixpoint listed (o : list (string * string)) : Prop :=
  match o with
  | [] => True
  | kv :: rest => Forall (λ kv', JS.key_before kv'.1 kv.1 = false) rest ∧ listed rest
  end.

(** A key that is not an array index. *)
Definition named (k : string) : Prop := JS.array_index k = None.

#[global] Instance named_dec k : Decision (named k).
Proof. unfold named. apply _. Defined.

(** The content of the file, from the entries that [Object.entries]
    gave.  [isoNow] is the text of [new Date().toISOString()]. *)
Definition properties_content (isoNow : string) (props : list (string * string)) : string :=
  foldl (λ content kv, content +:+ kv.1 +:+ "=" +:+ kv.2 +:+ LF)
        ("# Minecraft server properties" +:+ LF +:+
         "# Generated by Minecraft Server Manager on " +:+ isoNow +:+ LF)
        props.

Section Store.

(** The schema declares the field [properties] a [Map] of strings
    (src/models/V1.js), and the service reads it as an object: by a spread
    and by [Object.entries].  Both list the own enumerable properties of
    the Map object, which the Map type of the store decides, not the
    service: [own_entries m] stands for them, for a Map that holds the
    entries [m].  Assigning an object to the field makes the store build a
    Map of the entries of the object; a Map that it refuses is a rejected
    [save]. *)
Variable own_entries : list (string * string) → list (string * string).

Definition updateServerProperties (isoNow : string) (w : World) (serverId : string)
    (newProperties : list (string * string))
  : World * (string + list (string * string)) :=
  match db w !! serverId with
  | None => (w, inl "Server not found")
  | Some server =>
      match runningServers w !! serverId with
      | Some _ => (w, inl "Cannot update properties while server is running")
      | None =>
          let saved :=
            match newProperties with
            | [] => inl (w, server)
            | _ :: _ =>
                let server :=
                  with_properties
                    (spread (own_entries (properties server)) newProperties) server in
                match save_rejects (faults w) with
                | Some msg => inr msg
                | None => inl (set_db (insert serverId server) w, server)
                end
            end in
          match saved with
          | inr msg => (w, inl msg)
          | inl (w, server) =>
              let content :=
                properties_content isoNow (own_entries (properties server)) in
              let propertiesPath := path_join (path server) "server.properties" in
              match writeFile_rejects (faults w) with
              | Some msg => (w, inl msg)
              | None =>
                  (set_fs (insert propertiesPath (File content)) w,
                   inr (properties server))
              end
          end
      end
  end.

End Store.

End Registry.

(** ** Worlds used by the examples *)

Module Examples.
Import Registry.

Definition survival : ServerDoc :=
  mkServer "survival" "/srv/mc/survival" "paper-1.20.jar" "1G" "4G" []
           [("server-port", "25565"); ("motd", "hello")] None None.

Definition installed : gmap string FsNode :=
  <["/srv/mc/survival" := Dir]>
    (<["/srv/mc/survival/paper-1.20.jar" := File EmptyString]> ∅).

(** One configured server, [s1], installed on disk and not running. *)
Definition idle (cfg : MinecraftConfig) : World :=
  mkWorld cfg 1000 ∅ [] (<["s1" := survival]> ∅) installed ∅ 0 [] [] no_faults.

Definition defaults : MinecraftConfig := mkConfig None None.
Definition capacity3 : MinecraftConfig := mkConfig (Some 3) None.

(** [s1] running: the world after a sequential [startServer]. *)
Definition running (cfg : MinecraftConfig) : World :=
  (startServer (idle cfg) "s1" true).1.

(** The same server with its working directory missing from the disk. *)
Definition no_directory : World :=
  set_fs (λ _, ∅) (idle defaults).

(** [spawn] throws: the system has no memory for a new process. *)
Definition spawn_refused : World :=
  set_faults (mkFaults None (Some "spawn ENOMEM") None None None) (idle defaults).

(** There is no [java] on the machine: [spawn] returns a child that will
    emit 'error'. *)
Definition java_missing : World :=
  set_faults (mkFaults None None (Some "spawn java ENOENT") None None) (idle defaults).

(** A Map type whose objects show none of their entries as properties of
    their own, but three fields of the implementation. *)
Definition internal_fields (_ : list (string * string)) : list (string * string) :=
  [("$__parent", "[object Object]"); ("$__path", "properties");
   ("$__schemaType", "[object Object]")].

(** [s1] has exited: 'close' was emitted and the close handler still
    awaits [save], so the handle is still in the map. *)
Definition exited_unsaved : World :=
  run (running defaults) [Close 0 (Some 0)].

(** [s1] running, after one chunk on each output stream. *)
Definition chatty : World :=
  run (running defaults) [StdoutData 0 "Done"; StderrData 0 "Oops"].

End Examples.

(** ** The rest of the service: shutdown, status, listing, creation and
    restore *)

Module Service.
Import Registry.

(** *** stopAllServers

    [keys] stands for [runningServers.keys()], the identifiers in the
    order of their insertion, which the map of the model does not keep.
    [stopServer] has no [await]: each call runs to its return, or to its
    pending promise, before the next one starts. *)
Fixpoint stopAllServers (keys : list string) (w : World) : World * list StopOutcome :=
  match keys with
  | [] => (w, [])
  | serverId :: keys =>
      let '(w, outcome) := stopServer w serverId false in
      let '(w, outcomes) := stopAllServers keys w in
      (w, outcome :: outcomes)
  end.

Definition pending (o : StopOutcome) : Prop :=
  match o with stop_pending _ => True | stop_returned _ => False end.

(** *** The documents of the store

    The fields of a [MinecraftServer] document that the registry core
    never reads; the store holds them beside the document of the core. *)
Record Details := mkDetails {
  version : string;
  kind : string;                 (* the field [type] *)
  port : Z;
  autostart : bool;
  createdAt : Z
}.

Record Site := mkSite {
  core : World;
  details : gmap string Details
}.

Definition findById (s : Site) (serverId : string) : option (ServerDoc * Details) :=
  server ← db (core s) !! serverId;
  d ← details s !! serverId;
  Some (server, d).

(** *** getServerStatus and listServers

    [sample] stands for [getServerResourceUsage] of the monitor service:
    it gives a usage sample or throws. *)
Record StatusReport (U : Type) := mkReport {
  report_status : string;
  report_id : string;
  report_name : string;
  report_version : string;
  report_type : string;
  report_port : Z;
  report_memory : string * string;
  report_autostart : bool;
  report_created : Z;
  report_lastStarted : option Z;
  report_resourceUsage : option U;
  report_path : string
}.
Arguments mkReport {U}.
Arguments report_status {U}.
Arguments report_resourceUsage {U}.
Arguments report_lastStarted {U}.
Arguments report_id {U}.

Definition isRunning (w : World) (serverId : string) : bool :=
  bool_decide (is_Some (runningServers w !! serverId)).

Definition status_text (running : bool) : string :=
  if running then "running" else "stopped".

(** [resourceUsage]: sampled only for a running server, [null] otherwise. *)
Definition usage_of {U} (sample : string → string + U) (running : bool)
    (serverId : string) : string + option U :=
  if running then
    match sample serverId with
    | inl e => inl e
    | inr u => inr (Some u)
    end
  else inr None.

Definition getServerStatus {U} (sample : string → string + U) (s : Site)
    (serverId : string) : string + StatusReport U :=
  match findById s serverId with
  | None => inl "Server not found"
  | Some (server, d) =>
      let running := isRunning (core s) serverId in
      match usage_of sample running serverId with
      | inl e => inl e
      | inr resourceUsage =>
          inr (mkReport (status_text running) serverId (name server) (version d)
                        (kind d) (port d) (memory_min server, memory_max server)
                        (autostart d) (createdAt d) (lastStarted server)
                        resourceUsage (path server))
      end
  end.

(** One element of the answer of [listServers].  [uptime] is a number:
    [None] stands for [NaN], the value of [Date.now() - undefined]. *)
Record Summary (U : Type) := mkSummary {
  summary_id : string;
  summary_name : string;
  summary_version : string;
  summary_type : string;
  summary_port : Z;
  summary_status : string;
  summary_uptime : option Z;
  summary_resourceUsage : option U;
  summary_autostart : bool
}.
Arguments mkSummary {U}.
Arguments summary_id {U}.
Arguments summary_status {U}.
Arguments summary_uptime {U}.
Arguments summary_resourceUsage {U}.

Definition uptime_of (w : World) (running : bool) (server : ServerDoc) : option Z :=
  if running then (λ started, now w - started) <$> lastStarted server
  else Some 0.

Definition summarize {U} (sample : string → string + U) (s : Site)
    (serverId : string) (server : ServerDoc) (d : Details) : string + Summary U :=
  let running := isRunning (core s) serverId in
  match usage_of sample running serverId with
  | inl e => inl e
  | inr resourceUsage =>
      inr (mkSummary serverId (name server) (version d) (kind d) (port d)
                     (status_text running) (uptime_of (core s) running server)
                     resourceUsage (autostart d))
  end.

(** [found] stands for the answer of
    [MinecraftServer.find({}).sort({ createdAt: -1 })]: the identifiers of
    the documents in the order the store returns them.  [Promise.all]
    rejects with the first rejection. *)
Fixpoint listServers {U} (sample : string → string + U) (s : Site)
    (found : list string) : string + list (Summary U) :=
  match found with
  | [] => inr []
  | serverId :: found =>
      match findById s serverId with
      | None => listServers sample s found
      | Some (server, d) =>
          match summarize sample s serverId server d with
          | inl e => inl e
          | inr entry =>
              match listServers sample s found with
              | inl e => inl e
              | inr entries => inr (entry :: entries)
              end
          end
      end
  end.

(** *** createServer and downloadServerJar *)

Record Memory := mkMemory {
  memory_min_given : option string;
  memory_max_given : option string
}.

Record ServerData := mkServerData {
  data_name : option string;
  data_version : option string;
  data_type : option string;
  data_port : option Z;
  data_memory : option Memory;
  data_autostart : option bool;
  data_maxPlayers : option string;
  data_difficulty : option string;
  data_gamemode : option string;
  data_motd : option string;
  data_acceptEula : bool
}.

(** [x || d] on strings that may be undefined. *)
Definition text_or (x : option string) (d : string) : string :=
  default d (JS.truthy x).

(** A number that is given and not [0]. *)
Definition truthy_number (x : option Z) : option Z :=
  match x with
  | Some 0 => None
  | other => other
  end.

(** The function throws on every path: the message of its error. *)
Definition downloadServerJar (type version destination : string) : string :=
  if decide (type = "vanilla") then "Download not implemented for vanilla servers"
  else if decide (type = "paper") then "Download not implemented for Paper servers"
  else if decide (type = "spigot") then "Download not implemented for Spigot servers"
  else "Unknown server type: " +:+ type.

Definition port_taken (s : Site) (p : Z) : bool :=
  bool_decide (Exists (λ kv, port kv.2 = p) (map_to_list (details s))).

(** [fs.ensureDir(p)]: the world with the directory, or the rejection. *)
Definition ensureDir (p : string) (w : World) : World + string :=
  match ensureDir_rejects (faults w) with
  | Some msg => inr msg
  | None =>
      inl (set_fs (λ m, match m !! p with
                        | Some _ => m
                        | None => <[p := Dir]> m
                        end) w)
  end.

Definition with_core (w : World) (s : Site) : Site := mkSite w (details s).

Definition initial_properties (name : string) (p : Z) (serverData : ServerData)
  : list (string * string) :=
  [("server-port", JS.Number_toString p);
   ("max-players", text_or (data_maxPlayers serverData) "20");
   ("difficulty", text_or (data_difficulty serverData) "normal");
   ("gamemode", text_or (data_gamemode serverData) "survival");
   ("motd", text_or (data_motd serverData)
              (name +:+ " - Powered by NodeJS Minecraft Manager"))].

(** [own_entries] is what the Map type of the store shows of a Map
    ([Registry.updateServerProperties]), [serversDir] is
    [config.minecraft.serversDir], [newId] the identifier the store gives
    to the new document, [isoNow] the text of the date written into the
    properties file.  The result is the new document, or the message of
    the error thrown.  The schema of the store trims the name, gives the
    defaults of [memory] and [autostart] and makes a Map of the object of
    initial properties; a document it refuses is a rejected [save]. *)
Definition createServer (own_entries : list (string * string) → list (string * string))
    (serversDir newId isoNow : string) (s : Site)
    (serverData : ServerData) : Site * (string + (ServerDoc * Details)) :=
  match JS.truthy (data_name serverData), JS.truthy (data_version serverData),
        JS.truthy (data_type serverData), truthy_number (data_port serverData),
        data_memory serverData with
  | Some name, Some version, Some type, Some p, Some memory =>
      if port_taken s p then
        (s, inl ("Port " +:+ JS.Number_toString p +:+
                 " is already in use by another server"))
      else
        let serverPath := path_join serversDir name in
        match ensureDir serverPath (core s) with
        | inr msg => (s, inl msg)
        | inl w =>
            let jarFile := type +:+ "-" +:+ version +:+ ".jar" in
            let jarPath := path_join serverPath jarFile in
            if negb (existsSync w jarPath) then
              (with_core w s, inl (downloadServerJar type version jarPath))
            else
              let server :=
                mkServer (JS.trim name) serverPath jarFile
                         (default "1G" (memory_min_given memory))
                         (default "4G" (memory_max_given memory))
                         [] (initial_properties name p serverData) None None in
              let d := mkDetails version type p
                                 (default false (data_autostart serverData)) (now w) in
              match save_rejects (faults w) with
              | Some msg => (with_core w s, inl msg)
              | None =>
                  let w := set_db (insert newId server) w in
                  let s := mkSite w (<[newId := d]> (details s)) in
                  match updateServerProperties own_entries isoNow w newId [] with
                  | (w, inl msg) => (with_core w s, inl msg)
                  | (w, inr _) =>
                      if data_acceptEula serverData then
                        match writeFile_rejects (faults w) with
                        | Some msg => (with_core w s, inl msg)
                        | None =>
                            let eulaPath := path_join serverPath "eula.txt" in
                            (with_core
                               (set_fs (insert eulaPath (File ("eula=true" +:+ LF))) w) s,
                             inr (server, d))
                        end
                      else (with_core w s, inr (server, d))
                  end
              end
        end
  | _, _, _, _, _ => (s, inl "Missing required server configuration")
  end.

(** *** Property objects *)

(** [props[k]] on an ordered key/value object. *)
Fixpoint get (k : string) (props : list (string * string)) : option string :=
  match props with
  | [] => None
  | (k', v) :: rest => if decide (k' = k) then Some v else get k rest
  end.

Definition not_newline (c : ascii) : bool :=
  if decide (c = "010"%char) then false else true.

(** A text without a line feed. *)
Definition one_line (s : string) : Prop := LogFile.all_chars not_newline s.

(** The line of one property in the file. *)
Definition property_line (kv : string * string) : string := kv.1 +:+ "=" +:+ kv.2.

(** *** restoreBackup *)

Record Backup := mkBackup {
  backup_server : string;          (* the reference [backup.server] *)
  backup_path : string
}.

(** [p] itself or a path below it. *)
Definition within (p k : string) : Prop :=
  k = p ∨ JS.startsWith (p +:+ "/") k = true.

#[global] Instance within_dec p k : Decision (within p k).
Proof. unfold within. apply _. Defined.

(** [fs.remove(p)]: the entry and everything below it. *)
Definition remove (p : string) (w : World) : World :=
  set_fs (filter (λ kv, ¬ within p kv.1)) w.

Inductive RestoreTask :=
| restore_awaits_stop (server : ServerDoc) (serverId : string) (killTimeout : nat)
| restore_returned (r : Result).

(** After the stop, if any: the directory is removed and created again;
    the extraction itself is not implemented. *)
Definition wipe (w : World) (server : ServerDoc) (serverId : string)
  : World * RestoreTask :=
  let extractPath := path server in
  match ensureDir extractPath (remove extractPath w) with
  | inr msg => (remove extractPath w, restore_returned (Error msg))
  | inl w => (w, restore_returned (Success "Backup restored successfully"))
  end.

(** [backups] is the collection of [ServerBackup] documents;
    [populate('server')] looks the referenced document up. *)
Definition restoreBackup (backups : gmap string Backup) (w : World) (backupId : string)
  : World * RestoreTask :=
  match backups !! backupId with
  | None => (w, restore_returned (Error "Backup not found"))
  | Some backup =>
      match db w !! backup_server backup with
      | None =>
          (w, restore_returned
                (Error "Cannot read properties of null (reading '_id')"))
      | Some server =>
          let serverId := backup_server backup in
          if isRunning w serverId then
            match stopServer w serverId false with
            | (w, stop_returned _) => wipe w server serverId
            | (w, stop_pending killTimeout) =>
                (w, restore_awaits_stop server serverId killTimeout)
            end
          else wipe w server serverId
      end
  end.

(** The call goes on once the promise of its stop is resolved. *)
Definition restore_resume (w : World) (t : RestoreTask) : World * RestoreTask :=
  match t with
  | restore_awaits_stop server serverId killTimeout =>
      if bool_decide (killTimeout ∈ (settled w).*1) then wipe w server serverId
      else (w, t)
  | restore_returned _ => (w, t)
  end.

End Service.

(** ** Invariants and scenarios of the later properties *)

Module Scenarios.
Import Registry Examples Service.

(** The log array of a child holds no more than [MAX_LOGS] entries. *)
Definition within_capacity (cfg : MinecraftConfig) (c : ChildProcess) : Prop :=
  Z.of_nat (length (logs c)) ≤ LogBuffer.MAX_LOGS cfg.

(** The identifier has a handle whose process accepts writes to its stdin. *)
Definition stoppable (w : World) (id : string) : Prop :=
  ∃ h c, runningServers w !! id = Some h ∧ children w !! process h = Some c ∧
         stdin_error c = None.

(** What a stop leaves of a child: its logs, signals and exit code, and
    the input written before. *)
Definition carried (c c' : ChildProcess) : Prop :=
  signals c' = signals c ∧ exitCode c' = exitCode c ∧ logs c' = logs c ∧
  stdin_error c' = stdin_error c ∧ ∀ x, x ∈ stdin c → x ∈ stdin c'.

(** The rest of the document of [s1]. *)
Definition survival_details : Details := mkDetails "1.20" "paper" 25565 false 900.

(** A store holding the whole document of [s1]. *)
Definition site (w : World) : Site := mkSite w (<["s1" := survival_details]> ∅).

(** A monitor that answers, and one that throws. *)
Definition sampler_fixed (_ : string) : string + Z := inr 42.

Definition sampler_down (_ : string) : string + unit := inl "monitor unavailable".

(** Requests for a new server: one whose jar is not on the disk, and one
    whose jar is. *)
Definition sample_data : ServerData :=
  mkServerData (Some "creative") (Some "1.20") (Some "paper") (Some 25566)
               (Some (mkMemory None (Some "2G"))) None None None None None true.

Definition survival_data : ServerData :=
  mkServerData (Some "survival") (Some "1.20") (Some "paper") (Some 25570)
               (Some (mkMemory (Some "2G") None)) None None None None None true.

(** One backup, of [s1]. *)
Definition one_backup : gmap string Backup :=
  <["b1" := mkBackup "s1" "/srv/backups/b1.zip"]> ∅.

End Scenarios.

(** * Properties *)

(** ** Facts about the JavaScript primitives *)

Module JSFacts.
Import JS.

Lemma startsWith_spec needle hay :
  startsWith needle hay = true ↔ ∃ rest, hay = needle +:+ rest.
Proof.
  revert hay. induction needle as [|a n IH]; intros hay; simpl.
  - split; eauto.
  - destruct hay as [|b h].
    + split; [discriminate | intros [? ?]; discriminate].
    + case_decide as Hab.
      * subst b. rewrite IH. split; intros [r Hr].
        -- exists r. by rewrite Hr.
        -- exists r. by injection Hr.
      * split; [discriminate |]. intros [r Hr]. injection Hr as -> _. done.
Qed.

Lemma includes_spec needle hay :
  includes needle hay = true ↔ ∃ before after, hay = before +:+ needle +:+ after.
Proof.
  induction hay as [|c r IH]; simpl.
  - destruct (startsWith needle EmptyString) eqn:Hs.
    + split; [intros _ | done].
      apply startsWith_spec in Hs as [rest Hrest]. by exists EmptyString, rest.
    + split; [discriminate |]. intros (before & after & Heq).
      destruct before; [| discriminate]. simpl in Heq.
      assert (startsWith needle EmptyString = true) as Hs'
        by (apply startsWith_spec; eauto).
      congruence.
  - destruct (startsWith needle (String c r)) eqn:Hs.
    + split; [intros _ | done].
      apply startsWith_spec in Hs as [rest Hrest]. by exists EmptyString, rest.
    + rewrite IH. split.
      * intros (before & after & ->). by exists (String c before), after.
      * intros (before & after & Heq). destruct before as [|c' before'].
        -- simpl in Heq.
           assert (startsWith needle (String c r) = true) as Hs'
             by (apply startsWith_spec; eauto).
           congruence.
        -- injection Heq as -> ->. eauto.
Qed.

(** With a positive limit, [slice(-Math.min(limit, length))] keeps the
    [limit] last elements. *)
Lemma slice_last {A} (limit : Z) (l : list A) :
  0 < limit →
  slice_from (- Z.min limit (Z.of_nat (length l))) l
  = LogQuery.last_n (Z.to_nat limit) l.
Proof.
  intros Hpos. unfold slice_from, LogQuery.last_n.
  destruct (Z.ltb_spec (- Z.min limit (Z.of_nat (length l))) 0) as [Hneg | Hzero].
  - f_equal. lia.
  - assert (length l = 0%nat) as Hlen by lia.
    destruct l; [by rewrite !drop_nil | discriminate].
Qed.

Lemma last_n_length {A} (n : nat) (l : list A) :
  length (LogQuery.last_n n l) = Nat.min n (length l).
Proof. unfold LogQuery.last_n. rewrite length_drop. lia. Qed.

Lemma last_n_suffix {A} (n : nat) (l : list A) :
  ∃ older, l = older ++ LogQuery.last_n n l.
Proof.
  exists (take (length l - n) l). unfold LogQuery.last_n.
  by rewrite take_drop.
Qed.

(** Up to 2^53 a number that is an integer prints with all its digits. *)
Lemma Number_toString_safe (n : Z) :
  0 ≤ n ≤ 2 ^ 53 → Number_toString n = pretty n.
Proof.
  intros Hn. unfold Number_toString.
  destruct (Z.ltb_spec n 0) as [? | _]; [lia |]. unfold positive_text.
  assert (to_number n = n) as ->.
  { unfold to_number. destruct (Z.leb_spec (Z.log2 n) 52) as [_ | Hlog]; [done |].
    assert (n = 2 ^ 53) as ->; [| by vm_compute].
    destruct (decide (n = 2 ^ 53)) as [? | Hne]; [done |].
    assert (Z.log2 n < 53); [| lia].
    destruct (decide (n = 0)) as [-> | ?]; [by vm_compute |].
    apply Z.log2_lt_pow2; lia. }
  by destruct (Z.leb_spec n (2 ^ 53)); [| lia].
Qed.


End JSFacts.

(** ** The log array *)

Module LogBufferFacts.
Import LogBuffer.

(** The stdout and stderr handlers keep the array within [MAX_LOGS]. *)
Lemma push_bounded_length cfg logs e :
  0 < MAX_LOGS cfg →
  Z.of_nat (length logs) ≤ MAX_LOGS cfg →
  Z.of_nat (length (push_bounded cfg logs e)) ≤ MAX_LOGS cfg.
Proof.
  intros Hpos Hlen. unfold push_bounded, JS.push, JS.shift.
  destruct (Z.ltb_spec (MAX_LOGS cfg) (Z.of_nat (length (logs ++ [e])))) as [Hgt | Hle].
  - rewrite length_drop, length_app. simpl. lia.
  - done.
Qed.

(** X1.  After any number of stdout and stderr entries, the array holds
    the last [MAX_LOGS] of them in arrival order. *)
Lemma push_bounded_last_n cfg es :
  0 < MAX_LOGS cfg →
  foldl (push_bounded cfg) [] es = LogQuery.last_n (Z.to_nat (MAX_LOGS cfg)) es.
Proof.
  intros Hpos. induction es as [|e es IH] using rev_ind; [done |].
  rewrite foldl_app. simpl. rewrite IH.
  unfold push_bounded, JS.push, JS.shift, LogQuery.last_n.
  set (N := Z.to_nat (MAX_LOGS cfg)).
  assert (MAX_LOGS cfg = Z.of_nat N) as -> by lia.
  assert (1 ≤ N)%nat by lia.
  rewrite !length_app, length_drop. simpl.
  destruct (decide (length es < N)%nat) as [Hshort | Hfull].
  - replace (length es - N)%nat with 0%nat by lia.
    replace (length es + 1 - N)%nat with 0%nat by lia.
    simpl. destruct (Z.ltb_spec (Z.of_nat N) (Z.of_nat (length es - 0 + 1))); [lia | done].
  - destruct (Z.ltb_spec (Z.of_nat N) (Z.of_nat (length es - (length es - N) + 1)));
      [| lia].
    rewrite <- (drop_app_le es [e]) by lia.
    rewrite drop_drop. f_equal. lia.
Qed.

Lemma push_bounded_last_n_witness :
  foldl (push_bounded Examples.capacity3) []
        [mkLog 1 "A" stdout; mkLog 2 "B" stderr; mkLog 3 "C" stdout; mkLog 4 "D" stdout]
  = [mkLog 2 "B" stderr; mkLog 3 "C" stdout; mkLog 4 "D" stdout].
Proof.
  rewrite push_bounded_last_n; [reflexivity | by vm_compute].
Defined.

(** The close handler always lengthens the array. *)
Lemma push_exit_length logs now code :
  length (push_exit logs now code) = S (length logs).
Proof. unfold push_exit, JS.push. rewrite length_app. simpl. lia. Qed.

(** [sendCommand] never evicts when [maxLogLines] is not configured. *)
Lemma push_command_unbounded stop logs e :
  push_command (mkConfig None stop) logs e = logs ++ [e].
Proof. done. Qed.

End LogBufferFacts.

(** ** The reader of the persisted log file *)

Module LogFileFacts.
Import LogFile.

Lemma append_cons c s r : String c s +:+ r = String c (s +:+ r).
Proof. done. Qed.

Lemma append_nil r : EmptyString +:+ r = r.
Proof. done. Qed.

Lemma span_spec p s a b :
  span p s = (a, b) → s = a +:+ b ∧ all_chars p a.
Proof.
  revert a b. induction s as [|c r IH]; intros a b; simpl.
  - intros [= <- <-]. done.
  - destruct (p c) eqn:Hc.
    + destruct (span p r) as [a' b'] eqn:Hr. intros [= <- <-].
      destruct (IH a' b' eq_refl) as [-> Hall]. done.
    + intros [= <- <-]. done.
Qed.

Lemma span_stop p a c r :
  all_chars p a → p c = false → span p (a +:+ String c r) = (a, String c r).
Proof.
  intros Hall Hc. induction a as [|d a IH]; simpl.
  - by rewrite Hc.
  - destruct Hall as [Hd Hall]. rewrite Hd, (IH Hall). done.
Qed.

Lemma span_head p c r :
  p c = true → ∃ a b, span p (String c r) = (String c a, b).
Proof.
  intros Hc. simpl. rewrite Hc. destruct (span p r) as [a b]. eauto.
Qed.

Lemma expect_Some c s r : expect c s = Some r → s = String c r.
Proof.
  destruct s as [|d s]; simpl; [discriminate |].
  case_decide; [| discriminate]. by intros [= <-]; subst.
Qed.

Lemma expect_head c r : expect c (String c r) = Some r.
Proof. simpl. by rewrite decide_True. Qed.

Lemma digit_Some s d r : digit s = Some (d, r) → s = String d r ∧ is_digit d = true.
Proof.
  destruct s as [|c s]; simpl; [discriminate |].
  destruct (is_digit c) eqn:Hc; [| discriminate]. by intros [= <- <-].
Qed.

Lemma digit_head d r : is_digit d = true → digit (String d r) = Some (d, r).
Proof. intros H. simpl. by rewrite H. Qed.

Lemma time_of_day_Some s0 t r :
  time_of_day s0 = Some (t, r) → s0 = t +:+ r ∧ ∃ h m s, Time h m s t.
Proof.
  unfold time_of_day. intros H.
  repeat match type of H with
  | mbind _ (digit ?x) = _ =>
      let E := fresh "E" in
      destruct (digit x) as [[? ?]|] eqn:E; simpl in H; [| discriminate];
      apply digit_Some in E as [-> ?]
  | mbind _ (expect ?c ?x) = _ =>
      let E := fresh "E" in
      destruct (expect c x) as [?|] eqn:E; simpl in H; [| discriminate];
      apply expect_Some in E as ->
  end.
  injection H as <- <-. split; [done |].
  eexists _, _, _. by constructor.
Qed.

Lemma time_of_day_head h m s t r :
  Time h m s t → time_of_day (t +:+ r) = Some (t, r).
Proof.
  intros Ht. destruct Ht as [h1 h2 m1 m2 s1 s2 H1 H2 H3 H4 H5 H6].
  unfold time_of_day, digit, expect. simpl.
  rewrite H1. simpl. rewrite H2. simpl. rewrite H3. simpl. rewrite H4. simpl.
  rewrite H5. simpl. rewrite H6. simpl. done.
Qed.

Lemma match_here_sound s0 t level text :
  match_here s0 = Some (t, level, text) →
  ∃ h m s, Time h m s t ∧ Shape h m s level s0.
Proof.
  unfold match_here. intros H.
  destruct (expect "[" s0) as [r1|] eqn:E1; simpl in H; [| discriminate].
  apply expect_Some in E1 as ->.
  destruct (time_of_day r1) as [[t' r2]|] eqn:E2; simpl in H; [| discriminate].
  apply time_of_day_Some in E2 as [-> (h & m & s & Ht)].
  destruct (expect "]" r2) as [r3|] eqn:E3; simpl in H; [| discriminate].
  apply expect_Some in E3 as ->.
  destruct (expect " " r3) as [r4|] eqn:E4; simpl in H; [| discriminate].
  apply expect_Some in E4 as ->.
  destruct (expect "[" r4) as [r5|] eqn:E5; simpl in H; [| discriminate].
  apply expect_Some in E5 as ->.
  destruct (span not_rbracket r5) as [lvl r6] eqn:E6.
  apply span_spec in E6 as [-> Hall].
  case_decide as Hlvl; [discriminate |].
  destruct (expect "]" r6) as [r7|] eqn:E7; simpl in H; [| discriminate].
  apply expect_Some in E7 as ->.
  destruct (expect ":" r7) as [r8|] eqn:E8; simpl in H; [| discriminate].
  apply expect_Some in E8 as ->.
  destruct (expect " " r8) as [r9|] eqn:E9; simpl in H; [| discriminate].
  apply expect_Some in E9 as ->.
  destruct (span is_dot r9) as [txt r10] eqn:E10.
  case_decide as Htxt; [discriminate |].
  injection H as <- <- <-.
  destruct r9 as [|c r9]; simpl in E10; [by injection E10 as <- |].
  destruct (is_dot c) eqn:Hc; [| by injection E10 as <-].
  exists h, m, s. split; [done |].
  by apply (Shape_intro h m s t' lvl c r9).
Qed.

Lemma match_here_complete h m s level s0 :
  Shape h m s level s0 →
  ∃ t text, match_here s0 = Some (t, level, text) ∧ Time h m s t.
Proof.
  intros Hs. destruct Hs as [h m s t level c rest Ht Hne Hall Hc].
  destruct (span_head is_dot c rest Hc) as (a & b & Hspan).
  exists t, (String c a). split; [| done].
  unfold match_here. rewrite !append_cons, !append_nil.
  rewrite expect_head. cbn [mbind option_bind].
  rewrite (time_of_day_head h m s) by done. cbn [mbind option_bind].
  repeat (rewrite expect_head; cbn [mbind option_bind]).
  rewrite (span_stop not_rbracket level "]") by done.
  rewrite decide_False by done.
  repeat (rewrite expect_head; cbn [mbind option_bind]).
  rewrite Hspan. by rewrite decide_False.
Qed.

Lemma digit_not_colon c : is_digit c = true → c ≠ ":"%char.
Proof. intros H ->. discriminate. Qed.

Lemma split_skip sep c r :
  c ≠ sep →
  JS.split sep (String c r)
  = match JS.split sep r with
    | [] => [String c EmptyString]
    | w :: ws => String c w :: ws
    end.
Proof. intros H. simpl. by rewrite decide_False. Qed.

Lemma split_here sep r :
  JS.split sep (String sep r) = EmptyString :: JS.split sep r.
Proof. simpl. by rewrite decide_True. Qed.

(** The capture of the time splits into its three numbers. *)
Lemma time_fields h m s t :
  Time h m s t → JS.Number <$> JS.split ":" t = [h; m; s].
Proof.
  intros Ht. destruct Ht as [h1 h2 m1 m2 s1 s2 H1 H2 H3 H4 H5 H6].
  repeat first
    [ rewrite split_here
    | rewrite split_skip by (by apply digit_not_colon) ].
  simpl. unfold JS.Number, two_digits. simpl. repeat f_equal; lia.
Qed.

Lemma regex_match_unfold s :
  regex_match s
  = match match_here s with
    | Some m => Some m
    | None => match s with
              | EmptyString => None
              | String _ r => regex_match r
              end
    end.
Proof. by destruct s. Qed.

(** The search returns the captures of the leftmost occurrence. *)
Lemma regex_leftmost h m s level before line :
  Leftmost h m s level before line →
  ∃ t text, regex_match line = Some (t, level, text) ∧ Time h m s t.
Proof.
  intros (s0 & -> & Hshape & Hfirst).
  induction before as [|c b IH].
  - rewrite append_nil, regex_match_unfold.
    destruct (match_here_complete _ _ _ _ _ Hshape) as (t & text & -> & Ht). eauto.
  - rewrite append_cons, regex_match_unfold.
    destruct (match_here (String c (b +:+ s0))) as [[[t lvl] txt]|] eqn:E.
    + exfalso. apply match_here_sound in E as (h' & m' & s' & _ & Hs).
      apply (Hfirst EmptyString (String c b)); [done | done |].
      by exists h', m', s', lvl.
    + apply IH. intros b1 b2 -> Hne. by apply (Hfirst (String c b1) b2).
Qed.

Lemma regex_unmatched line : Unmatched line → regex_match line = None.
Proof.
  induction line as [|c r IH]; intros Hun; rewrite regex_match_unfold.
  - done.
  - destruct (match_here (String c r)) as [[[t lvl] txt]|] eqn:E.
    + exfalso. apply match_here_sound in E as (h & m & s & _ & Hs).
      apply (Hun EmptyString (String c r)); [done |]. by exists h, m, s, lvl.
    + apply IH. intros before s0 -> Hs. by apply (Hun (String c before) s0).
Qed.

(** Every line falls under one of the two cases. *)
Lemma regex_match_Some line t level text :
  regex_match line = Some (t, level, text) →
  ∃ h m s before, Leftmost h m s level before line ∧ Time h m s t.
Proof.
  induction line as [|c r IH]; rewrite regex_match_unfold.
  - done.
  - destruct (match_here (String c r)) as [[[t' lvl] txt]|] eqn:E.
    + intros [= -> -> ->].
      apply match_here_sound in E as (h & m & s & Ht & Hs).
      exists h, m, s, EmptyString. split; [| done].
      exists (String c r). split; [done |]. split; [done |].
      intros b1 b2 Hb Hne. destruct b1; rewrite ?append_nil, ?append_cons in Hb; [by subst | discriminate].
    + intros Hr. destruct (IH Hr) as (h & m & s & before & Hl & Ht).
      destruct Hl as (s0 & -> & Hshape & Hfirst).
      exists h, m, s, (String c before). split; [| done].
      exists s0. split; [done |]. split; [done |].
      intros b1 b2 Hb Hne (h' & m' & s' & lvl' & Hs').
      destruct b1 as [|c1 b1]; rewrite ?append_nil, ?append_cons in Hb.
      * subst b2. rewrite append_cons in Hs'.
        apply match_here_complete in Hs' as (? & ? & Hm & _). congruence.
      * injection Hb as -> ->. apply (Hfirst b1 b2); [done | done |].
        by exists h', m', s', lvl'.
Qed.

Lemma regex_match_None line : regex_match line = None → Unmatched line.
Proof.
  induction line as [|c r IH]; rewrite regex_match_unfold.
  - intros _ before s0 Heq (h & m & s & lvl & Hs).
    destruct before; [| discriminate]. rewrite ?append_nil, ?append_cons in Heq. subst s0.
    apply match_here_complete in Hs as (? & ? & Hm & _). discriminate.
  - destruct (match_here (String c r)) as [[[t' lvl] txt]|] eqn:E; [done |].
    intros Hr before s0 Heq (h & m & s & lvl & Hs).
    destruct before as [|c' before]; rewrite ?append_nil, ?append_cons in Heq.
    + subst s0. apply match_here_complete in Hs as (? & ? & Hm & _). congruence.
    + injection Heq as -> ->. apply (IH Hr before s0); [done |].
      by exists h, m, s, lvl.
Qed.

Lemma shape_dichotomy line :
  Unmatched line ∨ ∃ h m s level before, Leftmost h m s level before line.
Proof.
  destruct (regex_match line) as [[[t lvl] txt]|] eqn:E.
  - right. apply regex_match_Some in E as (h & m & s & before & Hl & _).
    by exists h, m, s, lvl, before.
  - left. by apply regex_match_None.
Qed.

Lemma parse_line_matched localTime now h m s level before line :
  Leftmost h m s level before line →
  parse_line localTime now line
  = mkLog (localTime now h m s) line
          (if JS.includes "ERROR" level then stderr else stdout).
Proof.
  intros Hl. unfold parse_line.
  destruct (regex_leftmost _ _ _ _ _ _ Hl) as (t & text & -> & Ht).
  by rewrite (time_fields h m s t Ht).
Qed.

Lemma parse_line_unmatched localTime now line :
  Unmatched line → parse_line localTime now line = mkLog now line stdout.
Proof. intros Hun. unfold parse_line. by rewrite regex_unmatched. Qed.

(** The entries of a file are those of its kept lines, in order. *)
Lemma parse_content_lookup localTime clock content i line :
  filter kept (JS.split "010" content) !! i = Some line →
  parse_content localTime clock content !! i
  = Some (parse_line localTime (clock i) line).
Proof.
  intros Hline. unfold parse_content. by rewrite list_lookup_imap, Hline.
Qed.

Lemma example_line_leftmost :
  Leftmost 12 34 56 "Server thread/ERROR" EmptyString
           "[12:34:56] [Server thread/ERROR]: Oops".
Proof.
  exists "[12:34:56] [Server thread/ERROR]: Oops". split; [done |]. split.
  - apply (Shape_intro 12 34 56 "12:34:56" "Server thread/ERROR" "O" "ops").
    + by apply (Time_intro "1" "2" "3" "4" "5" "6").
    + done.
    + simpl. repeat split.
    + done.
  - intros b1 b2 Hb Hne. destruct b1; rewrite ?append_nil, ?append_cons in Hb; [by subst | discriminate].
Qed.

(** C5 (as amended).  For every line of the persisted log file that the
    reader keeps, that is every line that is not blank after trimming
    white space: if the pattern (bracketed HH:MM:SS time, bracketed level,
    colon, space, text) occurs in the line, the leftmost occurrence gives
    an entry whose message is the whole line, whose timestamp is the
    parsed time of day on the current calendar day and whose tag is stderr
    exactly when the level contains ERROR, stdout otherwise; if the pattern
    occurs nowhere, the entry has tag stdout, the whole line as message and
    the current time as timestamp.  The line
    [[12:34:56] [Server thread/ERROR]: Oops] gives tag stderr, the whole
    line as message and the time of day 12:34:56. *)
Theorem log_line_entry localTime now :
  (∀ line, kept line →
     (∀ h m s level before, Leftmost h m s level before line →
        ∃ tag,
          read_line localTime now line
            = Some (mkLog (localTime now h m s) line tag) ∧
          ((∃ a b, level = a +:+ "ERROR" +:+ b) → tag = stderr) ∧
          (¬ (∃ a b, level = a +:+ "ERROR" +:+ b) → tag = stdout)) ∧
     (Unmatched line →
        read_line localTime now line = Some (mkLog now line stdout))) ∧
  read_line localTime now "[12:34:56] [Server thread/ERROR]: Oops"
    = Some (mkLog (localTime now 12 34 56)
                  "[12:34:56] [Server thread/ERROR]: Oops" stderr).
Proof.
  split.
  - intros line Hkept. unfold read_line. rewrite decide_True by done. split.
    + intros h m s level before Hl.
      exists (if JS.includes "ERROR" level then stderr else stdout).
      split; [by rewrite (parse_line_matched _ _ h m s level before) |].
      destruct (JS.includes "ERROR" level) eqn:Hinc.
      * split; [done |]. intros Hno. exfalso. apply Hno.
        by apply JSFacts.includes_spec.
      * split; [| done]. intros Hyes.
        apply JSFacts.includes_spec in Hyes. congruence.
    + intros Hun. by rewrite parse_line_unmatched.
  - unfold read_line. rewrite decide_True by (by vm_compute).
    by rewrite (parse_line_matched _ _ _ _ _ _ _ _ example_line_leftmost).
Qed.

Lemma log_line_entry_witness :
  kept "Loading libraries" ∧
  read_line utc_time 7 "Loading libraries"
    = Some (mkLog 7 "Loading libraries" stdout).
Proof.
  split; [by vm_compute |].
  apply (proj1 (log_line_entry utc_time 7) "Loading libraries"); [by vm_compute |].
  apply regex_match_None. by vm_compute.
Defined.

(** A line of one space is not empty, and the reader gives it no entry. *)
Lemma blank_line_has_no_entry :
  " " ≠ EmptyString ∧ ¬ ∃ e, read_line utc_time 0 " " = Some e.
Proof. split; [done |]. intros [e He]. vm_compute in He. discriminate. Qed.

End LogFileFacts.

(** ** The filters of the log queries *)

Module LogQueryFacts.
Import LogQuery.

Section Selection.
Context {A : Type}.
Implicit Types (P Q : A → Prop) (l kept : list A).

Lemma Selected_filter P `{!∀ x, Decision (P x)} l : Selected P l (filter P l).
Proof.
  induction l as [|x l IH]; [constructor |].
  rewrite filter_cons. case_decide; by constructor.
Qed.

Lemma Selected_all P l : (∀ x, P x) → Selected P l l.
Proof. intros HP. induction l; constructor; auto. Qed.

Lemma Selected_iff P Q l kept :
  (∀ x, P x ↔ Q x) → Selected P l kept → Selected Q l kept.
Proof.
  intros HPQ. induction 1; constructor; try done; by rewrite <- HPQ.
Qed.

Lemma Selected_compose P Q l kept kept' :
  Selected P l kept → Selected Q kept kept' →
  Selected (λ x, P x ∧ Q x) l kept'.
Proof.
  intros HP. revert kept'. induction HP as [|x l kept Hx HP IH|x l kept Hx HP IH];
    intros kept' HQ.
  - inversion HQ. constructor.
  - inversion HQ; subst.
    + apply Selected_keep; auto.
    + apply Selected_skip; [tauto | auto].
  - apply Selected_skip; [tauto | auto].
Qed.

(** The selection is a function of the list. *)
Lemma Selected_unique P l kept kept' :
  Selected P l kept → Selected P l kept' → kept = kept'.
Proof.
  intros H. revert kept'. induction H; intros kept' H'; inversion H'; subst;
    try done; f_equal; auto.
Qed.
End Selection.

Lemma limit_slice {A} (limit : option Z) (l : list A) :
  (∀ n, limit = Some n → 0 ≤ n) →
  JS.slice_from (- Z.min (JS.or_default limit 100) (Z.of_nat (length l))) l
  = last_n (effective_limit limit) l.
Proof.
  intros Hnat. destruct limit as [[|p|p]|]; simpl.
  - by rewrite JSFacts.slice_last.
  - by rewrite JSFacts.slice_last.
  - specialize (Hnat _ eq_refl). lia.
  - by rewrite JSFacts.slice_last.
Qed.

Lemma apply_filters_spec options logs :
  (∀ n, opt_limit options = Some n → 0 ≤ n) →
  ∃ kept,
    Selected (wanted (opt_type options) (opt_search options)) logs kept ∧
    apply_filters options logs = last_n (effective_limit (opt_limit options)) kept.
Proof.
  intros Hlimit. unfold apply_filters.
  set (logs1 := match JS.truthy (opt_type options) with
                | Some t => filter (has_type t) logs
                | None => logs
                end).
  set (logs2 := match JS.truthy (opt_search options) with
                | Some search => filter (mentions (JS.toLowerCase search)) logs1
                | None => logs1
                end).
  exists logs2. split; [| by apply limit_slice].
  apply (Selected_compose _ _ logs logs1 logs2).
  - subst logs1. destruct (opt_type options) as [[|c t]|]; simpl.
    + apply Selected_all. intros x t [= <-]. done.
    + eapply Selected_iff; [| apply Selected_filter].
      intros x. unfold has_type. split.
      * intros Hx t' [= <-] _. done.
      * intros Hx. by apply Hx.
    + apply Selected_all. intros x t. done.
  - subst logs2. destruct (opt_search options) as [[|c s]|]; simpl JS.truthy.
    + apply Selected_all. intros x s [= <-]. done.
    + eapply Selected_iff; [| apply Selected_filter].
      intros x. unfold mentions. rewrite JSFacts.includes_spec. split.
      * intros Hx s' [= <-] _. done.
      * intros Hx. by apply Hx.
    + apply Selected_all. intros x s. done.
Qed.

End LogQueryFacts.

(** ** The registry *)

Module RegistryFacts.
Import Registry Examples.

(** *** Queries on a live handle *)

(** C6 (as amended).  For an identifier with a live handle, and a limit
    that is absent, zero or a positive integer, getLogs returns the
    entries of the in-memory log array that have the wanted source tag
    (when one is given) and mention the search text in any letter case
    (when one is given), in arrival order, cut down to the most recent
    ones: as many as the limit, where an absent or zero limit counts as
    100.  On an array holding one stdout and one stderr entry, the options
    type stderr and limit 1 return exactly the stderr entry. *)
Theorem getServerLogs_live localTime clock w id options h c :
  runningServers w !! id = Some h →
  children w !! process h = Some c →
  (∀ n, opt_limit options = Some n → 0 ≤ n) →
  (∃ kept,
     LogQuery.Selected (LogQuery.wanted (opt_type options) (opt_search options))
                       (logs c) kept ∧
     getServerLogs localTime clock w id options
       = inr (LogQuery.last_n (LogQuery.effective_limit (opt_limit options)) kept)) ∧
  (∀ out err,
     type out = stdout → type err = stderr →
     logs c = [out; err] ∨ logs c = [err; out] →
     getServerLogs localTime clock w id (mkOptions (Some "stderr") None (Some 1))
       = inr [err]).
Proof.
  intros Hh Hc Hlimit. unfold getServerLogs. rewrite Hh, Hc. split.
  - destruct (LogQueryFacts.apply_filters_spec options (logs c) Hlimit)
      as (kept & Hsel & ->). eauto.
  - intros out err Hout Herr Hlogs. f_equal.
    assert (¬ LogQuery.has_type "stderr" out) as Hno
      by (unfold LogQuery.has_type; by rewrite Hout).
    assert (LogQuery.has_type "stderr" err) as Hyes
      by (unfold LogQuery.has_type; by rewrite Herr).
    unfold LogQuery.apply_filters. simpl.
    destruct Hlogs as [-> | ->]; rewrite !filter_cons, filter_nil;
      rewrite (decide_True _ _ Hyes), (decide_False _ _ Hno); done.
Qed.

Lemma getServerLogs_live_witness :
  ∃ c kept,
    children chatty !! 0%nat = Some c ∧
    LogQuery.Selected (LogQuery.wanted (Some "stderr") None) (logs c) kept ∧
    getServerLogs LogFile.utc_time (λ _, 0) chatty "s1"
                  (mkOptions (Some "stderr") None (Some 1))
      = inr (LogQuery.last_n 1 kept).
Proof.
  assert (∃ c, children chatty !! 0%nat = Some c) as [c Hc]
    by (vm_compute; eauto).
  assert (runningServers chatty !! "s1" = Some (mkHandle 0 1000)) as Hh
    by (by vm_compute).
  assert (∀ n, opt_limit (mkOptions (Some "stderr") None (Some 1)) = Some n → 0 ≤ n)
    as Hlimit by (intros n [= <-]; lia).
  destruct (proj1 (getServerLogs_live LogFile.utc_time (λ _, 0) chatty "s1"
                     _ _ c Hh Hc Hlimit)) as (kept & Hsel & Hres).
  by exists c, kept.
Defined.

(** With [limit: 0] the query returns entries all the same. *)
Lemma limit_zero_returns_entries :
  ∃ result,
    getServerLogs LogFile.utc_time (λ _, 0) chatty "s1" (mkOptions None None (Some 0))
      = inr result ∧
    ¬ (Z.of_nat (length result) ≤ 0).
Proof. eexists. split; [by vm_compute |]. simpl. lia. Qed.

(** *** updateServerProperties *)

(** C10.  While a handle for the server is in the map of running
    servers, updateServerProperties fails with an error and changes
    neither the stored document, and so its properties, nor any file on
    disk, the server.properties file included. *)
Theorem updateServerProperties_running own_entries isoNow w id newProperties :
  is_Some (runningServers w !! id) →
  (∃ msg, (updateServerProperties own_entries isoNow w id newProperties).2 = inl msg) ∧
  db (updateServerProperties own_entries isoNow w id newProperties).1 = db w ∧
  fs (updateServerProperties own_entries isoNow w id newProperties).1 = fs w.
Proof.
  intros [h Hh]. unfold updateServerProperties.
  destruct (db w !! id); [rewrite Hh |]; simpl; eauto.
Qed.

Lemma updateServerProperties_running_witness :
  (∃ msg, (updateServerProperties internal_fields "2024-05-01T10:00:00.000Z"
             (running defaults) "s1" [("motd", "changed")]).2 = inl msg) ∧
  db (updateServerProperties internal_fields "2024-05-01T10:00:00.000Z"
        (running defaults) "s1" [("motd", "changed")]).1 = db (running defaults) ∧
  fs (updateServerProperties internal_fields "2024-05-01T10:00:00.000Z"
        (running defaults) "s1" [("motd", "changed")]).1 = fs (running defaults).
Proof.
  apply (updateServerProperties_running _ _ (running defaults) "s1").
  exists (mkHandle 0 1000). by vm_compute.
Defined.

(** *** startServer *)

Lemma start_steps_returned n w r :
  start_steps n w (start_returned r) = (w, start_returned r).
Proof. induction n; simpl; auto. Qed.

Lemma existsSync_false w p : existsSync w p = false ↔ fs w !! p = None.
Proof.
  unfold existsSync. rewrite bool_decide_eq_false, <- eq_None_not_Some. done.
Qed.

Lemma existsSync_true w p : existsSync w p = true ↔ is_Some (fs w !! p).
Proof. unfold existsSync. by rewrite bool_decide_eq_true. Qed.

(** A sequential call always returns. *)
Lemma startServer_returns w id io :
  ∃ r, (startServer w id io).2 = start_returned r.
Proof.
  unfold startServer. simpl.
  destruct (runningServers w !! id); simpl; [eauto |].
  destruct (db w !! id) as [server|]; simpl; [| eauto].
  destruct (existsSync w (path server)).
  - unfold launch. destruct (existsSync w _); simpl; [| eauto].
    destruct (spawn_throws (faults w)); simpl; [eauto |].
    destruct (save_rejects (faults w)); simpl; eauto.
  - simpl. destruct (ensureDir_rejects (faults w)); simpl; [eauto |].
    unfold launch. destruct (existsSync _ _); simpl; [| eauto].
    destruct (spawn_throws (faults w)); simpl; [eauto |].
    destruct (save_rejects (faults w)); simpl; eauto.
Qed.

(** The last segment touches neither the disk, the map nor the children. *)
Lemma save_step_frame w id io pid w' t :
  start_step w (start_after_save id io pid) = (w', t) →
  fs w' = fs w ∧ runningServers w' = runningServers w ∧ children w' = children w ∧
  ((∃ msg, t = start_returned (StartFailed (SaveRejected msg))) ∨
   t = start_returned (Started id)).
Proof.
  simpl. destruct (save_rejects (faults w)).
  - intros [= <- <-]. eauto 10.
  - destruct (children w !! pid); destruct io; simpl; intros [= <- <-]; eauto 10.
Qed.

Lemma launch_failure n w id io server w1 t1 w' f :
  launch w id io server = (w1, t1) →
  start_steps (S n) w1 t1 = (w', start_returned (StartFailed f)) →
  artifact_or_spawn f →
  runningServers w' = runningServers w ∧ children w' = children w.
Proof.
  unfold launch. intros Hl Hs Hf.
  destruct (existsSync w _).
  - destruct (spawn_throws (faults w)).
    + injection Hl as <- <-. rewrite start_steps_returned in Hs.
      by injection Hs as <- _.
    + injection Hl as <- <-. simpl in Hs.
      destruct (save_rejects (faults w)); rewrite start_steps_returned in Hs.
      * injection Hs as _ <-. destruct Hf as [[? ?] | [? ?]]; discriminate.
      * discriminate.
  - injection Hl as <- <-. rewrite start_steps_returned in Hs.
    by injection Hs as <- _.
Qed.

(** The two failures of the launch that the call does report, a missing
    jar and a [spawn] that throws, leave the map of running servers as it
    was: no handle for the identifier, and no child process added. *)
Lemma start_failure_leaves_registry w id io w' f :
  startServer w id io = (w', start_returned (StartFailed f)) →
  artifact_or_spawn f →
  runningServers w' = runningServers w ∧
  children w' = children w ∧
  runningServers w' !! id = None.
Proof.
  unfold startServer. intros Hs Hf. simpl in Hs.
  assert (¬ artifact_or_spawn AlreadyRunning) as Hno1
    by (intros [[? ?] | [? ?]]; discriminate).
  assert (¬ artifact_or_spawn ServerNotFound) as Hno2
    by (intros [[? ?] | [? ?]]; discriminate).
  destruct (runningServers w !! id) eqn:Hrun.
  { simpl in Hs. injection Hs as _ <-. by destruct Hno1. }
  cut (runningServers w' = runningServers w ∧ children w' = children w).
  { intros [Hr Hc]. rewrite Hr. done. }
  revert Hs. simpl. destruct (db w !! id) as [server|].
  2: { simpl. intros [= _ <-]. by destruct Hno2. }
  destruct (existsSync w (path server)).
  - destruct (launch w id io server) as [w1 t1] eqn:Hl. intros Hs.
    by apply (launch_failure 1 w id io server w1 t1 w' f).
  - simpl. destruct (ensureDir_rejects (faults w)).
    + simpl. intros [= _ <-].
      destruct Hf as [[? ?] | [? ?]]; discriminate.
    + destruct (launch _ id io server) as [w1 t1] eqn:Hl. intros Hs.
      by apply (launch_failure 0 _ id io server w1 t1 w' f) in Hl.
Qed.

Lemma start_failure_leaves_registry_witness :
  runningServers (startServer spawn_refused "s1" true).1
    = runningServers spawn_refused ∧
  children (startServer spawn_refused "s1" true).1 = children spawn_refused ∧
  runningServers (startServer spawn_refused "s1" true).1 !! "s1" = None.
Proof.
  apply (start_failure_leaves_registry spawn_refused "s1" true _
           (SpawnThrew "spawn ENOMEM")).
  - by vm_compute.
  - right. by exists "spawn ENOMEM".
Defined.

Lemma string_length_append (a b : string) :
  String.length (a +:+ b) = (String.length a + String.length b)%nat.
Proof.
  induction a as [|c a IH]; [done |].
  change (String c a +:+ b) with (String c (a +:+ b)). simpl. by rewrite IH.
Qed.

Lemma path_join_ne dir file : path_join dir file ≠ dir.
Proof.
  unfold path_join. intros H. apply (f_equal String.length) in H.
  rewrite !string_length_append in H. simpl in H. lia.
Qed.

(** C8 (as amended).  When the working directory of a configured
    identifier does not exist, start creates it instead of failing with
    NotFound, and goes on to the jar check: with the launch jar absent it
    fails with the jar-not-found error and spawns nothing. *)
Theorem start_creates_missing_directory w id io server :
  runningServers w !! id = None →
  db w !! id = Some server →
  existsSync w (path server) = false →
  ensureDir_rejects (faults w) = None →
  fs (startServer w id io).1 !! path server = Some Dir ∧
  (startServer w id io).2 ≠ start_returned (StartFailed ServerNotFound) ∧
  (existsSync w (path_join (path server) (jarFile server)) = false →
   (startServer w id io).2
     = start_returned
         (StartFailed (JarNotFound (path_join (path server) (jarFile server)))) ∧
   children (startServer w id io).1 = children w ∧
   runningServers (startServer w id io).1 = runningServers w).
Proof.
  intros Hrun Hdb Hdir Hens. unfold startServer. simpl.
  rewrite Hrun. simpl. rewrite Hdb, Hdir. simpl. rewrite Hens.
  apply existsSync_false in Hdir.
  set (w1 := set_fs _ w).
  assert (fs w1 = <[path server := Dir]> (fs w)) as Hfs
    by (subst w1; simpl; by rewrite Hdir).
  assert (fs w1 !! path server = Some Dir) as Hnew
    by (rewrite Hfs; apply lookup_insert_eq).
  assert (existsSync w1 (path_join (path server) (jarFile server))
          = existsSync w (path_join (path server) (jarFile server))) as Hsame.
  { unfold existsSync. rewrite Hfs.
    by rewrite lookup_insert_ne by (apply not_eq_sym, path_join_ne). }
  unfold launch. rewrite Hsame.
  destruct (existsSync w (path_join (path server) (jarFile server))).
  - destruct (spawn_throws (faults w1)); [done |].
    cbv beta iota zeta.
    destruct (start_step _ (start_after_save id io (length (children w1))))
      as [w2 t2] eqn:Hstep.
    apply save_step_frame in Hstep as (Hfs2 & _ & _ & Ht2). simpl.
    split; [by rewrite Hfs2 |]. split; [| done].
    destruct Ht2 as [[msg ->] | ->]; discriminate.
  - simpl. done.
Qed.

Lemma start_creates_missing_directory_witness :
  fs (startServer no_directory "s1" true).1 !! "/srv/mc/survival" = Some Dir ∧
  (startServer no_directory "s1" true).2
    = start_returned
        (StartFailed (JarNotFound "/srv/mc/survival/paper-1.20.jar")).
Proof.
  assert (runningServers no_directory !! "s1" = None) as H1 by (by vm_compute).
  assert (db no_directory !! "s1" = Some survival) as H2 by (by vm_compute).
  assert (existsSync no_directory (path survival) = false) as H3 by (by vm_compute).
  assert (ensureDir_rejects (faults no_directory) = None) as H4 by (by vm_compute).
  destruct (start_creates_missing_directory no_directory "s1" true survival
              H1 H2 H3 H4) as (Hdir & _ & Hjar).
  split; [exact Hdir |]. apply Hjar. by vm_compute.
Defined.

(** The directory of [s1] is missing, and start does not answer with
    the not-found error. *)
Lemma missing_directory_is_not_NotFound :
  db no_directory !! "s1" = Some survival ∧
  existsSync no_directory (path survival) = false ∧
  (startServer no_directory "s1" true).2
    ≠ start_returned (StartFailed ServerNotFound).
Proof. by vm_compute. Qed.

(** *** Concurrent calls of startServer *)

Lemma entry_step w id io :
  runningServers w !! id = None →
  start_step w (start_entry id io) = (w, start_after_findById id io).
Proof. intros H. simpl. by rewrite H. Qed.

Lemma entry_step_running w id io h :
  runningServers w !! id = Some h →
  start_step w (start_entry id io) = (w, start_returned (StartFailed AlreadyRunning)).
Proof. intros H. simpl. by rewrite H. Qed.

Lemma find_step w id io server :
  db w !! id = Some server →
  existsSync w (path server) = true →
  existsSync w (path_join (path server) (jarFile server)) = true →
  spawn_throws (faults w) = None →
  start_step w (start_after_findById id io)
  = (register_child w id io server, start_after_save id io (length (children w))).
Proof.
  intros Hdb Hdir Hjar Hspawn. simpl. rewrite Hdb, Hdir. unfold launch.
  by rewrite Hjar, Hspawn.
Qed.

Lemma save_step w id io pid c :
  save_rejects (faults w) = None →
  children w !! pid = Some c →
  start_step w (start_after_save id io pid)
  = (emit io (mkEmit ("server:" +:+ id) "serverStatus" (StatusPayload "running"))
          (set_db (insert id (server c)) w),
     start_returned (Started id)).
Proof. intros Hsave Hc. simpl. by rewrite Hsave, Hc. Qed.

Lemma emit_frame given e w :
  runningServers (emit given e w) = runningServers w ∧
  children (emit given e w) = children w ∧
  db (emit given e w) = db w ∧
  fs (emit given e w) = fs w ∧
  timers (emit given e w) = timers w ∧
  faults (emit given e w) = faults w ∧
  now (emit given e w) = now w ∧
  config (emit given e w) = config w ∧
  settled (emit given e w) = settled w.
Proof. by destruct given. Qed.

Ltac returned :=
  cbv beta iota zeta; rewrite ?start_steps_returned; done.

Lemma launch_success n w id io server :
  (let '(w1, t1) := launch w id io server in start_steps (S n) w1 t1).2
    = start_returned (Started id) →
  is_Some (runningServers
             (let '(w1, t1) := launch w id io server in start_steps (S n) w1 t1).1
           !! id).
Proof.
  unfold launch. destruct (existsSync w _); [| returned].
  destruct (spawn_throws (faults w)); [returned |].
  cbn [start_steps].
  destruct (start_step _ (start_after_save id io (length (children w))))
    as [w2 t2] eqn:Hstep.
  apply save_step_frame in Hstep as (_ & Hr & _ & Ht).
  destruct Ht as [[msg ->] | ->]; rewrite start_steps_returned; [done |].
  intros _. simpl. rewrite Hr. simpl. rewrite lookup_insert_eq. eauto.
Qed.

Lemma start_success_registers w id io :
  (startServer w id io).2 = start_returned (Started id) →
  is_Some (runningServers (startServer w id io).1 !! id).
Proof.
  unfold startServer. cbn [start_steps]. simpl start_step.
  destruct (runningServers w !! id); [returned |].
  cbv beta iota zeta. cbn [start_steps]. simpl start_step.
  destruct (db w !! id) as [server|]; [| returned].
  destruct (existsSync w (path server)).
  - apply (launch_success 1).
  - cbv beta iota zeta. cbn [start_steps]. simpl start_step.
    destruct (ensureDir_rejects (faults w)); [returned |].
    apply (launch_success 0).
Qed.

(** X3.  A second call of start for an identifier, made after the
    first has returned success, is refused with 'Server is already running'
    and changes nothing. *)
Lemma sequential_starts w id io io' :
  (startServer w id io).2 = start_returned (Started id) →
  startServer (startServer w id io).1 id io'
  = ((startServer w id io).1, start_returned (StartFailed AlreadyRunning)).
Proof.
  intros Hok. apply start_success_registers in Hok as [h Hh].
  set (w1 := (startServer w id io).1) in *.
  unfold startServer. cbn [start_steps].
  rewrite (entry_step_running _ _ _ h Hh). returned.
Qed.

Lemma sequential_starts_witness :
  startServer (startServer (idle defaults) "s1" true).1 "s1" false
  = ((startServer (idle defaults) "s1" true).1,
     start_returned (StartFailed AlreadyRunning)).
Proof. apply sequential_starts. by vm_compute. Defined.

(** C7.  When the system cannot create the process (no java on the
    machine, no permission, no resources), [spawn] throws nothing: it
    returns a child that will emit 'error'.  The call of start takes no
    notice, as it listens to no 'error' event: when it awaits the save the
    handle of that child is in the map already, and the call goes on to
    report success.  So the failure of the spawn is not reported, and
    after the call a handle for the identifier is in the map of running
    servers, for a process that does not exist. *)
Theorem unreported_spawn_failure_registers_handle w id io server e :
  runningServers w !! id = None →
  db w !! id = Some server →
  existsSync w (path server) = true →
  existsSync w (path_join (path server) (jarFile server)) = true →
  spawn_throws (faults w) = None →
  spawn_reports (faults w) = Some e →
  save_rejects (faults w) = None →
  start_steps 2 w (start_entry id io)
    = (register_child w id io server, start_after_save id io (length (children w))) ∧
  runningServers (register_child w id io server) !! id
    = Some (mkHandle (length (children w)) (now w)) ∧
  (startServer w id io).2 = start_returned (Started id) ∧
  start_result (Started id) = Success "Server started successfully" ∧
  runningServers (startServer w id io).1 !! id
    = Some (mkHandle (length (children w)) (now w)) ∧
  (spawn_error <$> children (startServer w id io).1 !! length (children w))
    = Some (Some e) ∧
  runningServers (startServer w id io).1 ≠ runningServers w.
Proof.
  intros Hrun Hdb Hdir Hjar Hspawn Hreports Hsave.
  assert (runningServers (startServer w id io).1 !! id
          = Some (mkHandle (length (children w)) (now w)) ∧
          (startServer w id io).2 = start_returned (Started id) ∧
          (spawn_error <$> children (startServer w id io).1 !! length (children w))
          = Some (Some e)) as (Hmap & Hres & Hchild).
  { unfold startServer. cbn [start_steps].
    rewrite entry_step by done. cbn [start_steps].
    rewrite (find_step w id io server) by done. cbn [start_steps].
    rewrite (save_step _ id io _ (new_child w id io server)); [| done |].
    2: { simpl. by rewrite lookup_app_r, Nat.sub_diag by lia. }
    destruct io; simpl; rewrite lookup_insert_eq;
      rewrite lookup_app_r, Nat.sub_diag by lia; simpl; by rewrite Hreports. }
  split.
  { cbn [start_steps]. rewrite entry_step by done.
    by rewrite (find_step w id io server) by done. }
  split; [simpl; apply lookup_insert_eq |].
  split; [done |]. split; [done |]. split; [done |]. split; [done |].
  intros Heq. rewrite Heq, Hrun in Hmap. discriminate.
Qed.

Lemma unreported_spawn_failure_registers_handle_witness :
  (startServer java_missing "s1" true).2 = start_returned (Started "s1") ∧
  runningServers (startServer java_missing "s1" true).1 !! "s1"
    = Some (mkHandle 0 1000) ∧
  (spawn_error <$> children (startServer java_missing "s1" true).1 !! 0%nat)
    = Some (Some "spawn java ENOENT").
Proof.
  destruct (unreported_spawn_failure_registers_handle java_missing "s1" true survival
              "spawn java ENOENT"
              ltac:(by vm_compute) ltac:(by vm_compute) ltac:(by vm_compute)
              ltac:(by vm_compute) ltac:(by vm_compute) ltac:(by vm_compute)
              ltac:(by vm_compute)) as (_ & _ & H1 & _ & H3 & H4 & _).
  split; [exact H1 |]. split; [exact H3 | exact H4].
Defined.

Lemma interleave_cons i schedule w tasks :
  interleave (i :: schedule) w tasks
  = match tasks !! i with
    | Some t =>
        let '(w, t) := start_step w t in
        interleave schedule w (<[i := t]> tasks)
    | None => interleave schedule w tasks
    end.
Proof. done. Qed.

(** C1.  Two calls of start for the same identifier whose segments
    alternate, as they do when the second call is made while the first
    awaits the record store: both pass the check of the map, both spawn a
    process and both report success.  No call is refused, two live
    processes exist for the identifier, and the map keeps only the handle
    of the second. *)
Theorem concurrent_starts_both_spawn w id io server :
  runningServers w !! id = None →
  db w !! id = Some server →
  existsSync w (path server) = true →
  existsSync w (path_join (path server) (jarFile server)) = true →
  spawn_throws (faults w) = None →
  save_rejects (faults w) = None →
  ∃ w' c1 c2,
    interleave [0; 1; 0; 1; 0; 1]%nat w [start_entry id io; start_entry id io]
      = (w', [start_returned (Started id); start_returned (Started id)]) ∧
    children w' = children w ++ [c1; c2] ∧
    serverId c1 = id ∧ serverId c2 = id ∧
    exitCode c1 = None ∧ exitCode c2 = None ∧
    runningServers w' !! id = Some (mkHandle (S (length (children w))) (now w)).
Proof.
  intros Hrun Hdb Hdir Hjar Hspawn Hsave.
  set (w1 := register_child w id io server).
  set (w2 := register_child w1 id io server).
  set (running := mkEmit ("server:" +:+ id) "serverStatus" (StatusPayload "running")).
  set (c1 := new_child w id io server).
  set (c2 := new_child w1 id io server).
  assert (children w2 = children w ++ [c1; c2]) as Hch
    by (subst w2 w1; simpl; by rewrite <- app_assoc).
  assert (children w2 !! length (children w) = Some c1) as Hc1.
  { rewrite Hch. by rewrite lookup_app_r, Nat.sub_diag by lia. }
  set (w3 := emit io running (set_db (insert id (Registry.server c1)) w2)).
  assert (children w3 = children w2) as Hch3
    by (subst w3; by rewrite (proj1 (proj2 (emit_frame _ _ _)))).
  assert (children w3 !! length (children w1) = Some c2) as Hc2.
  { rewrite Hch3, Hch. subst w1. simpl. rewrite length_app. simpl.
    rewrite lookup_app_r by lia.
    by replace (length (children w) + 1 - length (children w))%nat with 1%nat by lia. }
  set (w4 := emit io running (set_db (insert id (Registry.server c2)) w3)).
  exists w4, c1, c2.
  split.
  - rewrite interleave_cons. cbn [lookup list_lookup].
    rewrite (entry_step w) by done. cbn [insert list_insert].
    rewrite interleave_cons. cbn [lookup list_lookup].
    rewrite (entry_step w) by done. cbn [insert list_insert].
    rewrite interleave_cons. cbn [lookup list_lookup].
    rewrite (find_step w id io server) by done. cbn [insert list_insert].
    change (register_child w id io server) with w1.
    rewrite interleave_cons. cbn [lookup list_lookup].
    rewrite (find_step w1 id io server) by done. cbn [insert list_insert].
    change (register_child w1 id io server) with w2.
    rewrite interleave_cons. cbn [lookup list_lookup].
    rewrite (save_step w2 id io _ c1) by done. cbn [insert list_insert].
    change (emit io running (set_db (insert id (Registry.server c1)) w2)) with w3.
    rewrite interleave_cons. cbn [lookup list_lookup].
    rewrite (save_step w3 id io _ c2); [done | | done].
    subst w3. by rewrite (proj1 (proj2 (proj2 (proj2 (proj2 (proj2 (emit_frame _ _ _))))))).
  - split.
    { subst w4. rewrite (proj1 (proj2 (emit_frame _ _ _))). simpl.
      by rewrite Hch3. }
    repeat split; try done.
    subst w4. rewrite (proj1 (emit_frame _ _ _)). simpl.
    subst w3. rewrite (proj1 (emit_frame _ _ _)). simpl.
    rewrite lookup_insert_eq. f_equal. f_equal. rewrite length_app. simpl. lia.
Qed.

Lemma concurrent_starts_both_spawn_witness :
  ∃ w' c1 c2,
    interleave [0; 1; 0; 1; 0; 1]%nat (idle defaults)
               [start_entry "s1" true; start_entry "s1" true]
      = (w', [start_returned (Started "s1"); start_returned (Started "s1")]) ∧
    children w' = children (idle defaults) ++ [c1; c2] ∧
    serverId c1 = "s1" ∧ serverId c2 = "s1" ∧
    exitCode c1 = None ∧ exitCode c2 = None ∧
    runningServers w' !! "s1"
      = Some (mkHandle (S (length (children (idle defaults)))) (now (idle defaults))).
Proof.
  apply (concurrent_starts_both_spawn (idle defaults) "s1" true survival);
    by vm_compute.
Defined.

(** *** Children *)

Lemma lookup_update_child pid f w c :
  children w !! pid = Some c →
  children (update_child pid f w) !! pid = Some (f c).
Proof. intros H. simpl. by rewrite list_lookup_alter_eq, H. Qed.


Lemma stdin_write_ok pid chunk w c :
  children w !! pid = Some c → stdin_error c = None →
  stdin_write pid chunk w
  = inl (update_child pid (with_stdin (λ l, l ++ [chunk])) w).
Proof. intros Hc He. unfold stdin_write. by rewrite Hc, He. Qed.

Lemma stdin_write_throws pid chunk w c e :
  children w !! pid = Some c → stdin_error c = Some e →
  stdin_write pid chunk w = inr e.
Proof. intros Hc He. unfold stdin_write. by rewrite Hc, He. Qed.

(** *** sendCommand *)

(** C9 (as amended).  sendCommand reports that the server is not running
    when no handle for the identifier is in the map, and only then.  With
    a handle in the map it makes no liveness check, whether or not the
    process has exited: the command entry is appended to the log array,
    the command is written to the stdin of the child and success is
    reported; an error is reported only when the write itself throws, and
    then with the message of that error. *)
Theorem sendCommand_reports w id cmd :
  (runningServers w !! id = None →
   sendCommand w id cmd = (w, Error "Server is not running")) ∧
  (∀ h c,
     runningServers w !! id = Some h →
     children w !! process h = Some c →
     (stdin_error c = None →
      (sendCommand w id cmd).2 = Success ("Command sent: " +:+ cmd) ∧
      (stdin <$> children (sendCommand w id cmd).1 !! process h)
        = Some (stdin c ++ [cmd +:+ LF])) ∧
     (∀ e, stdin_error c = Some e → (sendCommand w id cmd).2 = Error e) ∧
     buffer (sendCommand w id cmd).1 id
       = Some (LogBuffer.push_command (config w) (logs c)
                 (LogBuffer.command_entry (now w) cmd))).
Proof.
  split.
  - intros Hrun. unfold sendCommand. by rewrite Hrun.
  - intros h c Hrun Hc. unfold sendCommand. rewrite Hrun.
    set (f := with_logs _).
    pose proof (lookup_update_child (process h) f w c Hc) as Hc'.
    destruct (stdin_error c) as [e|] eqn:He.
    + rewrite (stdin_write_throws _ _ _ (f c) e) by done.
      split; [done |]. split; [by intros ? [= <-] |].
      unfold buffer. simpl runningServers. rewrite Hrun. simpl.
      simpl in Hc'. by rewrite Hc'.
    + rewrite (stdin_write_ok _ _ _ (f c)) by done.
      split.
      { intros _. split; [done |]. simpl.
        rewrite list_lookup_alter_eq. simpl in Hc'. by rewrite Hc'. }
      split; [done |].
      unfold buffer. simpl runningServers. rewrite Hrun. simpl.
      rewrite list_lookup_alter_eq. simpl in Hc'. by rewrite Hc'.
Qed.

Lemma sendCommand_reports_witness :
  (sendCommand exited_unsaved "s1" "say hi").2 = Success "Command sent: say hi" ∧
  (stdin <$> children (sendCommand exited_unsaved "s1" "say hi").1 !! 0%nat)
    = Some ["say hi" +:+ LF].
Proof.
  assert (∃ c, children exited_unsaved !! 0%nat = Some c ∧
               stdin_error c = None ∧ stdin c = []) as (c & Hc & He & Hin)
    by (vm_compute; eauto).
  assert (runningServers exited_unsaved !! "s1" = Some (mkHandle 0 1000)) as Hh
    by (by vm_compute).
  destruct (proj1 (proj2 (sendCommand_reports exited_unsaved "s1" "say hi")
                     (mkHandle 0 1000) c Hh Hc) He) as [H1 H2].
  split; [exact H1 |]. rewrite Hin in H2. exact H2.
Defined.

(** The process of [s1] has exited, yet the command is accepted: the
    answer is success, not that the server is not running. *)
Lemma command_after_exit_is_not_NotRunning :
  (∃ h c code,
     runningServers exited_unsaved !! "s1" = Some h ∧
     children exited_unsaved !! process h = Some c ∧
     exitCode c = Some code) ∧
  (sendCommand exited_unsaved "s1" "say hi").2 = Success "Command sent: say hi" ∧
  (sendCommand exited_unsaved "s1" "say hi").2 ≠ Error "Server is not running".
Proof.
  split; [| by vm_compute].
  eexists (mkHandle 0 1000), _, _. by vm_compute.
Qed.

(** *** The log array of a handle *)

(** C2.  With capacity 3, three stream entries A, B, C fill the array;
    the exit entry of the close handler is pushed without eviction and
    the array then holds four entries. *)
Theorem exit_entry_exceeds_capacity :
  LogBuffer.MAX_LOGS capacity3 = 3 ∧
  buffer (run (running capacity3)
            [StdoutData 0 "A"; StdoutData 0 "B"; StderrData 0 "C"; Close 0 (Some 0)])
         "s1"
  = Some [mkLog 1000 "A" stdout; mkLog 1000 "B" stdout; mkLog 1000 "C" stderr;
          mkLog 1000 "Server process exited with code 0" system].
Proof. by vm_compute. Qed.

(** The stream handlers do evict: A, B, C, D leave B, C, D. *)
Example stream_entries_evict_oldest :
  buffer (run (running capacity3)
            [StdoutData 0 "A"; StdoutData 0 "B"; StderrData 0 "C"; StdoutData 0 "D"])
         "s1"
  = Some [mkLog 1000 "B" stdout; mkLog 1000 "C" stderr; mkLog 1000 "D" stdout].
Proof. by vm_compute. Qed.

(** Without [maxLogLines] in the configuration, commands are never
    evicted: the array grows past the default capacity of 1000. *)
Example commands_are_not_evicted logs e :
  LogBuffer.MAX_LOGS defaults = 1000 ∧
  length (LogBuffer.push_command defaults logs e) = S (length logs).
Proof.
  split; [done |]. unfold defaults.
  rewrite LogBufferFacts.push_command_unbounded, length_app. simpl. lia.
Qed.

(** *** The stop protocol *)


Lemma same_but_logs_fields c c' :
  same_but_logs c c' →
  signals c = signals c' ∧ exitCode c = exitCode c' ∧
  once_close c = once_close c' ∧ serverId c = serverId c' ∧ io c = io c'.
Proof.
  unfold same_but_logs. intros H.
  pose proof (f_equal signals H). pose proof (f_equal exitCode H).
  pose proof (f_equal once_close H). pose proof (f_equal serverId H).
  pose proof (f_equal io H). done.
Qed.

Lemma elapsed_cons e evs : elapsed (e :: evs) = duration e + elapsed evs.
Proof. by destruct e. Qed.






Lemma run_cons w e evs : run w (e :: evs) = run (step w e) evs.
Proof. done. Qed.




Lemma notify_spec listeners w :
  children (notify w listeners) = children w ∧
  runningServers (notify w listeners) = runningServers w ∧
  faults (notify w listeners) = faults w ∧
  now (notify w listeners) = now w ∧
  db (notify w listeners) = db w ∧
  (∀ k, k ∈ listeners ∨ timers w !! k = None → timers (notify w listeners) !! k = None) ∧
  (∀ k, k ∈ listeners →
        (k, Success "Server stopped gracefully") ∈ settled (notify w listeners)) ∧
  (∀ x, x ∈ settled w → x ∈ settled (notify w listeners)).
Proof.
  revert w. induction listeners as [|k l IH]; intros w.
  - simpl. repeat split; try done.
    + intros k [Hk | Hk]; [by apply elem_of_nil in Hk | done].
    + intros k Hk. by apply elem_of_nil in Hk.
  - change (notify w (k :: l))
      with (notify (resolve k (Success "Server stopped gracefully") (clearTimeout k w)) l).
    destruct (IH (resolve k (Success "Server stopped gracefully") (clearTimeout k w)))
      as (Hc & Hr & Hf & Hn & Hd & Ht & Hs & Hkeep).
    repeat split; try done.
    + intros k' Hk'. apply Ht.
      destruct (decide (k' = k)) as [-> | Hne].
      * right. simpl. apply lookup_delete_eq.
      * destruct Hk' as [Hk' | Hk'].
        -- apply elem_of_cons in Hk' as [? | ?]; [done | by left].
        -- right. simpl. by rewrite lookup_delete_ne.
    + intros k' Hk'. apply elem_of_cons in Hk' as [-> | Hk']; [| by apply Hs].
      apply Hkeep. simpl. apply elem_of_app. right. by apply list_elem_of_singleton.
    + intros x Hx. apply Hkeep. simpl. apply elem_of_app. by left.
Qed.

(** The close event for a child that has not exited. *)
Lemma on_close_spec pid code w c :
  children w !! pid = Some c → exitCode c = None →
  let c' := with_exit code
              (with_server (with_lastStopped (now w))
                 (with_logs (λ l, JS.push l (LogBuffer.exit_entry (now w) code)) c)) in
  children (on_close pid code w) !! pid = Some c' ∧
  runningServers (on_close pid code w) = runningServers w ∧
  faults (on_close pid code w) = faults w ∧
  (∀ k, k ∈ once_close c ∨ timers w !! k = None →
        timers (on_close pid code w) !! k = None) ∧
  (∀ k, k ∈ once_close c →
        (k, Success "Server stopped gracefully") ∈ settled (on_close pid code w)).
Proof.
  intros Hc Hexit c'. unfold on_close. rewrite Hc, Hexit.
  match goal with |- context [notify ?W (once_close c)] => set (w1 := W) end.
  destruct (notify_spec (once_close c) w1) as (Ec & Er & Ef & _ & _ & Et & Es & _).
  assert (children w1 = children (update_child pid (λ c, with_exit code
              (with_server (with_lastStopped (now w))
                 (with_logs (λ l, JS.push l (LogBuffer.exit_entry (now w) code)) c))) w)
          ∧ runningServers w1 = runningServers w ∧ faults w1 = faults w
          ∧ timers w1 = timers w) as (Hc1 & Hr1 & Hf1 & Ht1).
  { subst w1. by destruct (io c). }
  rewrite Ec, Er, Ef, Hc1, Hr1, Hf1.
  split; [exact (lookup_update_child pid _ w c Hc) |].
  split; [done |]. split; [done |]. split; [| done].
  intros k Hk. apply Et. by rewrite Ht1.
Qed.

Lemma on_close_saved_spec pid w c :
  children w !! pid = Some c → closing c = true →
  save_rejects (faults w) = None →
  runningServers (on_close_saved pid w) !! serverId c = None ∧
  settled (on_close_saved pid w) = settled w ∧
  logs <$> children (on_close_saved pid w) !! pid = Some (logs c).
Proof.
  intros Hc Hcl Hsave. unfold on_close_saved. rewrite Hc, Hcl.
  simpl faults. rewrite Hsave. simpl.
  rewrite lookup_delete_eq, list_lookup_alter_eq, Hc. done.
Qed.

(** A pending stop: the command is written, the timer is set and the
    listener is registered. *)
Lemma stop_pending_spec w id h c :
  runningServers w !! id = Some h →
  children w !! process h = Some c →
  stdin_error c = None →
  let tid := next_timer w in
  let c1 := with_once_close (λ l, l ++ [tid])
              (with_stdin (λ l, l ++ ["stop" +:+ LF]) c) in
  ∃ w1,
    stopServer w id false = (w1, stop_pending tid) ∧
    Waiting w1 tid (process h) c1 w1 ∧
    timers w1 !! tid
      = Some (mkTimer (now w + stop_delay (config w)) id) ∧
    now w1 = now w ∧ runningServers w1 = runningServers w ∧ faults w1 = faults w.
Proof.
  intros Hrun Hc Herr tid c1. unfold stopServer. rewrite Hrun.
  rewrite (stdin_write_ok _ _ _ c) by done.
  eexists. split; [done |].
  assert (children
            (update_child (process h) (with_once_close (λ l, l ++ [tid]))
               (setTimeout (JS.or_default (stopTimeout (config w)) 30000) id
                  (update_child (process h) (with_stdin (λ l, l ++ ["stop" +:+ LF])) w)))
          !! process h = Some c1) as Hc1.
  { simpl. by rewrite !list_lookup_alter_eq, Hc. }
  split; [| split; [simpl; apply lookup_insert_eq | done]].
  split; try done. by exists c1.
Qed.

(** *** Forced stop *)

(** C4 (as amended).  A forced stop of a running process sends the kill
    signal at once and returns success immediately, without waiting for
    the exit: at the return the child has the signal and nothing else has
    changed for it, no exit is known and its handle is still in the map.
    The handle is removed later, by the exit notification: it is still
    there when 'close' has been emitted and is gone once the close
    handler has saved the document. *)
Theorem force_stop_returns_at_once w id h c code :
  runningServers w !! id = Some h →
  children w !! process h = Some c →
  exitCode c = None →
  serverId c = id →
  save_rejects (faults w) = None →
  let killed := (stopServer w id true).1 in
  (stopServer w id true).2 = stop_returned (Success "Server forcefully stopped") ∧
  children killed !! process h = Some (with_signals (λ l, l ++ ["SIGKILL"]) c) ∧
  (exitCode <$> children killed !! process h) = Some None ∧
  runningServers killed = runningServers w ∧
  runningServers (run killed [Close (process h) code]) !! id = Some h ∧
  runningServers (run killed [Close (process h) code; CloseSaved (process h)]) !! id
    = None.
Proof.
  intros Hrun Hc Hexit Hid Hsave killed.
  assert (stopServer w id true
          = (kill (process h) "SIGKILL" w,
             stop_returned (Success "Server forcefully stopped"))) as Hstop
    by (unfold stopServer; by rewrite Hrun).
  subst killed. rewrite Hstop. cbn [fst snd].
  set (w1 := kill (process h) "SIGKILL" w).
  assert (children w1 !! process h = Some (with_signals (λ l, l ++ ["SIGKILL"]) c))
    as Hc1.
  { subst w1. simpl. rewrite list_lookup_alter_eq, Hc. simpl. by rewrite Hexit. }
  destruct (on_close_spec (process h) code w1 _ Hc1) as (Hc2 & Hr2 & Hf2 & _);
    [done |].
  destruct (on_close_saved_spec (process h) (on_close (process h) code w1) _ Hc2)
    as (Hr3 & _); [done | by rewrite Hf2 |].
  split; [done |]. split; [done |].
  split; [by rewrite Hc1; simpl; rewrite Hexit |]. split; [done |]. simpl run.
  split; [by rewrite Hr2 |].
  simpl in Hr3. by rewrite Hid in Hr3.
Qed.

Lemma force_stop_returns_at_once_witness :
  (stopServer (running defaults) "s1" true).2
    = stop_returned (Success "Server forcefully stopped") ∧
  runningServers (run (stopServer (running defaults) "s1" true).1 [Close 0 None])
    !! "s1" = Some (mkHandle 0 1000) ∧
  runningServers (run (stopServer (running defaults) "s1" true).1
                    [Close 0 None; CloseSaved 0]) !! "s1" = None.
Proof.
  assert (∃ c, children (running defaults) !! 0%nat = Some c ∧ exitCode c = None ∧
               serverId c = "s1") as (c & Hc & He & Hid) by (vm_compute; eauto).
  assert (runningServers (running defaults) !! "s1" = Some (mkHandle 0 1000)) as Hh
    by (by vm_compute).
  destruct (force_stop_returns_at_once (running defaults) "s1" (mkHandle 0 1000) c None
              Hh Hc He Hid ltac:(by vm_compute)) as (H1 & _ & _ & _ & H4 & H5).
  split; [exact H1 |]. split; [exact H4 | exact H5].
Defined.

(** The forced stop of [s1] has returned success; its process has not
    exited and its handle is still registered. *)
Lemma force_stop_returns_before_exit :
  (stopServer (running defaults) "s1" true).2
    = stop_returned (Success "Server forcefully stopped") ∧
  exitCode <$> children (stopServer (running defaults) "s1" true).1 !! 0%nat
    = Some None ∧
  is_Some (runningServers (stopServer (running defaults) "s1" true).1 !! "s1").
Proof. split; [by vm_compute |]. split; [by vm_compute |]. vm_compute. eauto. Qed.




End RegistryFacts.

(** ** The rest of the service *)

Module LifecycleFacts.
Import Registry Examples Scenarios.

Lemma on_data_config ty pid data w : config (on_data ty pid data w) = config w.
Proof.
  unfold on_data. destruct (children w !! pid) as [c|]; [| done].
  destruct (LogBuffer.stream_entry ty (now w) data); [| done].
  by destruct (io c).
Qed.

Lemma on_data_capacity ty pid data w :
  0 < LogBuffer.MAX_LOGS (config w) →
  Forall (within_capacity (config w)) (children w) →
  Forall (within_capacity (config w)) (children (on_data ty pid data w)).
Proof.
  intros Hpos Hall. unfold on_data.
  destruct (children w !! pid) as [c|]; [| done].
  destruct (LogBuffer.stream_entry ty (now w) data) as [e|]; [| done].
  rewrite (proj1 (proj2 (RegistryFacts.emit_frame _ _ _))). simpl.
  apply Forall_alter; [done |]. intros c' _ Hc'.
  unfold within_capacity in *. destruct c'. simpl in *.
  by apply LogBufferFacts.push_bounded_length.
Qed.

(** X2.  With a positive capacity, if the log array of every child
    holds at most [MAX_LOGS] entries, it still does after any sequence of
    stdout chunks, stderr chunks and passing time: the two stream handlers
    never let an array grow beyond the capacity. *)
Theorem stream_events_keep_capacity w evs :
  0 < LogBuffer.MAX_LOGS (config w) →
  Forall quiet evs →
  Forall (within_capacity (config w)) (children w) →
  Forall (within_capacity (config w)) (children (run w evs)).
Proof.
  intros Hpos Hevs. revert w Hpos.
  induction Hevs as [|e evs He Hevs IH]; intros w Hpos Hall; [done |].
  rewrite RegistryFacts.run_cons.
  assert (config (step w e) = config w ∧
          Forall (within_capacity (config w)) (children (step w e))) as [Hcfg Hstep].
  { destruct e; try done; simpl.
    - split; [apply on_data_config | by apply on_data_capacity].
    - split; [apply on_data_config | by apply on_data_capacity]. }
  rewrite <- Hcfg. apply IH; rewrite Hcfg; done.
Qed.

Lemma stream_events_keep_capacity_witness :
  Forall (within_capacity (config (running capacity3)))
         (children (run (running capacity3)
                      [StdoutData 0 "A"; StdoutData 0 "B"; Tick 5; StderrData 0 "C";
                       StdoutData 0 "D"; StdoutData 0 "E"])).
Proof.
  apply stream_events_keep_capacity.
  - by vm_compute.
  - repeat constructor.
  - repeat constructor. by vm_compute.
Defined.

(** What a start that goes through does to the world. *)
Lemma start_effect w id io server :
  runningServers w !! id = None →
  db w !! id = Some server →
  existsSync w (path server) = true →
  existsSync w (path_join (path server) (jarFile server)) = true →
  spawn_throws (faults w) = None →
  save_rejects (faults w) = None →
  (startServer w id io).2 = start_returned (Started id) ∧
  runningServers (startServer w id io).1
    = <[id := mkHandle (length (children w)) (now w)]> (runningServers w) ∧
  children (startServer w id io).1
    = children w ++
      [mkChild id io (with_lastStarted (now w) server)
               (jvmFlags server ++
                ["-Xms" +:+ memory_min server; "-Xmx" +:+ memory_max server;
                 "-jar"; jarFile server; "nogui"])
               (path server) [] [] None [] None false [] (spawn_reports (faults w))] ∧
  db (startServer w id io).1 = <[id := with_lastStarted (now w) server]> (db w) ∧
  fs (startServer w id io).1 = fs w ∧
  emitted (startServer w id io).1
    = emitted w ++
      (if io then [mkEmit ("server:" +:+ id) "serverStatus" (StatusPayload "running")]
       else []).
Proof.
  intros Hrun Hdb Hdir Hjar Hspawn Hsave. unfold startServer. cbn [start_steps].
  rewrite RegistryFacts.entry_step by done. cbn [start_steps].
  rewrite (RegistryFacts.find_step w id io server) by done. cbn [start_steps].
  rewrite (RegistryFacts.save_step _ id io _ (new_child w id io server)); [| done |].
  2: { simpl. by rewrite lookup_app_r, Nat.sub_diag by lia. }
  destruct io; simpl; rewrite ?app_nil_r; done.
Qed.

(** X4.  A start of a stored and installed server that is not running,
    with spawn and save going through, returns success.  It adds one child
    process, with the arguments jvmFlags, -Xms<min>, -Xmx<max>, -jar, <jar>,
    nogui and the directory of the server as working directory; it
    registers the handle of that child under the identifier, with the
    current time as start time; it stores the document with [lastStarted]
    set; it leaves the disk as it was; and it emits serverStatus 'running'
    to the room server:<id> exactly when a socket server was given. *)
Theorem start_success w id io server :
  runningServers w !! id = None →
  db w !! id = Some server →
  existsSync w (path server) = true →
  existsSync w (path_join (path server) (jarFile server)) = true →
  spawn_throws (faults w) = None →
  save_rejects (faults w) = None →
  (startServer w id io).2 = start_returned (Started id) ∧
  runningServers (startServer w id io).1
    = <[id := mkHandle (length (children w)) (now w)]> (runningServers w) ∧
  children (startServer w id io).1
    = children w ++
      [mkChild id io (with_lastStarted (now w) server)
               (jvmFlags server ++
                ["-Xms" +:+ memory_min server; "-Xmx" +:+ memory_max server;
                 "-jar"; jarFile server; "nogui"])
               (path server) [] [] None [] None false [] (spawn_reports (faults w))] ∧
  db (startServer w id io).1 = <[id := with_lastStarted (now w) server]> (db w) ∧
  fs (startServer w id io).1 = fs w ∧
  emitted (startServer w id io).1
    = emitted w ++
      (if io then [mkEmit ("server:" +:+ id) "serverStatus" (StatusPayload "running")]
       else []).
Proof.
  intros Hrun Hdb Hdir Hjar Hspawn Hsave.
  destruct (start_effect w id io server Hrun Hdb Hdir Hjar Hspawn Hsave)
    as (Hres & Hmap & Hkids & Hstore & Hdisk & Hsent).
  repeat split; assumption.
Qed.

Lemma start_success_witness :
  (startServer (idle defaults) "s1" false).2 = start_returned (Started "s1") ∧
  runningServers (startServer (idle defaults) "s1" false).1 !! "s1"
    = Some (mkHandle 0 1000).
Proof.
  destruct (start_success (idle defaults) "s1" false survival
              ltac:(by vm_compute) ltac:(by vm_compute) ltac:(by vm_compute)
              ltac:(by vm_compute) ltac:(by vm_compute) ltac:(by vm_compute))
    as (Hres & Hmap & _).
  split; [exact Hres |]. rewrite Hmap. apply lookup_insert_eq.
Defined.

Lemma launch_frame w id io server w1 t1 :
  launch w id io server = (w1, t1) →
  (w1 = w ∧ ∃ f, t1 = start_returned (StartFailed f) ∧ ∀ msg, f ≠ SaveRejected msg) ∨
  (w1 = register_child w id io server ∧
   t1 = start_after_save id io (length (children w)) ∧
   spawn_throws (faults w) = None ∧
   existsSync w (path_join (path server) (jarFile server)) = true).
Proof.
  unfold launch. destruct (existsSync w _) eqn:Hjar.
  - destruct (spawn_throws (faults w)) eqn:Hspawn; intros [= <- <-].
    + left. split; [done |]. eexists. split; [done |]. done.
    + by right.
  - intros [= <- <-]. left. split; [done |]. eexists. split; [done |]. done.
Qed.

Lemma launch_failure_frame n w id io server w1 t1 w' f :
  launch w id io server = (w1, t1) →
  start_steps (S n) w1 t1 = (w', start_returned (StartFailed f)) →
  (∀ msg, f ≠ SaveRejected msg) →
  runningServers w' = runningServers w ∧ children w' = children w ∧ db w' = db w ∧
  fs w' = fs w.
Proof.
  intros Hl Hs Hf.
  apply launch_frame in Hl as [(-> & f' & -> & _) | (-> & -> & _ & _)].
  - rewrite RegistryFacts.start_steps_returned in Hs. by injection Hs as <- _.
  - cbn [start_steps] in Hs. simpl start_step in Hs.
    destruct (save_rejects (faults w)) as [msg|].
    + rewrite RegistryFacts.start_steps_returned in Hs. injection Hs as _ <-.
      by destruct (Hf msg).
    + rewrite RegistryFacts.start_steps_returned in Hs. discriminate.
Qed.

(** X5.  A start that fails with an error other than a rejected save
    (already running, unknown identifier, directory not created, jar
    missing, spawn throwing) leaves the map of running servers, the child
    processes and the record store as they were. *)
Theorem start_failure_frame w id io w' f :
  startServer w id io = (w', start_returned (StartFailed f)) →
  (∀ msg, f ≠ SaveRejected msg) →
  runningServers w' = runningServers w ∧ children w' = children w ∧ db w' = db w.
Proof.
  unfold startServer. intros Hs Hf. revert Hs. simpl.
  destruct (runningServers w !! id); [by intros [= <- _] |].
  simpl. destruct (db w !! id) as [server|]; [| by intros [= <- _]].
  destruct (existsSync w (path server)).
  - destruct (launch w id io server) as [w1 t1] eqn:Hl. intros Hs.
    by destruct (launch_failure_frame 1 w id io server w1 t1 w' f Hl Hs Hf)
      as (? & ? & ? & _).
  - simpl. destruct (ensureDir_rejects (faults w)); [by intros [= <- _] |].
    destruct (launch _ id io server) as [w1 t1] eqn:Hl. intros Hs.
    by destruct (launch_failure_frame 0 _ id io server w1 t1 w' f Hl Hs Hf)
      as (? & ? & ? & _).
Qed.

Lemma start_failure_frame_witness :
  runningServers (startServer no_directory "s1" true).1 = runningServers no_directory ∧
  children (startServer no_directory "s1" true).1 = children no_directory ∧
  db (startServer no_directory "s1" true).1 = db no_directory.
Proof.
  apply (start_failure_frame no_directory "s1" true _
           (JarNotFound "/srv/mc/survival/paper-1.20.jar")).
  - by vm_compute.
  - done.
Defined.

(** X6.  When the save of [lastStarted] is rejected, start reports
    the error of the store, but the process has been spawned and its handle
    registered before: the identifier stays in the map with a live child,
    and the store is unchanged. *)
Theorem rejected_save_leaves_handle w id io server msg :
  runningServers w !! id = None →
  db w !! id = Some server →
  existsSync w (path server) = true →
  existsSync w (path_join (path server) (jarFile server)) = true →
  spawn_throws (faults w) = None →
  save_rejects (faults w) = Some msg →
  (startServer w id io).2 = start_returned (StartFailed (SaveRejected msg)) ∧
  start_result (StartFailed (SaveRejected msg)) = Error msg ∧
  runningServers (startServer w id io).1 !! id
    = Some (mkHandle (length (children w)) (now w)) ∧
  (exitCode <$> children (startServer w id io).1 !! length (children w)) = Some None ∧
  db (startServer w id io).1 = db w.
Proof.
  intros Hrun Hdb Hdir Hjar Hspawn Hsave. unfold startServer. cbn [start_steps].
  rewrite RegistryFacts.entry_step by done. cbn [start_steps].
  rewrite (RegistryFacts.find_step w id io server) by done. cbn [start_steps].
  simpl start_step. rewrite Hsave. simpl.
  rewrite lookup_insert_eq. by rewrite lookup_app_r, Nat.sub_diag by lia.
Qed.

Lemma rejected_save_leaves_handle_witness :
  (startServer (set_faults (mkFaults None None None (Some "store down") None)
                  (idle defaults)) "s1" true).2
    = start_returned (StartFailed (SaveRejected "store down")) ∧
  runningServers
    (startServer (set_faults (mkFaults None None None (Some "store down") None)
                    (idle defaults)) "s1" true).1 !! "s1"
    = Some (mkHandle 0 1000).
Proof.
  destruct (rejected_save_leaves_handle
              (set_faults (mkFaults None None None (Some "store down") None) (idle defaults))
              "s1" true survival "store down"
              ltac:(by vm_compute) ltac:(by vm_compute) ltac:(by vm_compute)
              ltac:(by vm_compute) ltac:(by vm_compute) ltac:(by vm_compute))
    as (H1 & _ & H3 & _).
  by split.
Defined.

Lemma notify_frame listeners w :
  fs (notify w listeners) = fs w ∧ emitted (notify w listeners) = emitted w ∧
  config (notify w listeners) = config w.
Proof.
  revert w. induction listeners as [|k l IH]; intros w; [done |].
  change (notify w (k :: l))
    with (notify (resolve k (Success "Server stopped gracefully") (clearTimeout k w)) l).
  by destruct (IH (resolve k (Success "Server stopped gracefully") (clearTimeout k w)))
    as (-> & -> & ->).
Qed.

(** What the close of a child and the end of its close handler do. *)
Lemma exit_effect w id h c code :
  runningServers w !! id = Some h →
  children w !! process h = Some c →
  exitCode c = None →
  serverId c = id →
  save_rejects (faults w) = None →
  runningServers (run w [Close (process h) code]) !! id = Some h ∧
  (logs <$> children (run w [Close (process h) code]) !! process h)
    = Some (logs c ++ [mkLog (now w)
                         ("Server process exited with code " +:+
                            match code with Some n => pretty n | None => "null" end)
                         system]) ∧
  runningServers (run w [Close (process h) code; CloseSaved (process h)])
    = delete id (runningServers w) ∧
  db (run w [Close (process h) code; CloseSaved (process h)])
    = <[id := with_lastStopped (now w) (server c)]> (db w) ∧
  fs (run w [Close (process h) code; CloseSaved (process h)]) = fs w.
Proof.
  intros Hrun Hc Hexit Hid Hsave. simpl run.
  destruct (RegistryFacts.on_close_spec (process h) code w c Hc Hexit)
    as (Hc1 & Hr1 & Hf1 & _ & _).
  assert (db (on_close (process h) code w) = db w ∧
          fs (on_close (process h) code w) = fs w) as [Hdb1 Hfs1].
  { unfold on_close. rewrite Hc, Hexit.
    match goal with |- context [notify ?W _] => set (w1 := W) end.
    destruct (notify_frame (once_close c) w1) as (-> & _ & _).
    destruct (RegistryFacts.notify_spec (once_close c) w1) as (_ & _ & _ & _ & -> & _).
    subst w1. by destruct (io c). }
  split; [by rewrite Hr1 |]. split; [by rewrite Hc1 |].
  unfold on_close_saved. rewrite Hc1. simpl closing. cbv iota.
  simpl faults. rewrite Hf1, Hsave. simpl.
  by rewrite Hr1, Hdb1, Hfs1, Hid.
Qed.

(** X7.  When the process of a running server closes, the close handler
    appends the entry 'Server process exited with code <code>' of type
    system to the logs, and the handle stays in the map while the handler
    awaits the save.  Once the save is done the identifier is deleted from
    the map and the stored document carries [lastStopped]; the disk is not
    touched. *)
Theorem exit_removes_handle w id h c code :
  runningServers w !! id = Some h →
  children w !! process h = Some c →
  exitCode c = None →
  serverId c = id →
  save_rejects (faults w) = None →
  runningServers (run w [Close (process h) code]) !! id = Some h ∧
  (logs <$> children (run w [Close (process h) code]) !! process h)
    = Some (logs c ++ [mkLog (now w)
                         ("Server process exited with code " +:+
                            match code with Some n => pretty n | None => "null" end)
                         system]) ∧
  runningServers (run w [Close (process h) code; CloseSaved (process h)])
    = delete id (runningServers w) ∧
  db (run w [Close (process h) code; CloseSaved (process h)])
    = <[id := with_lastStopped (now w) (server c)]> (db w) ∧
  fs (run w [Close (process h) code; CloseSaved (process h)]) = fs w.
Proof.
  intros Hrun Hc Hexit Hid Hsave.
  destruct (exit_effect w id h c code Hrun Hc Hexit Hid Hsave)
    as (Hstill & Hlogs & Hmap & Hstore & Hdisk).
  repeat split; assumption.
Qed.

Lemma exit_removes_handle_witness :
  runningServers (run (running defaults) [Close 0 (Some 1); CloseSaved 0]) !! "s1" = None.
Proof.
  assert (∃ c, children (running defaults) !! 0%nat = Some c ∧ exitCode c = None ∧
               serverId c = "s1") as (c & Hc & Hexit & Hid)
    by (vm_compute; eauto).
  destruct (exit_removes_handle (running defaults) "s1" (mkHandle 0 1000) c (Some 1)
              ltac:(by vm_compute) Hc Hexit Hid ltac:(by vm_compute))
    as (_ & _ & Hmap & _).
  change (process (mkHandle 0 1000)) with 0%nat in Hmap.
  rewrite Hmap. apply lookup_delete_eq.
Defined.

(** X8.  After a successful start, the close of the process and the end
    of its close handler, the identifier is no longer in the map and a new
    start succeeds: it registers the next child process, and the stored
    document keeps the [lastStopped] of the exit. *)
Theorem restart_after_exit w id io io' server code :
  runningServers w !! id = None →
  db w !! id = Some server →
  existsSync w (path server) = true →
  existsSync w (path_join (path server) (jarFile server)) = true →
  spawn_throws (faults w) = None →
  save_rejects (faults w) = None →
  let pid := length (children w) in
  let stopped := run (startServer w id io).1 [Close pid code; CloseSaved pid] in
  runningServers stopped !! id = None ∧
  (startServer stopped id io').2 = start_returned (Started id) ∧
  runningServers (startServer stopped id io').1 !! id
    = Some (mkHandle (S pid) (now w)) ∧
  (lastStopped <$> db (startServer stopped id io').1 !! id) = Some (Some (now w)).
Proof.
  intros Hrun Hdb Hdir Hjar Hspawn Hsave pid stopped.
  destruct (start_effect w id io server Hrun Hdb Hdir Hjar Hspawn Hsave)
    as (_ & Hmap1 & Hch1 & Hdb1 & Hfs1 & _).
  set (w1 := (startServer w id io).1) in *.
  set (c := mkChild id io _ _ _ _ _ _ _ _ _ _ _) in Hch1.
  assert (children w1 !! pid = Some c) as Hc
    by (rewrite Hch1; subst pid; by rewrite lookup_app_r, Nat.sub_diag by lia).
  assert (faults w1 = faults w ∧ now w1 = now w) as [Hf1 Hn1].
  { subst w1. unfold startServer. cbn [start_steps].
    rewrite RegistryFacts.entry_step by done. cbn [start_steps].
    rewrite (RegistryFacts.find_step w id io server) by done. cbn [start_steps].
    rewrite (RegistryFacts.save_step _ id io _ (new_child w id io server)); [| done |].
    2: { simpl. by rewrite lookup_app_r, Nat.sub_diag by lia. }
    by destruct io. }
  destruct (exit_effect w1 id (mkHandle pid (now w)) c code)
    as (_ & _ & Hmap2 & Hdb2 & Hfs2); try done.
  { rewrite Hmap1. apply lookup_insert_eq. }
  { by rewrite Hf1. }
  simpl process in *. fold stopped in Hmap2, Hdb2, Hfs2.
  assert (runningServers stopped !! id = None) as Hgone
    by (rewrite Hmap2; apply lookup_delete_eq).
  split; [done |].
  assert (children stopped = alter (with_closing false)
            pid (alter (λ c, with_exit code
              (with_server (with_lastStopped (now w1))
                 (with_logs (λ l, JS.push l (LogBuffer.exit_entry (now w1) code)) c)))
            pid (children w1)) ∧ faults stopped = faults w1 ∧ now stopped = now w1)
    as (Hch2 & Hf2 & Hn2).
  { subst stopped. simpl run. unfold on_close_saved.
    destruct (RegistryFacts.on_close_spec pid code w1 c Hc eq_refl) as (Hc1 & _ & Hfc & _).
    rewrite Hc1. simpl closing. cbv iota. simpl faults. rewrite Hfc, Hf1, Hsave.
    simpl. unfold on_close. rewrite Hc. simpl exitCode. cbv iota.
    match goal with |- context [notify ?W _] => set (w2 := W) end.
    destruct (RegistryFacts.notify_spec (once_close c) w2) as (-> & _ & -> & -> & _).
    subst w2. by destruct io. }
  set (server' := with_lastStopped (now w1) (Registry.server c)) in *.
  destruct (start_effect stopped id io' server') as (Hres & Hmap3 & _ & Hdb3 & _).
  - done.
  - rewrite Hdb2. apply lookup_insert_eq.
  - unfold existsSync. rewrite Hfs2, Hfs1. exact Hdir.
  - unfold existsSync. rewrite Hfs2, Hfs1. exact Hjar.
  - by rewrite Hf2, Hf1.
  - by rewrite Hf2, Hf1.
  - split; [done |]. split.
    + rewrite Hmap3, lookup_insert_eq, Hn2, Hn1. f_equal. f_equal.
      rewrite Hch2, !length_alter, Hch1, length_app. simpl. lia.
    + rewrite Hdb3, lookup_insert_eq. simpl. by rewrite Hn1.
Qed.

Lemma restart_after_exit_witness :
  (startServer (run (startServer (idle defaults) "s1" true).1
                  [Close 0 (Some 1); CloseSaved 0]) "s1" false).2
  = start_returned (Started "s1").
Proof.
  exact (proj1 (proj2 (restart_after_exit (idle defaults) "s1" true false survival (Some 1)
           ltac:(by vm_compute) ltac:(by vm_compute) ltac:(by vm_compute)
           ltac:(by vm_compute) ltac:(by vm_compute) ltac:(by vm_compute)))).
Defined.

End LifecycleFacts.

Module CommandFacts.
Import Registry Examples.

(** X9.  A stop without force never returns success at once.  If it
    returns, the result is an error and nothing was changed (no timer, no
    listener); otherwise it waits on its promise, having armed exactly one
    new timer, for its identifier, due when the delay that Node gives to
    stopTimeout || 30000 has passed, with the map and the other timers
    untouched. *)
Theorem stop_returns_or_waits w id :
  (∀ r, (stopServer w id false).2 = stop_returned r →
        (stopServer w id false).1 = w ∧ ∃ msg, r = Error msg) ∧
  (∀ killTimeout,
     (stopServer w id false).2 = stop_pending killTimeout →
     killTimeout = next_timer w ∧
     timers (stopServer w id false).1 !! killTimeout
       = Some (mkTimer (now w + stop_delay (config w)) id) ∧
     next_timer (stopServer w id false).1 = S killTimeout ∧
     runningServers (stopServer w id false).1 = runningServers w ∧
     ∀ other, other ≠ killTimeout →
              timers (stopServer w id false).1 !! other = timers w !! other).
Proof.
  unfold stopServer. destruct (runningServers w !! id) as [h|].
  - destruct (stdin_write (process h) ("stop" +:+ LF) w) as [w1|e] eqn:Hw.
    + split; [done |]. intros k [= <-].
      unfold stdin_write in Hw. destruct (children w !! process h) as [c|]; [| done].
      destruct (stdin_error c); [done |]. injection Hw as <-. simpl.
      split; [done |]. split; [apply lookup_insert_eq |]. split; [done |].
      split; [done |]. intros other Hne. by rewrite lookup_insert_ne.
    + split; [| done]. intros r [= <-]. eauto.
  - split; [| done]. intros r [= <-]. eauto.
Qed.

Lemma stop_returns_or_waits_witness :
  timers (stopServer (running defaults) "s1" false).1 !! 0%nat
    = Some (mkTimer 31000 "s1") ∧
  next_timer (stopServer (running defaults) "s1" false).1 = 1%nat ∧
  runningServers (stopServer (running defaults) "s1" false).1
    = runningServers (running defaults).
Proof.
  destruct (proj2 (stop_returns_or_waits (running defaults) "s1") 0%nat
              ltac:(by vm_compute)) as (_ & Htimer & Hnext & Hmap & _).
  split; [exact Htimer |]. split; [exact Hnext | exact Hmap].
Defined.

(** X10.  Two stops without force of the same running server, the
    second made before the process has closed, both wait: the stop command
    is written twice and two kill timers are armed.  One close of the
    process clears both timers and resolves both promises with 'Server
    stopped gracefully', and no signal is sent. *)
Theorem concurrent_stops_share_close w id h c code :
  runningServers w !! id = Some h →
  children w !! process h = Some c →
  exitCode c = None →
  stdin_error c = None →
  let first := next_timer w in
  let w1 := (stopServer w id false).1 in
  let w2 := (stopServer w1 id false).1 in
  let closed := run w2 [Close (process h) code] in
  (stopServer w id false).2 = stop_pending first ∧
  (stopServer w1 id false).2 = stop_pending (S first) ∧
  (stdin <$> children w2 !! process h)
    = Some (stdin c ++ ["stop" +:+ LF; "stop" +:+ LF]) ∧
  is_Some (timers w2 !! first) ∧ is_Some (timers w2 !! S first) ∧
  timers closed !! first = None ∧ timers closed !! S first = None ∧
  (first, Success "Server stopped gracefully") ∈ settled closed ∧
  (S first, Success "Server stopped gracefully") ∈ settled closed ∧
  (signals <$> children closed !! process h) = Some (signals c).
Proof.
  intros Hrun Hc Hexit Herr first w1 w2 closed.
  set (pid := process h) in *.
  assert (stopServer w id false
          = (update_child pid (with_once_close (λ l, l ++ [first]))
               (setTimeout (JS.or_default (stopTimeout (config w)) 30000) id
                  (update_child pid (with_stdin (λ l, l ++ ["stop" +:+ LF])) w)),
             stop_pending first)) as H1.
  { unfold stopServer. rewrite Hrun. fold pid.
    by rewrite (RegistryFacts.stdin_write_ok _ _ _ c). }
  assert (w1 = (stopServer w id false).1) as Hw1 by done.
  rewrite H1 in Hw1. simpl in Hw1.
  set (c1 := with_once_close (λ l, l ++ [first])
               (with_stdin (λ l, l ++ ["stop" +:+ LF]) c)).
  assert (children w1 !! pid = Some c1) as Hc1
    by (rewrite Hw1; simpl; by rewrite !list_lookup_alter_eq, Hc).
  assert (runningServers w1 !! id = Some h) as Hrun1 by (by rewrite Hw1).
  assert (next_timer w1 = S first) as Hnext by (by rewrite Hw1).
  assert (stopServer w1 id false
          = (update_child pid (with_once_close (λ l, l ++ [S first]))
               (setTimeout (JS.or_default (stopTimeout (config w1)) 30000) id
                  (update_child pid (with_stdin (λ l, l ++ ["stop" +:+ LF])) w1)),
             stop_pending (S first))) as H2.
  { unfold stopServer. rewrite Hrun1. fold pid.
    rewrite (RegistryFacts.stdin_write_ok _ _ _ c1) by done.
    simpl. by rewrite Hnext. }
  assert (w2 = (stopServer w1 id false).1) as Hw2 by done.
  rewrite H2 in Hw2. simpl in Hw2.
  set (c2 := with_once_close (λ l, l ++ [S first])
               (with_stdin (λ l, l ++ ["stop" +:+ LF]) c1)).
  assert (children w2 !! pid = Some c2) as Hc2
    by (rewrite Hw2; simpl; by rewrite !list_lookup_alter_eq, Hc1).
  assert (timers w2 !! first = Some (mkTimer
            (now w + stop_delay (config w)) id)) as Ht1.
  { rewrite Hw2. simpl. rewrite Hnext, lookup_insert_ne by lia.
    rewrite Hw1. simpl. apply lookup_insert_eq. }
  assert (is_Some (timers w2 !! S first)) as Ht2.
  { rewrite Hw2. simpl. rewrite Hnext, lookup_insert_eq. eauto. }
  destruct (RegistryFacts.on_close_spec pid code w2 c2 Hc2 Hexit)
    as (Hc3 & _ & _ & Ht3 & Hs3).
  rewrite H1, H2. split; [done |]. split; [done |].
  split; [rewrite Hc2; simpl; by rewrite <- app_assoc |].
  split; [by rewrite Ht1; eauto |]. split; [done |].
  assert (first ∈ once_close c2 ∧ S first ∈ once_close c2) as [Hin1 Hin2].
  { simpl. rewrite !elem_of_app, !list_elem_of_singleton. auto. }
  subst closed. simpl run.
  split; [apply Ht3; by left |]. split; [apply Ht3; by left |].
  split; [by apply Hs3 |]. split; [by apply Hs3 |].
  by rewrite Hc3.
Qed.

Lemma concurrent_stops_share_close_witness :
  (stopServer (running defaults) "s1" false).2 = stop_pending 0%nat ∧
  (stopServer (stopServer (running defaults) "s1" false).1 "s1" false).2
    = stop_pending 1%nat.
Proof.
  assert (∃ c, children (running defaults) !! 0%nat = Some c ∧ exitCode c = None ∧
               stdin_error c = None) as (c & Hc & Hexit & Herr)
    by (vm_compute; eauto).
  destruct (concurrent_stops_share_close (running defaults) "s1" (mkHandle 0 1000) c None
              ltac:(by vm_compute) Hc Hexit Herr) as (H1 & H2 & _).
  by split.
Defined.

(** X11.  Two commands sent to a running server whose stdin accepts
    writes both report 'Command sent: <command>' and reach the stdin of the
    process in the order sent, each followed by a line feed; no signal is
    sent, and the map and the timers are unchanged. *)
Theorem commands_reach_stdin_in_order w id h c cmd1 cmd2 :
  runningServers w !! id = Some h →
  children w !! process h = Some c →
  stdin_error c = None →
  let w1 := (sendCommand w id cmd1).1 in
  let w2 := (sendCommand w1 id cmd2).1 in
  (sendCommand w id cmd1).2 = Success ("Command sent: " +:+ cmd1) ∧
  (sendCommand w1 id cmd2).2 = Success ("Command sent: " +:+ cmd2) ∧
  (stdin <$> children w2 !! process h)
    = Some (stdin c ++ [cmd1 +:+ LF; cmd2 +:+ LF]) ∧
  (signals <$> children w2 !! process h) = Some (signals c) ∧
  runningServers w2 = runningServers w ∧
  timers w2 = timers w.
Proof.
  intros Hrun Hc Herr w1 w2. set (pid := process h) in *.
  set (f1 := with_logs (λ l, LogBuffer.push_command (config w) l
                               (LogBuffer.command_entry (now w) cmd1))).
  assert (sendCommand w id cmd1
          = (update_child pid (with_stdin (λ l, l ++ [cmd1 +:+ LF]))
               (update_child pid f1 w),
             Success ("Command sent: " +:+ cmd1))) as H1.
  { unfold sendCommand. rewrite Hrun. fold pid.
    rewrite (RegistryFacts.stdin_write_ok _ _ _ (f1 c)); [done | | done].
    by apply RegistryFacts.lookup_update_child. }
  assert (w1 = (sendCommand w id cmd1).1) as Hw1 by done.
  rewrite H1 in Hw1. simpl in Hw1.
  set (c1 := with_stdin (λ l, l ++ [cmd1 +:+ LF]) (f1 c)).
  assert (children w1 !! pid = Some c1) as Hc1
    by (rewrite Hw1; simpl; by rewrite !list_lookup_alter_eq, Hc).
  assert (runningServers w1 !! id = Some h) as Hrun1 by (by rewrite Hw1).
  set (f2 := with_logs (λ l, LogBuffer.push_command (config w1) l
                               (LogBuffer.command_entry (now w1) cmd2))).
  assert (sendCommand w1 id cmd2
          = (update_child pid (with_stdin (λ l, l ++ [cmd2 +:+ LF]))
               (update_child pid f2 w1),
             Success ("Command sent: " +:+ cmd2))) as H2.
  { unfold sendCommand. rewrite Hrun1. fold pid.
    rewrite (RegistryFacts.stdin_write_ok _ _ _ (f2 c1)); [done | | done].
    by apply RegistryFacts.lookup_update_child. }
  assert (w2 = (sendCommand w1 id cmd2).1) as Hw2 by done.
  rewrite H2 in Hw2. simpl in Hw2.
  rewrite H1, H2. split; [done |]. split; [done |].
  rewrite Hw2. simpl. rewrite !list_lookup_alter_eq, Hc1. simpl.
  rewrite <- app_assoc. rewrite Hw1. done.
Qed.

Lemma commands_reach_stdin_in_order_witness :
  (stdin <$> children (sendCommand (sendCommand (running defaults) "s1" "say hi").1
                         "s1" "list").1 !! 0%nat)
  = Some ["say hi" +:+ LF; "list" +:+ LF].
Proof.
  assert (∃ c, children (running defaults) !! 0%nat = Some c ∧ stdin_error c = None ∧
               stdin c = []) as (c & Hc & Herr & Hin)
    by (vm_compute; eauto).
  destruct (commands_reach_stdin_in_order (running defaults) "s1" (mkHandle 0 1000) c
              "say hi" "list" ltac:(by vm_compute) Hc Herr) as (_ & _ & H3 & _).
  by rewrite Hin in H3.
Defined.

End CommandFacts.

Module PropertiesFacts.
Import Registry Examples Service.

Lemma get_assign_eq base k v : get k (assign base k v) = Some v.
Proof.
  induction base as [|[k' v'] rest IH]; simpl.
  - by rewrite decide_True.
  - destruct (decide (k' = k)) as [-> | Hne]; simpl.
    + by rewrite decide_True.
    + destruct (JS.key_before k k'); simpl.
      * by rewrite decide_True.
      * by rewrite decide_False.
Qed.

Lemma get_assign_ne base k v k0 : k0 ≠ k → get k0 (assign base k v) = get k0 base.
Proof.
  intros Hne. induction base as [|[k' v'] rest IH]; simpl.
  - by rewrite decide_False.
  - destruct (decide (k' = k)) as [-> | Hk]; simpl.
    + by rewrite !decide_False.
    + destruct (JS.key_before k k'); simpl.
      * by rewrite decide_False.
      * destruct (decide (k' = k0)); done.
Qed.

Lemma spread_snoc base extra k v :
  spread base (extra ++ [(k, v)]) = assign (spread base extra) k v.
Proof. unfold spread. by rewrite foldl_app. Qed.

(** X12.  In the merged properties [{...old, ...new}] every key has the
    value that [new] gives it last, when [new] has the key, and the value
    of [old] otherwise. *)
Theorem spread_get base extra k :
  get k (spread base extra)
  = match get k (reverse extra) with
    | Some v => Some v
    | None => get k base
    end.
Proof.
  induction extra as [|[k1 v1] extra IH] using rev_ind; [done |].
  rewrite spread_snoc, reverse_app. simpl.
  destruct (decide (k1 = k)) as [-> | Hne].
  - apply get_assign_eq.
  - by rewrite get_assign_ne.
Qed.

Lemma key_before_asym a b : JS.key_before a b = true → JS.key_before b a = false.
Proof.
  unfold JS.key_before.
  destruct (JS.array_index a), (JS.array_index b); try done. lia.
Qed.

Lemma key_before_trans a b c :
  JS.key_before a b = true → JS.key_before b c = true → JS.key_before a c = true.
Proof.
  unfold JS.key_before.
  destruct (JS.array_index a), (JS.array_index b), (JS.array_index c); try done. lia.
Qed.

Lemma key_before_index a b : JS.key_before a b = true → ¬ named a.
Proof. unfold JS.key_before, named. by destruct (JS.array_index a). Qed.

Lemma assign_keys base k v k0 :
  k0 ∈ (assign base k v).*1 ↔ k0 = k ∨ k0 ∈ base.*1.
Proof.
  induction base as [|[k' v'] rest IH]; cbn [assign].
  - rewrite !fmap_cons, fmap_nil, list_elem_of_singleton, elem_of_nil. simpl. tauto.
  - destruct (decide (k' = k)) as [-> | Hne].
    + rewrite !fmap_cons, !elem_of_cons. simpl. tauto.
    + destruct (JS.key_before k k').
      * rewrite !fmap_cons, !elem_of_cons. simpl. tauto.
      * rewrite !fmap_cons, !elem_of_cons, IH. simpl. tauto.
Qed.

Lemma assign_listed base k v : listed base → listed (assign base k v).
Proof.
  induction base as [|[k' v'] rest IH]; cbn [assign listed].
  - done.
  - intros [Hall Hrest]. destruct (decide (k' = k)) as [-> | Hne]; [done |].
    destruct (JS.key_before k k') eqn:Hbefore; cbn [listed].
    + split; [| done]. constructor; [by apply key_before_asym |].
      eapply Forall_impl; [exact Hall |]. intros [x y] Hx. simpl in *.
      destruct (JS.key_before x k) eqn:Hxk; [| done].
      by rewrite (key_before_trans x k k') in Hx.
    + split; [| by apply IH].
      apply Forall_forall. intros [x y] Hin. simpl.
      assert (x ∈ (assign rest k v).*1) as Hx
        by (apply list_elem_of_fmap; by exists (x, y)).
      apply assign_keys in Hx as [-> | Hx]; [done |].
      apply list_elem_of_fmap in Hx as ([x' y'] & -> & Hin').
      by apply (proj1 (Forall_forall _ _) Hall (x', y')).
Qed.

Lemma assign_NoDup base k v :
  NoDup base.*1 → listed base → NoDup (assign base k v).*1.
Proof.
  induction base as [|[k' v'] rest IH]; cbn [assign listed].
  - intros _ _. apply NoDup_singleton.
  - rewrite fmap_cons. simpl. intros [Hk' Hnd]%NoDup_cons [Hall Hrest].
    destruct (decide (k' = k)) as [-> | Hne]; [by apply NoDup_cons |].
    destruct (JS.key_before k k') eqn:Hbefore.
    + rewrite !fmap_cons. simpl. apply NoDup_cons. split; [| by apply NoDup_cons].
      intros [-> | Hin]%elem_of_cons; [done |].
      apply list_elem_of_fmap in Hin as ([x y] & -> & Hin).
      pose proof (proj1 (Forall_forall _ _) Hall (x, y) Hin) as Hx. simpl in *.
      congruence.
    + rewrite fmap_cons. simpl. apply NoDup_cons. split; [| by apply IH].
      intros [-> | Hin]%assign_keys; done.
Qed.

Lemma assign_named base k v :
  filter named base.*1 `prefix_of` filter named (assign base k v).*1.
Proof.
  induction base as [|[k' v'] rest IH]; cbn [assign].
  - apply prefix_nil.
  - destruct (decide (k' = k)) as [-> | Hne]; [done |].
    destruct (JS.key_before k k') eqn:Hbefore.
    + rewrite (fmap_cons _ (k, v)). simpl fst.
      by rewrite (filter_cons_False _ k) by (by apply key_before_index in Hbefore).
    + rewrite !fmap_cons. simpl fst. rewrite !filter_cons.
      destruct (decide (named k')); [by apply prefix_cons | done].
Qed.

(** X13.  Merging keeps the keys distinct and in the order in which
    JavaScript lists them, the array indices first and ascending, then the
    other keys; among these other keys those of the old object stay first,
    in their order.  The keys of the result are those of the old and of
    the new object. *)
Theorem spread_keys base extra :
  NoDup base.*1 →
  listed base →
  NoDup (spread base extra).*1 ∧
  listed (spread base extra) ∧
  filter named base.*1 `prefix_of` filter named (spread base extra).*1 ∧
  ∀ k, k ∈ (spread base extra).*1 ↔ k ∈ base.*1 ∨ k ∈ extra.*1.
Proof.
  intros Hbase Hlisted. induction extra as [|[k1 v1] extra IH] using rev_ind.
  - simpl. split; [done |]. split; [done |]. split; [done |]. intros k.
    split; [auto |]. intros [? | Hk]; [done | by apply elem_of_nil in Hk].
  - destruct IH as (Hnd & Hl & Hpre & Hin). rewrite spread_snoc.
    split; [by apply assign_NoDup |]. split; [by apply assign_listed |].
    split; [etrans; [exact Hpre | apply assign_named] |].
    intros k. rewrite assign_keys, Hin, fmap_app, elem_of_app. simpl.
    rewrite list_elem_of_singleton. tauto.
Qed.

Lemma spread_keys_witness :
  NoDup (spread [("2", "x"); ("10", "y"); ("b", "1"); ("a", "2")]
                [("1", "z"); ("a", "3"); ("c", "4")]).*1 ∧
  listed (spread [("2", "x"); ("10", "y"); ("b", "1"); ("a", "2")]
                 [("1", "z"); ("a", "3"); ("c", "4")]).
Proof.
  destruct (spread_keys [("2", "x"); ("10", "y"); ("b", "1"); ("a", "2")]
              [("1", "z"); ("a", "3"); ("c", "4")]) as (H1 & H2 & _).
  - apply (bool_decide_unpack _). by vm_compute.
  - simpl. repeat split; repeat constructor.
  - by split.
Defined.

(** A new array index goes before the larger indices and the named keys;
    a named key goes to the end. *)
Example spread_lists_indices_first :
  spread [("2", "x"); ("10", "y"); ("b", "1"); ("a", "2")]
         [("1", "z"); ("a", "3"); ("c", "4")]
  = [("1", "z"); ("2", "x"); ("10", "y"); ("b", "1"); ("a", "3"); ("c", "4")].
Proof. by vm_compute. Qed.

(** What an update of the properties of a stopped server does. *)
Lemma update_effect own_entries isoNow w id server newProperties :
  db w !! id = Some server →
  runningServers w !! id = None →
  writeFile_rejects (faults w) = None →
  let result := updateServerProperties own_entries isoNow w id newProperties in
  let file := path_join (path server) "server.properties" in
  let merged := spread (own_entries (properties server)) newProperties in
  runningServers result.1 = runningServers w ∧
  faults result.1 = faults w ∧
  (∀ other, other ≠ id → db result.1 !! other = db w !! other) ∧
  (newProperties = [] →
   result.2 = inr (properties server) ∧
   db result.1 = db w ∧
   fs result.1
     = <[file := File (properties_content isoNow (own_entries (properties server)))]>
         (fs w)) ∧
  (newProperties ≠ [] →
   (∀ msg, save_rejects (faults w) = Some msg → result = (w, inl msg)) ∧
   (save_rejects (faults w) = None →
    result.2 = inr merged ∧
    db result.1 = <[id := with_properties merged server]> (db w) ∧
    fs result.1
      = <[file := File (properties_content isoNow (own_entries merged))]> (fs w))).
Proof.
  intros Hdb Hrun Hwrite result file merged. subst result file merged.
  unfold updateServerProperties. rewrite Hdb, Hrun.
  destruct newProperties as [|kv rest].
  - simpl. rewrite Hwrite. simpl. repeat split; try done.
  - destruct (save_rejects (faults w)) as [msg|] eqn:Hsave.
    + simpl. repeat split; try done. by intros ? [= <-].
    + simpl. rewrite Hwrite. simpl. repeat split; try done.
      intros other Hne. by rewrite lookup_insert_ne.
Qed.

(** X14.  For a stored server that is not running, with the disk
    accepting the write.  Without new properties updateServerProperties
    saves nothing, and writes the file server.properties from the entries
    that the stored Map shows as properties of its own.  With new
    properties it merges them over those same entries: either the store
    rejects the document, and then the error is that of the store and
    nothing is changed or written; or the merged object becomes the stored
    properties, and the file is written from what the new Map shows.  The
    other documents and the map of running servers are unchanged. *)
Theorem updateServerProperties_stopped own_entries isoNow w id server newProperties :
  db w !! id = Some server →
  runningServers w !! id = None →
  writeFile_rejects (faults w) = None →
  let result := updateServerProperties own_entries isoNow w id newProperties in
  let file := path_join (path server) "server.properties" in
  let merged := spread (own_entries (properties server)) newProperties in
  runningServers result.1 = runningServers w ∧
  (∀ other, other ≠ id → db result.1 !! other = db w !! other) ∧
  (newProperties = [] →
   result.2 = inr (properties server) ∧
   db result.1 = db w ∧
   fs result.1
     = <[file := File (properties_content isoNow (own_entries (properties server)))]>
         (fs w)) ∧
  (newProperties ≠ [] →
   (∀ msg, save_rejects (faults w) = Some msg → result = (w, inl msg)) ∧
   (save_rejects (faults w) = None →
    result.2 = inr merged ∧
    db result.1 = <[id := with_properties merged server]> (db w) ∧
    fs result.1
      = <[file := File (properties_content isoNow (own_entries merged))]> (fs w))).
Proof.
  intros Hdb Hrun Hwrite result file merged.
  destruct (update_effect own_entries isoNow w id server newProperties Hdb Hrun Hwrite)
    as (Hmap & _ & Hothers & Hnone & Hsome).
  split; [exact Hmap |]. split; [exact Hothers |]. split; [exact Hnone | exact Hsome].
Qed.

Lemma updateServerProperties_stopped_witness :
  (updateServerProperties internal_fields "2024-05-01" (idle defaults) "s1" []).2
    = inr [("server-port", "25565"); ("motd", "hello")] ∧
  fs (updateServerProperties internal_fields "2024-05-01" (idle defaults) "s1" []).1
    !! "/srv/mc/survival/server.properties"
    = Some (File (properties_content "2024-05-01"
                    [("$__parent", "[object Object]"); ("$__path", "properties");
                     ("$__schemaType", "[object Object]")])).
Proof.
  destruct (updateServerProperties_stopped internal_fields "2024-05-01" (idle defaults)
              "s1" survival []
              ltac:(by vm_compute) ltac:(by vm_compute) ltac:(by vm_compute))
    as (_ & _ & Hnone & _).
  destruct (Hnone eq_refl) as (Hres & _ & Hfs).
  split; [exact Hres |]. rewrite Hfs. apply lookup_insert_eq.
Defined.

Lemma string_app_assoc (a b c : string) : (a +:+ b) +:+ c = a +:+ b +:+ c.
Proof.
  induction a as [|x a IH]; [done |].
  rewrite !LogFileFacts.append_cons. by rewrite IH.
Qed.

Lemma one_line_app a b : one_line a → one_line b → one_line (a +:+ b).
Proof.
  unfold one_line. induction a as [|x a IH]; [done |].
  rewrite LogFileFacts.append_cons. simpl. intros [Hx Ha] Hb. split; [done | auto].
Qed.

Lemma split_line s rest :
  one_line s → JS.split "010" (s +:+ LF +:+ rest) = s :: JS.split "010" rest.
Proof.
  unfold one_line. induction s as [|c s IH]; intros Hs.
  - rewrite LogFileFacts.append_nil. unfold LF. rewrite LogFileFacts.append_cons.
    rewrite LogFileFacts.append_nil. apply LogFileFacts.split_here.
  - destruct Hs as [Hc Hs]. rewrite LogFileFacts.append_cons.
    rewrite LogFileFacts.split_skip, (IH Hs); [done |].
    intros ->. done.
Qed.

Lemma properties_content_lines acc props :
  foldl (λ content kv, content +:+ kv.1 +:+ "=" +:+ kv.2 +:+ LF) acc props
  = acc +:+ foldr (λ kv rest, property_line kv +:+ LF +:+ rest) EmptyString props.
Proof.
  revert acc. induction props as [|kv props IH]; intros acc; simpl.
  - induction acc as [|x acc IHacc]; [done |].
    rewrite LogFileFacts.append_cons. by rewrite <- IHacc.
  - rewrite IH. unfold property_line. by rewrite !string_app_assoc.
Qed.

(** X15.  When no key, no value and not the date contain a line feed, the
    generated file consists of the two header lines followed by one line
    key=value for each property, in order, and ends with a line feed. *)
Theorem properties_file_lines isoNow props :
  one_line isoNow →
  Forall (λ kv, one_line kv.1 ∧ one_line kv.2) props →
  JS.split "010" (properties_content isoNow props)
  = ["# Minecraft server properties";
     "# Generated by Minecraft Server Manager on " +:+ isoNow]
    ++ (property_line <$> props) ++ [EmptyString].
Proof.
  intros Hiso Hprops. unfold properties_content.
  rewrite properties_content_lines, !string_app_assoc.
  rewrite split_line by (by vm_compute).
  rewrite <- (string_app_assoc _ isoNow).
  rewrite split_line by (apply one_line_app; [by vm_compute | done]).
  simpl. do 2 f_equal.
  induction Hprops as [|kv props [Hk Hv] Hprops IH]; [done |].
  simpl. rewrite split_line; [by rewrite IH |].
  unfold property_line. apply one_line_app; [done |].
  apply one_line_app; [by vm_compute | done].
Qed.

Lemma properties_file_lines_witness :
  JS.split "010" (properties_content "2024-05-01" [("motd", "hello"); ("pvp", "true")])
  = ["# Minecraft server properties";
     "# Generated by Minecraft Server Manager on 2024-05-01";
     "motd=hello"; "pvp=true"; EmptyString].
Proof.
  apply (properties_file_lines "2024-05-01" [("motd", "hello"); ("pvp", "true")]).
  - by vm_compute.
  - repeat constructor; by vm_compute.
Defined.

End PropertiesFacts.

Module OfflineLogFacts.
Import Registry Examples Service.

Lemma parse_line_message localTime now line :
  message (LogFile.parse_line localTime now line) = line.
Proof.
  unfold LogFile.parse_line.
  by destruct (LogFile.regex_match line) as [[[t lvl] txt]|].
Qed.

Lemma parse_line_type localTime now line :
  type (LogFile.parse_line localTime now line) = stdout ∨
  type (LogFile.parse_line localTime now line) = stderr.
Proof.
  unfold LogFile.parse_line.
  destruct (LogFile.regex_match line) as [[[t lvl] txt]|]; simpl; [| by left].
  destruct (JS.includes "ERROR" lvl); auto.
Qed.

(** X16.  The messages of the entries read from a log file are exactly
    the lines of the file that are not blank, in order: every line kept is
    returned whole as the message, whether the pattern matched it or not. *)
Theorem parse_content_messages localTime clock content :
  message <$> LogFile.parse_content localTime clock content
  = filter LogFile.kept (JS.split "010" content).
Proof.
  unfold LogFile.parse_content. apply list_eq. intros i.
  rewrite list_lookup_fmap, list_lookup_imap.
  destruct (filter LogFile.kept (JS.split "010" content) !! i) as [line|]; [| done].
  simpl. by rewrite parse_line_message.
Qed.

(** X17.  Entries read from the log file have type stdout or stderr
    only; so a query of the file with a type filter other than 'stdout' and
    'stderr' (such as 'system' or 'command') returns the empty list. *)
Theorem offline_entries_are_stream_typed localTime clock w id server content t search limit :
  db w !! id = Some server →
  fs w !! path_join (path_join (path server) "logs") "latest.log" = Some (File content) →
  t ≠ EmptyString → t ≠ "stdout" → t ≠ "stderr" →
  Forall (λ log, type log = stdout ∨ type log = stderr)
         (LogFile.parse_content localTime clock content) ∧
  getServerLogsFromFile localTime clock w id (mkOptions (Some t) search limit) = inr [].
Proof.
  intros Hdb Hfile Ht Hout Herr.
  assert (Forall (λ log, type log = stdout ∨ type log = stderr)
            (LogFile.parse_content localTime clock content)) as Hall.
  { unfold LogFile.parse_content. apply Forall_lookup. intros i log.
    rewrite list_lookup_imap.
    destruct (filter LogFile.kept (JS.split "010" content) !! i); [| done].
    intros [= <-]. apply parse_line_type. }
  split; [done |].
  unfold getServerLogsFromFile. rewrite Hdb, Hfile. f_equal.
  unfold LogQuery.apply_filters. cbn [opt_type opt_search opt_limit].
  assert (JS.truthy (Some t) = Some t) as -> by (by destruct t).
  assert (filter (LogQuery.has_type t) (LogFile.parse_content localTime clock content) = [])
    as ->.
  { induction Hall as [|log logs Hlog Hall IH]; [done |].
    rewrite filter_cons, decide_False; [done |].
    unfold LogQuery.has_type. destruct Hlog as [-> | ->]; simpl; congruence. }
  destruct (JS.truthy search); rewrite ?filter_nil; unfold JS.slice_from;
    destruct (_ <? 0); by rewrite drop_nil.
Qed.

Lemma offline_entries_are_stream_typed_witness :
  getServerLogsFromFile LogFile.utc_time (λ _, 0)
    (set_fs (insert "/srv/mc/survival/logs/latest.log"
               (File "[10:00:00] [Server thread/INFO]: Done")) (idle defaults))
    "s1" (mkOptions (Some "system") None None)
  = inr [].
Proof.
  exact (proj2 (offline_entries_are_stream_typed LogFile.utc_time (λ _, 0)
                  (set_fs (insert "/srv/mc/survival/logs/latest.log"
                             (File "[10:00:00] [Server thread/INFO]: Done")) (idle defaults))
                  "s1" survival "[10:00:00] [Server thread/INFO]: Done" "system" None None
                  ltac:(by vm_compute) ltac:(by vm_compute)
                  ltac:(done) ltac:(done) ltac:(done))).
Defined.

(** X18.  Filtering by type, search text and limit only selects: the
    result is a subsequence of the given entries, in their order. *)
Theorem apply_filters_sublist options logs :
  LogQuery.apply_filters options logs `sublist_of` logs.
Proof.
  unfold LogQuery.apply_filters, JS.slice_from.
  set (logs1 := match JS.truthy (opt_type options) with
                | Some t => filter (LogQuery.has_type t) logs
                | None => logs
                end).
  set (logs2 := match JS.truthy (opt_search options) with
                | Some search => filter (LogQuery.mentions (JS.toLowerCase search)) logs1
                | None => logs1
                end).
  assert (logs1 `sublist_of` logs) as H1
    by (subst logs1; destruct (JS.truthy (opt_type options)); [apply sublist_filter | done]).
  assert (logs2 `sublist_of` logs1) as H2
    by (subst logs2; destruct (JS.truthy (opt_search options)); [apply sublist_filter | done]).
  transitivity logs1; [| done]. transitivity logs2; [| done].
  destruct (_ <? 0); apply sublist_drop.
Qed.

End OfflineLogFacts.

Module ShutdownFacts.
Import Registry Examples Service Scenarios.

(** One pending stop, as a change of the world. *)
Lemma pending_stop_effect w id h c :
  runningServers w !! id = Some h →
  children w !! process h = Some c →
  stdin_error c = None →
  ∃ w1,
    stopServer w id false = (w1, stop_pending (next_timer w)) ∧
    runningServers w1 = runningServers w ∧
    next_timer w1 = S (next_timer w) ∧
    now w1 = now w ∧ config w1 = config w ∧
    timers w1 = <[next_timer w := mkTimer (now w + stop_delay (config w)) id]>
                  (timers w) ∧
    children w1
      = alter (λ c, with_once_close (λ l, l ++ [next_timer w])
                      (with_stdin (λ l, l ++ ["stop" +:+ LF]) c))
              (process h) (children w).
Proof.
  intros Hrun Hc Herr. unfold stopServer. rewrite Hrun.
  rewrite (RegistryFacts.stdin_write_ok _ _ _ c) by done.
  eexists. split; [done |]. simpl. repeat split; try done.
  by rewrite list_alter_alter_eq.
Qed.

(** X19.  When every listed server is running and its stdin accepts
    writes, stopAllServers starts a stop for each one without waiting in
    between.  Every call is left waiting, on timers numbered one after the
    other, each armed for its server and due when the delay that Node
    gives to stopTimeout || 30000 has passed; the
    stop command has been written to every process; no handle is removed,
    the earlier timers are untouched, and no child has lost logs, signals
    or input already written. *)
Theorem stopAllServers_asks_every_server keys w :
  (∀ id, id ∈ keys → stoppable w id) →
  (stopAllServers keys w).2 = stop_pending <$> seq (next_timer w) (length keys) ∧
  runningServers (stopAllServers keys w).1 = runningServers w ∧
  (∀ i id, keys !! i = Some id →
     timers (stopAllServers keys w).1 !! (next_timer w + i)%nat
     = Some (mkTimer (now w + stop_delay (config w)) id)) ∧
  (∀ k, (k < next_timer w)%nat →
     timers (stopAllServers keys w).1 !! k = timers w !! k) ∧
  (∀ pid c, children w !! pid = Some c →
     ∃ c', children (stopAllServers keys w).1 !! pid = Some c' ∧ carried c c') ∧
  (∀ id h, id ∈ keys → runningServers w !! id = Some h →
     ∃ c', children (stopAllServers keys w).1 !! process h = Some c' ∧
           ("stop" +:+ LF) ∈ stdin c').
Proof.
  revert w. induction keys as [|id keys IH]; intros w Hall.
  - simpl. split; [done |]. split; [done |]. split; [done |]. split; [done |].
    split.
    + intros pid c Hc. exists c. by split.
    + intros id h Hin. by apply elem_of_nil in Hin.
  - destruct (Hall id) as (h & c & Hrun & Hc & Herr); [apply elem_of_cons; by left |].
    destruct (pending_stop_effect w id h c Hrun Hc Herr)
      as (w1 & Hstop & Hr1 & Hn1 & Hnow1 & Hcfg1 & Ht1 & Hch1).
    assert (∀ pid c0, children w !! pid = Some c0 →
              ∃ c1, children w1 !! pid = Some c1 ∧ carried c0 c1 ∧
                    (pid = process h → ("stop" +:+ LF) ∈ stdin c1)) as Hstep.
    { intros pid c0 Hc0. rewrite Hch1. destruct (decide (pid = process h)) as [-> | Hne].
      - rewrite list_lookup_alter_eq, Hc0. eexists. split; [done |].
        split.
        + repeat split; try done. intros x Hx. simpl. apply elem_of_app. by left.
        + intros _. simpl. apply elem_of_app. right. by apply list_elem_of_singleton.
      - rewrite list_lookup_alter_ne by done. exists c0. split; [done |].
        split; [by repeat split |]. done. }
    assert (∀ id', id' ∈ keys → stoppable w1 id') as Hall1.
    { intros id' Hin. destruct (Hall id') as (h' & c' & Hrun' & Hc' & Herr');
        [apply elem_of_cons; by right |].
      destruct (Hstep _ _ Hc') as (c1 & Hc1 & (_ & _ & _ & He & _) & _).
      exists h', c1. rewrite Hr1. split; [done |]. split; [done |]. congruence. }
    destruct (IH w1 Hall1) as (Hout & Hmap & Htim & Hold & Hkids & Hasked).
    cbn [stopAllServers]. rewrite Hstop.
    destruct (stopAllServers keys w1) as [w2 outs] eqn:Hrest. simpl in *.
    split; [by rewrite Hout, Hn1 |]. split; [congruence |]. split.
    { intros i id' Hi. destruct i as [|i]; simpl in Hi.
      - injection Hi as <-. rewrite Nat.add_0_r, Hold by lia.
        rewrite Ht1. apply lookup_insert_eq.
      - rewrite <- Hnow1, <- Hcfg1. rewrite <- (Htim i id' Hi). f_equal. lia. }
    split.
    { intros k Hk. rewrite Hold by lia. rewrite Ht1. apply lookup_insert_ne. lia. }
    split.
    { intros pid c0 Hc0. destruct (Hstep _ _ Hc0) as (c1 & Hc1 & Hcar1 & _).
      destruct (Hkids _ _ Hc1) as (c2 & Hc2 & Hcar2). exists c2. split; [done |].
      destruct Hcar1 as (? & ? & ? & ? & ?), Hcar2 as (? & ? & ? & ? & ?).
      repeat split; try congruence. auto. }
    intros id' h' Hin Hrun'. apply elem_of_cons in Hin as [-> | Hin].
    + assert (h' = h) as -> by congruence.
      destruct (Hstep _ _ Hc) as (c1 & Hc1 & _ & Hstopped).
      destruct (Hkids _ _ Hc1) as (c2 & Hc2 & (_ & _ & _ & _ & Hkeep)).
      exists c2. split; [done |]. apply Hkeep. by apply Hstopped.
    + apply (Hasked id' h' Hin). by rewrite Hr1.
Qed.

Lemma stopAllServers_asks_every_server_witness :
  (stopAllServers ["s1"] (running defaults)).2 = [stop_pending 0%nat] ∧
  runningServers (stopAllServers ["s1"] (running defaults)).1
    = runningServers (running defaults).
Proof.
  assert (∀ id, id ∈ ["s1"] → stoppable (running defaults) id) as Hall.
  { intros id Hid. apply list_elem_of_singleton in Hid as ->.
    assert (∃ c, children (running defaults) !! 0%nat = Some c ∧ stdin_error c = None)
      as (c & Hc & Herr) by (vm_compute; eauto).
    exists (mkHandle 0 1000), c. split; [by vm_compute | done]. }
  destruct (stopAllServers_asks_every_server ["s1"] (running defaults) Hall)
    as (H1 & H2 & _).
  split; [exact H1 | exact H2].
Defined.

End ShutdownFacts.

Module StatusFacts.
Import Registry Examples Service Scenarios.

Lemma isRunning_true w id : isRunning w id = true ↔ is_Some (runningServers w !! id).
Proof. unfold isRunning. by rewrite bool_decide_eq_true. Qed.

Lemma isRunning_false w id : isRunning w id = false ↔ runningServers w !! id = None.
Proof.
  unfold isRunning. by rewrite bool_decide_eq_false, <- eq_None_not_Some.
Qed.

(** Time passing and output arriving leave the store and the map alone. *)
Lemma quiet_frame w evs :
  Forall quiet evs →
  db (run w evs) = db w ∧ runningServers (run w evs) = runningServers w ∧
  now (run w evs) = now w + elapsed evs.
Proof.
  intros Hevs. revert w. induction Hevs as [|e evs He Hevs IH]; intros w.
  - simpl. repeat split; lia.
  - rewrite RegistryFacts.run_cons, RegistryFacts.elapsed_cons.
    destruct (IH (step w e)) as (-> & -> & ->).
    assert (db (step w e) = db w ∧ runningServers (step w e) = runningServers w ∧
            now (step w e) = now w + duration e) as (-> & -> & ->); [| by repeat split; lia].
    destruct e; try done; simpl; unfold on_data;
      (destruct (children w !! pid) as [c|]; [| repeat split; lia]);
      (destruct (LogBuffer.stream_entry _ (now w) data); [| repeat split; lia]);
      destruct (io c); simpl; repeat split; lia.
Qed.

(** X20.  After a successful start, followed by output and passing time,
    getServerStatus reports 'running' with [lastStarted] the time of the
    start and the usage sampled, and listServers lists the server as
    running with an uptime equal to the time passed since the start. *)
Theorem uptime_counts_from_start {U} (sample : string → string + U) s id io server d u evs :
  runningServers (core s) !! id = None →
  db (core s) !! id = Some server →
  details s !! id = Some d →
  existsSync (core s) (path server) = true →
  existsSync (core s) (path_join (path server) (jarFile server)) = true →
  spawn_throws (faults (core s)) = None →
  save_rejects (faults (core s)) = None →
  sample id = inr u →
  Forall quiet evs →
  let later := mkSite (run (startServer (core s) id io).1 evs) (details s) in
  (∃ report,
     getServerStatus sample later id = inr report ∧
     report_status report = "running" ∧
     report_lastStarted report = Some (now (core s)) ∧
     report_resourceUsage report = Some u) ∧
  (∃ entry,
     listServers sample later [id] = inr [entry] ∧
     summary_status entry = "running" ∧
     summary_uptime entry = Some (elapsed evs) ∧
     summary_resourceUsage entry = Some u).
Proof.
  intros Hrun Hdb Hd Hdir Hjar Hspawn Hsave Hsample Hevs later.
  destruct (LifecycleFacts.start_effect (core s) id io server
              Hrun Hdb Hdir Hjar Hspawn Hsave) as (_ & Hmap & _ & Hdb1 & _).
  assert (now (startServer (core s) id io).1 = now (core s)) as Hnow1.
  { unfold startServer. cbn [start_steps].
    rewrite RegistryFacts.entry_step by done. cbn [start_steps].
    rewrite (RegistryFacts.find_step (core s) id io server) by done. cbn [start_steps].
    rewrite (RegistryFacts.save_step _ id io _ (new_child (core s) id io server));
      [| done |].
    2: { simpl. by rewrite lookup_app_r, Nat.sub_diag by lia. }
    by destruct io. }
  destruct (quiet_frame (startServer (core s) id io).1 evs Hevs) as (Hdb2 & Hmap2 & Hnow2).
  assert (findById later id = Some (with_lastStarted (now (core s)) server, d)) as Hfind.
  { unfold findById, later. simpl. rewrite Hdb2, Hdb1, lookup_insert_eq. simpl.
    by rewrite Hd. }
  assert (isRunning (core later) id = true) as Hrunning.
  { apply isRunning_true. unfold later. simpl.
    rewrite Hmap2, Hmap, lookup_insert_eq. eauto. }
  split.
  - unfold getServerStatus. rewrite Hfind, Hrunning. simpl. rewrite Hsample.
    eexists. split; [done |]. done.
  - simpl. rewrite Hfind. unfold summarize. rewrite Hrunning. simpl. rewrite Hsample.
    eexists. split; [done |]. simpl. split; [done |]. split; [| done].
    f_equal. rewrite Hnow2, Hnow1. lia.
Qed.

Lemma uptime_counts_from_start_witness :
  ∃ entry,
    listServers sampler_fixed
      (site (run (startServer (idle defaults) "s1" true).1
                 [Tick 5000; StdoutData 0 "Done"])) ["s1"] = inr [entry] ∧
    summary_status entry = "running" ∧
    summary_uptime entry = Some 5000 ∧
    summary_resourceUsage entry = Some 42.
Proof.
  apply (proj2 (uptime_counts_from_start sampler_fixed (site (idle defaults)) "s1" true
                  survival survival_details 42 [Tick 5000; StdoutData 0 "Done"]
                  ltac:(by vm_compute) ltac:(by vm_compute) ltac:(by vm_compute)
                  ltac:(by vm_compute) ltac:(by vm_compute) ltac:(by vm_compute)
                  ltac:(by vm_compute) eq_refl
                  ltac:(by repeat constructor))).
Defined.

(** X21.  For a stored server that is not running, the status and the
    listing say 'stopped', with no resource usage and, in the listing,
    uptime 0, whatever the monitor would answer: it is not asked. *)
Theorem stopped_servers_are_not_sampled {U} (sample : string → string + U) s id server d :
  runningServers (core s) !! id = None →
  db (core s) !! id = Some server →
  details s !! id = Some d →
  (∃ report,
     getServerStatus sample s id = inr report ∧
     report_status report = "stopped" ∧
     report_resourceUsage report = None) ∧
  (∃ entry,
     listServers sample s [id] = inr [entry] ∧
     summary_status entry = "stopped" ∧
     summary_uptime entry = Some 0 ∧
     summary_resourceUsage entry = None).
Proof.
  intros Hrun Hdb Hd.
  assert (findById s id = Some (server, d)) as Hfind
    by (unfold findById; rewrite Hdb; simpl; by rewrite Hd).
  apply isRunning_false in Hrun.
  split.
  - unfold getServerStatus. rewrite Hfind, Hrun. simpl. eauto.
  - simpl. rewrite Hfind. unfold summarize. rewrite Hrun. simpl. eauto 10.
Qed.

Lemma stopped_servers_are_not_sampled_witness :
  ∃ entry,
    listServers sampler_down (site (idle defaults)) ["s1"] = inr [entry] ∧
    summary_status entry = "stopped" ∧
    summary_uptime entry = Some 0 ∧
    summary_resourceUsage entry = None.
Proof.
  apply (proj2 (stopped_servers_are_not_sampled sampler_down (site (idle defaults)) "s1"
                  survival survival_details
                  ltac:(by vm_compute) ltac:(by vm_compute) ltac:(by vm_compute))).
Defined.

(** X22.  When the resource monitor throws for every identifier,
    listServers fails with that error exactly when one of the documents
    listed is of a running server; when none is running it returns a list
    whose entries are all stopped with uptime 0. *)
Theorem listing_fails_with_the_sampler {U} e (sample : string → string + U) s found :
  (∀ id, sample id = inl e) →
  (listServers sample s found = inl e ↔
   ∃ id, id ∈ found ∧ is_Some (findById s id) ∧ is_Some (runningServers (core s) !! id)) ∧
  ((∀ id, id ∈ found → runningServers (core s) !! id = None) →
   ∃ entries,
     listServers sample s found = inr entries ∧
     Forall (λ entry, summary_status entry = "stopped" ∧ summary_uptime entry = Some 0)
            entries).
Proof.
  intros Hdown. induction found as [|id found [IH1 IH2]].
  - split.
    + split; [done |]. intros (id & Hin & _). by apply elem_of_nil in Hin.
    + intros _. by exists [].
  - assert ((∃ id', id' ∈ id :: found ∧ is_Some (findById s id') ∧
                    is_Some (runningServers (core s) !! id')) ↔
            (is_Some (findById s id) ∧ is_Some (runningServers (core s) !! id)) ∨
            ∃ id', id' ∈ found ∧ is_Some (findById s id') ∧
                   is_Some (runningServers (core s) !! id'))
      as Hex.
    { split.
      - intros (id' & Hin & HP). apply elem_of_cons in Hin as [-> | Hin]; eauto.
      - intros [HP | (id' & Hin & HP)].
        + exists id. split; [apply elem_of_cons; by left | done].
        + exists id'. split; [apply elem_of_cons; by right | done]. }
    assert ((∀ id', id' ∈ id :: found → runningServers (core s) !! id' = None) →
            runningServers (core s) !! id = None ∧
            ∀ id', id' ∈ found → runningServers (core s) !! id' = None) as Hnone.
    { intros H. split; [apply H, elem_of_cons; by left |].
      intros id' Hin. apply H, elem_of_cons. by right. }
    rewrite Hex. cbn [listServers].
    destruct (findById s id) as [[server d]|] eqn:Hfind.
    + unfold summarize. destruct (isRunning (core s) id) eqn:Hrun; cbn [usage_of].
      * rewrite Hdown. split.
        -- split; [| done]. intros _. left. split; [eauto |].
           by apply isRunning_true.
        -- intros [Hid _]%Hnone. apply isRunning_true in Hrun as [h Hh]. congruence.
      * apply isRunning_false in Hrun. split.
        -- rewrite <- IH1. destruct (listServers sample s found) as [e'|entries].
           ++ split; [by right |]. intros [[_ [h Hh]] | Hrest]; [congruence | done].
           ++ split; [done |]. intros [[_ [h Hh]] | Hrest]; [congruence | done].
        -- intros [_ Hrest]%Hnone. destruct (IH2 Hrest) as (entries & -> & Hall).
           eexists. split; [done |]. by constructor.
    + split.
      * rewrite IH1. split; [by right |].
        intros [[Hf _] | Hrest]; [| done]. by destruct Hf.
      * intros [_ Hrest]%Hnone. by apply IH2.
Qed.

Lemma listing_fails_with_the_sampler_witness :
  ∃ entries,
    listServers sampler_down (site (idle defaults)) ["s1"] = inr entries ∧
    Forall (λ entry, summary_status entry = "stopped" ∧ summary_uptime entry = Some 0)
           entries.
Proof.
  apply (proj2 (listing_fails_with_the_sampler "monitor unavailable" sampler_down
                  (site (idle defaults)) ["s1"] (λ _, eq_refl))).
  intros id Hid. apply list_elem_of_singleton in Hid as ->. by vm_compute.
Defined.

End StatusFacts.

Module CreateFacts.
Import Registry Examples Service Scenarios.

Lemma port_taken_true s p :
  port_taken s p = true ↔ ∃ id d, details s !! id = Some d ∧ port d = p.
Proof.
  unfold port_taken. rewrite bool_decide_eq_true, Exists_exists. split.
  - intros ([id d] & Hin & Hp). apply elem_of_map_to_list in Hin. eauto.
  - intros (id & d & Hd & Hp). exists (id, d). split; [| done].
    by apply elem_of_map_to_list.
Qed.

Lemma port_taken_false s p :
  port_taken s p = false ↔ ∀ id d, details s !! id = Some d → port d ≠ p.
Proof.
  rewrite <- not_true_iff_false, port_taken_true. split.
  - intros Hno id d Hd Hp. apply Hno. eauto.
  - intros Hall (id & d & Hd & Hp). by apply (Hall id d).
Qed.

(** X23.  createServer throws 'Missing required server configuration'
    when the name, the version or the type is missing or empty, the port is
    missing or 0, or memory is missing; with complete data it throws 'Port
    <p> is already in use by another server', with the port as JavaScript
    prints it, when a document with that port exists.  In both cases
    nothing is changed. *)
Theorem createServer_validates own_entries serversDir newId isoNow s data :
  (JS.truthy (data_name data) = None ∨ JS.truthy (data_version data) = None ∨
   JS.truthy (data_type data) = None ∨ truthy_number (data_port data) = None ∨
   data_memory data = None →
   createServer own_entries serversDir newId isoNow s data
   = (s, inl "Missing required server configuration")) ∧
  (∀ name version type p memory id d,
     JS.truthy (data_name data) = Some name →
     JS.truthy (data_version data) = Some version →
     JS.truthy (data_type data) = Some type →
     truthy_number (data_port data) = Some p →
     data_memory data = Some memory →
     details s !! id = Some d → port d = p →
     createServer own_entries serversDir newId isoNow s data
     = (s, inl ("Port " +:+ JS.Number_toString p +:+
                " is already in use by another server"))).
Proof.
  split.
  - unfold createServer. intros Hmissing.
    destruct (JS.truthy (data_name data)); [| done].
    destruct (JS.truthy (data_version data)); [| done].
    destruct (JS.truthy (data_type data)); [| done].
    destruct (truthy_number (data_port data)); [| done].
    destruct (data_memory data); [| done].
    destruct Hmissing as [? | [? | [? | [? | ?]]]]; done.
  - intros name version type p memory id d Hn Hv Ht Hp Hm Hd Hport.
    unfold createServer. rewrite Hn, Hv, Ht, Hp, Hm.
    assert (port_taken s p = true) as -> by (apply port_taken_true; eauto).
    done.
Qed.

Lemma createServer_validates_witness :
  createServer internal_fields "/srv/mc" "s2" "2024-05-01"
    (mkSite (idle defaults) (<["s1" := mkDetails "1.20" "paper" 25566 false 0]> ∅))
    sample_data
  = (mkSite (idle defaults) (<["s1" := mkDetails "1.20" "paper" 25566 false 0]> ∅),
     inl "Port 25566 is already in use by another server").
Proof.
  exact (proj2 (createServer_validates internal_fields "/srv/mc" "s2" "2024-05-01"
                  (mkSite (idle defaults) (<["s1" := mkDetails "1.20" "paper" 25566 false 0]> ∅))
                  sample_data)
               "creative" "1.20" "paper" 25566 (mkMemory None (Some "2G")) "s1"
               (mkDetails "1.20" "paper" 25566 false 0)
               eq_refl eq_refl eq_refl eq_refl eq_refl ltac:(by vm_compute) eq_refl).
Defined.

Lemma ensureDir_effect p w w1 :
  ensureDir p w = inl w1 →
  is_Some (fs w1 !! p) ∧
  (∀ k, is_Some (fs w !! k) → fs w1 !! k = fs w !! k) ∧
  (∀ k, k ≠ p → fs w1 !! k = fs w !! k) ∧
  db w1 = db w ∧ runningServers w1 = runningServers w ∧ faults w1 = faults w ∧
  now w1 = now w ∧ children w1 = children w.
Proof.
  unfold ensureDir. destruct (ensureDir_rejects (faults w)); [done |].
  intros [= <-]. simpl. destruct (fs w !! p) eqn:Hp.
  - by repeat split.
  - repeat split; try done.
    + rewrite lookup_insert_eq. eauto.
    + intros k [x Hk]. rewrite lookup_insert_ne; [done | congruence].
    + intros k Hne. by rewrite lookup_insert_ne.
Qed.

(** X24.  createServer downloads nothing: with complete data and a free
    port, when the jar <type>-<version>.jar is not in the directory of the
    server, it fails with the error of downloadServerJar, no document is
    stored, and the one change is that the directory of the server has
    been created. *)
Theorem createServer_needs_the_jar own_entries serversDir newId isoNow s data
    name version type p memory :
  JS.truthy (data_name data) = Some name →
  JS.truthy (data_version data) = Some version →
  JS.truthy (data_type data) = Some type →
  truthy_number (data_port data) = Some p →
  data_memory data = Some memory →
  (∀ id d, details s !! id = Some d → port d ≠ p) →
  ensureDir_rejects (faults (core s)) = None →
  let serverPath := path_join serversDir name in
  let jarPath := path_join serverPath (type +:+ "-" +:+ version +:+ ".jar") in
  existsSync (core s) jarPath = false →
  (createServer own_entries serversDir newId isoNow s data).2
    = inl (downloadServerJar type version jarPath) ∧
  db (core (createServer own_entries serversDir newId isoNow s data).1) = db (core s) ∧
  details (createServer own_entries serversDir newId isoNow s data).1 = details s ∧
  is_Some (fs (core (createServer own_entries serversDir newId isoNow s data).1)
             !! serverPath) ∧
  (∀ k, k ≠ serverPath →
     fs (core (createServer own_entries serversDir newId isoNow s data).1) !! k
     = fs (core s) !! k).
Proof.
  intros Hn Hv Ht Hp Hm Hfree Hens serverPath jarPath Hjar.
  unfold createServer. rewrite Hn, Hv, Ht, Hp, Hm.
  apply port_taken_false in Hfree. rewrite Hfree.
  destruct (ensureDir (path_join serversDir name) (core s)) as [w1|msg] eqn:Hdir.
  2: { unfold ensureDir in Hdir. by rewrite Hens in Hdir. }
  destruct (ensureDir_effect _ _ _ Hdir) as (Hsp & _ & Hother & Hdb & _).
  assert (existsSync w1 jarPath = false) as Hjar1.
  { unfold existsSync in *. rewrite Hother; [done |].
    apply RegistryFacts.path_join_ne. }
  fold serverPath jarPath. rewrite Hjar1. simpl. done.
Qed.

Lemma createServer_needs_the_jar_witness :
  (createServer internal_fields "/srv/mc" "s2" "2024-05-01" (mkSite (idle defaults) ∅)
     sample_data).2
  = inl "Download not implemented for Paper servers".
Proof.
  exact (proj1 (createServer_needs_the_jar internal_fields "/srv/mc" "s2" "2024-05-01"
                  (mkSite (idle defaults) ∅) sample_data
                  "creative" "1.20" "paper" 25566 (mkMemory None (Some "2G"))
                  eq_refl eq_refl eq_refl eq_refl eq_refl
                  ltac:(intros id d Hd; simpl in Hd; by rewrite lookup_empty in Hd)
                  eq_refl ltac:(by vm_compute))).
Defined.

Lemma append_inj_l (a b c : string) : a +:+ b = a +:+ c → b = c.
Proof.
  induction a as [|x a IH]; [done |].
  rewrite !LogFileFacts.append_cons. intros [= H]. auto.
Qed.

Lemma path_join_inj dir a b : path_join dir a = path_join dir b → a = b.
Proof. unfold path_join. intros H. by do 2 apply append_inj_l in H. Qed.

(** X25.  With complete data, a free port, the jar in place and no
    failure of the store, the disk or the spawn, createServer stores the
    new document (found under its identifier) with the path
    serversDir/name, the jar file <type>-<version>.jar and the text of the
    port among its properties; it writes server.properties from the
    entries that the stored Map shows as properties of its own, and
    eula.txt with eula=true exactly when acceptEula is set; and a start of
    the new server that follows succeeds. *)
Theorem create_then_start own_entries serversDir newId isoNow s data
    name version type p memory io :
  JS.truthy (data_name data) = Some name →
  JS.truthy (data_version data) = Some version →
  JS.truthy (data_type data) = Some type →
  truthy_number (data_port data) = Some p →
  data_memory data = Some memory →
  (∀ id d, details s !! id = Some d → port d ≠ p) →
  faults (core s) = no_faults →
  db (core s) !! newId = None →
  runningServers (core s) !! newId = None →
  let serverPath := path_join serversDir name in
  let jarFile := type +:+ "-" +:+ version +:+ ".jar" in
  existsSync (core s) (path_join serverPath jarFile) = true →
  let created := (createServer own_entries serversDir newId isoNow s data).1 in
  ∃ server d,
    (createServer own_entries serversDir newId isoNow s data).2 = inr (server, d) ∧
    findById created newId = Some (server, d) ∧
    path server = serverPath ∧ Registry.jarFile server = jarFile ∧
    get "server-port" (properties server) = Some (JS.Number_toString p) ∧
    port d = p ∧
    fs (core created) !! path_join serverPath "server.properties"
      = Some (File (properties_content isoNow (own_entries (properties server)))) ∧
    (data_acceptEula data = true →
     fs (core created) !! path_join serverPath "eula.txt"
       = Some (File ("eula=true" +:+ LF))) ∧
    (data_acceptEula data = false →
     fs (core created) !! path_join serverPath "eula.txt"
       = fs (core s) !! path_join serverPath "eula.txt") ∧
    (startServer (core created) newId io).2 = start_returned (Started newId).
Proof.
  intros Hn Hv Ht Hp Hm Hfree Hfaults Hfresh Hidle serverPath jarFile Hjar created.
  subst created. unfold createServer. rewrite Hn, Hv, Ht, Hp, Hm.
  apply port_taken_false in Hfree. rewrite Hfree.
  destruct (ensureDir (path_join serversDir name) (core s)) as [w1|msg] eqn:Hdir.
  2: { unfold ensureDir in Hdir. by rewrite Hfaults in Hdir. }
  destruct (ensureDir_effect _ _ _ Hdir)
    as (Hsp & Hkeep & Hother & Hdb1 & Hrun1 & Hf1 & Hnow1 & Hch1).
  fold serverPath jarFile in Hsp, Hkeep, Hother |- *.
  assert (existsSync w1 (path_join serverPath jarFile) = true) as Hjar1.
  { unfold existsSync in *. apply bool_decide_eq_true in Hjar.
    apply bool_decide_eq_true. by rewrite Hkeep. }
  rewrite Hjar1. cbn [negb]. rewrite Hf1, Hfaults. cbn [save_rejects no_faults].
  set (server := mkServer (JS.trim name) serverPath jarFile _ _ [] _ None None).
  set (d := mkDetails version type p _ (now w1)).
  set (w2 := set_db (insert newId server) w1).
  destruct (PropertiesFacts.update_effect own_entries isoNow w2 newId server [])
    as (Hrun3 & Hf3 & _ & Hnone & _).
  { subst w2. simpl. apply lookup_insert_eq. }
  { subst w2. simpl. by rewrite Hrun1. }
  { subst w2. simpl. by rewrite Hf1, Hfaults. }
  destruct (Hnone eq_refl) as (Hres & Hdb3 & Hfs3).
  assert (faults w2 = no_faults) as Hf2 by (subst w2; simpl; by rewrite Hf1).
  rewrite Hf2 in Hf3.
  destruct (updateServerProperties own_entries isoNow w2 newId []) as [w3 r3] eqn:Hup.
  simpl in Hres, Hfs3, Hrun3, Hdb3, Hf3. rewrite Hres.
  assert (∀ w4,
            db w4 = db w2 → runningServers w4 = runningServers w2 →
            faults w4 = no_faults →
            (∀ k, is_Some (fs w3 !! k) → is_Some (fs w4 !! k)) →
            (startServer w4 newId io).2 = start_returned (Started newId)) as Hstart.
  { intros w4 Hdb4 Hrun4 Hf4 Hfs4.
    apply (LifecycleFacts.start_effect w4 newId io server).
    - rewrite Hrun4. subst w2. simpl. by rewrite Hrun1.
    - rewrite Hdb4. subst w2. simpl. apply lookup_insert_eq.
    - apply RegistryFacts.existsSync_true, Hfs4. rewrite Hfs3. simpl.
      apply lookup_insert_is_Some'. right. subst w2. done.
    - apply RegistryFacts.existsSync_true, Hfs4. rewrite Hfs3. simpl.
      apply lookup_insert_is_Some'. right. subst w2. simpl.
      by apply bool_decide_eq_true in Hjar1.
    - by rewrite Hf4.
    - by rewrite Hf4. }
  exists server, d.
  destruct (data_acceptEula data) eqn:Heula.
  - rewrite Hf3. cbn [writeFile_rejects no_faults]. cbn [fst snd].
    split; [done |]. split.
    { unfold findById. simpl. rewrite Hdb3. subst w2. simpl.
      rewrite lookup_insert_eq. simpl. by rewrite lookup_insert_eq. }
    split; [done |]. split; [done |]. split; [reflexivity |].
    split; [done |]. split.
    { simpl. rewrite lookup_insert_ne.
      - rewrite Hfs3. simpl. apply lookup_insert_eq.
      - intros Heq. by apply path_join_inj in Heq. }
    split; [intros _; simpl; apply lookup_insert_eq |]. split; [done |].
    apply Hstart; try done. intros k Hk. simpl. apply lookup_insert_is_Some'. by right.
  - cbn [fst snd]. split; [done |]. split.
    { unfold findById. simpl. rewrite Hdb3. subst w2. simpl.
      rewrite lookup_insert_eq. simpl. by rewrite lookup_insert_eq. }
    split; [done |]. split; [done |]. split; [reflexivity |].
    split; [done |]. split.
    { simpl. rewrite Hfs3. simpl. apply lookup_insert_eq. }
    split; [done |]. split.
    { intros _. simpl. rewrite Hfs3. simpl. rewrite lookup_insert_ne.
      - subst w2. simpl. apply Hother. intros Heq.
        by apply RegistryFacts.path_join_ne in Heq.
      - intros Heq. by apply path_join_inj in Heq. }
    by apply Hstart.
Qed.

Lemma create_then_start_witness :
  (startServer
     (core (createServer internal_fields "/srv/mc" "s2" "2024-05-01" (mkSite (idle defaults) ∅)
              survival_data).1) "s2" true).2
  = start_returned (Started "s2").
Proof.
  destruct (create_then_start internal_fields "/srv/mc" "s2" "2024-05-01"
              (mkSite (idle defaults) ∅) survival_data "survival" "1.20" "paper" 25570 (mkMemory (Some "2G") None) true
              eq_refl eq_refl eq_refl eq_refl eq_refl
              ltac:(intros id d Hd; simpl in Hd; by rewrite lookup_empty in Hd)
              eq_refl ltac:(by vm_compute) ltac:(by vm_compute) ltac:(by vm_compute))
    as (server & d & _ & _ & _ & _ & _ & _ & _ & _ & _ & Hstart).
  exact Hstart.
Defined.

End CreateFacts.

Module RestoreFacts.
Import Registry Examples Service Scenarios.

Lemma within_jar dir file : within dir (path_join dir file).
Proof.
  right. apply JSFacts.startsWith_spec. exists file. unfold path_join.
  by rewrite PropertiesFacts.string_app_assoc.
Qed.

Lemma remove_effect p w :
  (∀ k, within p k → fs (remove p w) !! k = None) ∧
  (∀ k, ¬ within p k → fs (remove p w) !! k = fs w !! k) ∧
  db (remove p w) = db w ∧ runningServers (remove p w) = runningServers w ∧
  faults (remove p w) = faults w ∧ children (remove p w) = children w.
Proof.
  unfold remove. simpl. repeat split; try done.
  - intros k Hk. apply map_lookup_filter_None. right. intros x _ Hno. by apply Hno.
  - intros k Hk. destruct (fs w !! k) as [x|] eqn:Hx.
    + apply map_lookup_filter_Some. by split.
    + apply map_lookup_filter_None. by left.
Qed.

Lemma wipe_effect w server id :
  ensureDir_rejects (faults w) = None →
  (wipe w server id).2 = restore_returned (Success "Backup restored successfully") ∧
  fs (wipe w server id).1 !! path server = Some Dir ∧
  (∀ k, k ≠ path server → within (path server) k → fs (wipe w server id).1 !! k = None) ∧
  (∀ k, ¬ within (path server) k → fs (wipe w server id).1 !! k = fs w !! k) ∧
  db (wipe w server id).1 = db w ∧
  runningServers (wipe w server id).1 = runningServers w ∧
  faults (wipe w server id).1 = faults w ∧
  children (wipe w server id).1 = children w.
Proof.
  intros Hens. unfold wipe.
  destruct (remove_effect (path server) w) as (Hgone & Hkept & Hdb & Hrun & Hf & Hch).
  unfold ensureDir. rewrite Hf, Hens. cbn [fst snd].
  set (w0 := remove (path server) w) in *.
  assert (fs (set_fs (λ m, match m !! path server with
                           | Some _ => m
                           | None => <[path server := Dir]> m
                           end) w0) = <[path server := Dir]> (fs w0)) as Hfs.
  { destruct w0 eqn:E. simpl. specialize (Hgone (path server) (or_introl eq_refl)).
    simpl in Hgone. by rewrite Hgone. }
  split; [done |]. rewrite Hfs.
  split; [apply lookup_insert_eq |]. split.
  { intros k Hne Hk. rewrite lookup_insert_ne by done. by apply (Hgone k). }
  split.
  { intros k Hk. rewrite lookup_insert_ne; [by apply (Hkept k) |].
    intros <-. apply Hk. by left. }
  by destruct w0.
Qed.

(** X26.  restoreBackup of a server that is not running reports
    success but extracts nothing: afterwards the directory of the server
    exists and is empty, everything outside of it is unchanged, and a start
    of the server that follows fails because its jar is missing. *)
Theorem restore_leaves_an_empty_directory backups w backupId backup server io :
  backups !! backupId = Some backup →
  db w !! backup_server backup = Some server →
  runningServers w !! backup_server backup = None →
  ensureDir_rejects (faults w) = None →
  let restored := (restoreBackup backups w backupId).1 in
  (restoreBackup backups w backupId).2
    = restore_returned (Success "Backup restored successfully") ∧
  fs restored !! path server = Some Dir ∧
  (∀ k, k ≠ path server → within (path server) k → fs restored !! k = None) ∧
  (∀ k, ¬ within (path server) k → fs restored !! k = fs w !! k) ∧
  (startServer restored (backup_server backup) io).2
    = start_returned
        (StartFailed (JarNotFound (path_join (path server) (jarFile server)))).
Proof.
  intros Hb Hdb Hrun Hens restored. subst restored. unfold restoreBackup.
  rewrite Hb, Hdb. apply StatusFacts.isRunning_false in Hrun as Hrun'. rewrite Hrun'.
  destruct (wipe_effect w server (backup_server backup) Hens)
    as (Hres & Hdir & Hgone & Hkept & Hdb1 & Hrun1 & Hf1 & _).
  split; [done |]. split; [done |]. split; [done |]. split; [done |].
  set (w1 := (wipe w server (backup_server backup)).1) in *.
  unfold startServer.
  change (start_steps 4 w1 (start_entry (backup_server backup) io))
    with (let '(w', t) := start_step w1 (start_entry (backup_server backup) io) in
          let '(w', t) := start_step w' t in start_steps 2 w' t).
  rewrite RegistryFacts.entry_step by (by rewrite Hrun1).
  assert (existsSync w1 (path server) = true) as Hd
    by (apply RegistryFacts.existsSync_true; rewrite Hdir; eauto).
  assert (existsSync w1 (path_join (path server) (jarFile server)) = false) as Hj.
  { apply RegistryFacts.existsSync_false, Hgone; [| apply within_jar].
    apply RegistryFacts.path_join_ne. }
  cbn [start_step]. rewrite Hdb1, Hdb, Hd. unfold launch. rewrite Hj.
  by rewrite RegistryFacts.start_steps_returned.
Qed.

Lemma restore_leaves_an_empty_directory_witness :
  (restoreBackup one_backup (idle defaults) "b1").2
    = restore_returned (Success "Backup restored successfully") ∧
  (startServer (restoreBackup one_backup (idle defaults) "b1").1 "s1" true).2
    = start_returned (StartFailed (JarNotFound "/srv/mc/survival/paper-1.20.jar")).
Proof.
  destruct (restore_leaves_an_empty_directory one_backup (idle defaults) "b1"
              (mkBackup "s1" "/srv/backups/b1.zip") survival true
              ltac:(by vm_compute) ltac:(by vm_compute) ltac:(by vm_compute)
              ltac:(by vm_compute)) as (H1 & _ & _ & _ & H5).
  split; [exact H1 | exact H5].
Defined.

(** X27.  restoreBackup of a running server first asks it to stop and
    waits: until the promise of the stop is resolved nothing on the disk is
    touched; after the close of the process the call goes on, empties the
    directory and reports success. *)
Theorem restore_waits_for_the_close backups w backupId backup server h c code :
  backups !! backupId = Some backup →
  db w !! backup_server backup = Some server →
  runningServers w !! backup_server backup = Some h →
  children w !! process h = Some c →
  exitCode c = None →
  stdin_error c = None →
  ensureDir_rejects (faults w) = None →
  next_timer w ∉ (settled w).*1 →
  let waiting := (restoreBackup backups w backupId).1 in
  let task := (restoreBackup backups w backupId).2 in
  task = restore_awaits_stop server (backup_server backup) (next_timer w) ∧
  fs waiting = fs w ∧
  restore_resume waiting task = (waiting, task) ∧
  (restore_resume (run waiting [Close (process h) code]) task).2
    = restore_returned (Success "Backup restored successfully") ∧
  fs (restore_resume (run waiting [Close (process h) code]) task).1 !! path server
    = Some Dir ∧
  (∀ k, k ≠ path server → within (path server) k →
     fs (restore_resume (run waiting [Close (process h) code]) task).1 !! k = None).
Proof.
  intros Hb Hdb Hrun Hc Hexit Herr Hens Hfresh waiting task.
  destruct (RegistryFacts.stop_pending_spec w (backup_server backup) h c Hrun Hc Herr)
    as (w1 & Hstop & Hw1 & _ & _ & Hrun1 & Hf1).
  assert (restoreBackup backups w backupId
          = (w1, restore_awaits_stop server (backup_server backup) (next_timer w))) as Hr.
  { unfold restoreBackup. rewrite Hb, Hdb.
    assert (isRunning w (backup_server backup) = true) as ->
      by (apply StatusFacts.isRunning_true; eauto).
    by rewrite Hstop. }
  subst waiting task. rewrite Hr. cbn [fst snd].
  assert (fs w1 = fs w ∧ settled w1 = settled w) as [Hfs1 Hs1].
  { unfold stopServer in Hstop. rewrite Hrun in Hstop.
    rewrite (RegistryFacts.stdin_write_ok _ _ _ c) in Hstop by done.
    by injection Hstop as <-. }
  split; [done |]. split; [done |]. split.
  { simpl. rewrite bool_decide_eq_false_2; [done |]. by rewrite Hs1. }
  destruct (waiting_child _ _ _ _ _ Hw1) as (c1 & Hc1 & Hsame).
  destruct (RegistryFacts.same_but_logs_fields _ _ Hsame) as (_ & Hex & Honce & _ & _).
  destruct (RegistryFacts.on_close_spec (process h) code w1 c1 Hc1)
    as (_ & _ & Hf2 & _ & Hs2); [by rewrite Hex |].
  assert (next_timer w ∈ (settled (run w1 [Close (process h) code])).*1) as Hin.
  { apply list_elem_of_fmap. eexists. split; [| apply Hs2]; [done |].
    rewrite Honce. simpl. apply elem_of_app. right. by apply list_elem_of_singleton. }
  simpl run in *. simpl restore_resume. rewrite bool_decide_eq_true_2 by done.
  destruct (wipe_effect (on_close (process h) code w1) server (backup_server backup))
    as (Hres & Hdir & Hgone & _); [by rewrite Hf2, Hf1 |].
  done.
Qed.

Lemma restore_waits_for_the_close_witness :
  let waiting := (restoreBackup one_backup (running defaults) "b1").1 in
  let task := (restoreBackup one_backup (running defaults) "b1").2 in
  task = restore_awaits_stop (with_lastStarted 1000 survival) "s1" 0 ∧
  restore_resume waiting task = (waiting, task) ∧
  (restore_resume (run waiting [Close 0 (Some 0)]) task).2
    = restore_returned (Success "Backup restored successfully").
Proof.
  assert (∃ c, children (running defaults) !! 0%nat = Some c ∧
               exitCode c = None ∧ stdin_error c = None) as (c & Hc & Hexit & Herr)
    by (vm_compute; eauto).
  destruct (restore_waits_for_the_close one_backup (running defaults) "b1"
              (mkBackup "s1" "/srv/backups/b1.zip") (with_lastStarted 1000 survival)
              (mkHandle 0 1000) c (Some 0)
              ltac:(by vm_compute) ltac:(by vm_compute) ltac:(by vm_compute)
              Hc Hexit Herr ltac:(by vm_compute)
              ltac:(vm_compute; by intros ?%elem_of_nil))
    as (H1 & _ & H3 & H4 & _).
  intros waiting task. split; [exact H1 |]. split; [exact H3 | exact H4].
Defined.

End RestoreFacts.
